(** * Transcript analyzer: response rescue, retry control, request handling

    A shallow embedding of [src/app.py] and [src/utils/groq_utils.py], and
    the properties of the specification checked against it.

    - A Python [str] is the list of its code points ([list char], a code
      point being a number).
    - The values that [json.loads] returns are the inductive type [json]; a
      Python [dict] is an association list in insertion order with unique
      keys; [JNull] is [None].
    - [json.loads] and [re.search] are library functions: they are given
      here as a decoder that reads the text once, with a lexer and a
      stack of open containers, and as a backtracking matcher for the
      three patterns that the code uses.
    - Effects (printing, logging, HTTP posts, sleeping, the CSV file) are
      threaded through an explicit [world]; an exception is the [Raise]
      outcome of the monad [M].
    - What the surroundings decide (the API key, what each HTTP post does,
      whether the file system, the clock or standard output refuse what
      they are asked) is read from an [env] record.
    - Of the limits of the interpreter, those that [json.loads] applies
      are part of the decoder: the number of digits that [int()] converts
      and the depth of nesting that the recursion depth allows; the
      environment gives their values.  Left out are running out of
      memory; what else a stack that is all but used up does (a mistake
      found by the scanner with fewer than three levels left is reported
      as a [RecursionError]; a value nested as deep as the decoder could
      just take may be too deep for [jsonify]); and what is raised
      outside [Exception] ([KeyboardInterrupt], [SystemExit]).
    - A formatted message is kept piece by piece ([message]): literal text,
      and values whose text Python's [str()] decides.

    The file has the definitions first (strings, JSON, patterns, the
    runtime, the two source files, the vocabulary of the statements) and
    then the lemmas and the theorems, claim by claim. *)

From Stdlib Require Import List ZArith NArith QArith Lia Bool Arith.
From Stdlib Require Strings.Byte.
Import ListNotations.

Set Implicit Arguments.

(* ================================================================== *)
(** * Strings *)

(** A character is its code point. *)
Definition char := N.

(** One-character literals, ["{"%cp] for the code point of a brace. *)
Definition char_of_bytes (l : list Byte.byte) : option N :=
  match l with
  | [b] => Some (Strings.Byte.to_N b)
  | _ => None
  end.

Definition bytes_of_char (c : N) : option (list Byte.byte) :=
  match Strings.Byte.of_N c with
  | Some b => Some [b]
  | None => None
  end.

Declare Scope cp_scope.
Delimit Scope cp_scope with cp.
String Notation N char_of_bytes bytes_of_char : cp_scope.
Bind Scope cp_scope with char.

Definition str := list char.

Inductive str_lit := lit_nil | lit_cons (a : char) (s : str_lit).

Fixpoint str_lit_of_bytes (l : list Byte.byte) : str_lit :=
  match l with
  | [] => lit_nil
  | b :: l' => lit_cons (Strings.Byte.to_N b) (str_lit_of_bytes l')
  end.

Fixpoint bytes_of_str_lit (s : str_lit) : option (list Byte.byte) :=
  match s with
  | lit_nil => Some []
  | lit_cons a s' =>
      match Strings.Byte.of_N a, bytes_of_str_lit s' with
      | Some b, Some l => Some (b :: l)
      | _, _ => None
      end
  end.

Declare Scope str_scope.
Delimit Scope str_scope with str.
#[warnings="-via-type-remapping,-via-type-mismatch"] String Notation str str_lit_of_bytes bytes_of_str_lit
  (via str_lit mapping [[nil] => lit_nil, [cons] => lit_cons]) : str_scope.

Local Open Scope list_scope.
Local Open Scope str_scope.

Module PyStr.

Definition code (c : char) : N := c.

Definition chr_eqb (a b : char) : bool := N.eqb a b.

Fixpoint eqb (a b : str) : bool :=
  match a, b with
  | [], [] => true
  | x :: a', y :: b' => chr_eqb x y && eqb a' b'
  | _, _ => false
  end.

(** The code points for which [str.isspace] holds: the characters that
    [str.strip()] removes. *)
Definition whitespace : list char :=
  [9; 10; 11; 12; 13; 28; 29; 30; 31; 32; 133; 160; 5760;
   8192; 8193; 8194; 8195; 8196; 8197; 8198; 8199; 8200; 8201; 8202;
   8232; 8233; 8239; 8287; 12288]%N.

Definition isspace (c : char) : bool := existsb (chr_eqb c) whitespace.

Fixpoint lstrip (s : str) : str :=
  match s with
  | [] => []
  | c :: s' => if isspace c then lstrip s' else s
  end.

Definition rstrip (s : str) : str := rev (lstrip (rev s)).

(** [s.strip()] *)
Definition strip (s : str) : str := rstrip (lstrip s).

(** [s.startswith(p)] *)
Fixpoint startswith (s p : str) : bool :=
  match p, s with
  | [], _ => true
  | a :: p', b :: s' => chr_eqb a b && startswith s' p'
  | _ :: _, [] => false
  end.

(** [len(s)] *)
Definition len (s : str) : Z := Z.of_nat (length s).

(** [s[a:b]] with Python's treatment of negative and out-of-range bounds. *)
Definition slice (s : str) (a b : Z) : str :=
  let n := len s in
  let norm i := (if i <? 0 then Z.max 0 (i + n) else Z.min i n)%Z in
  let lo := norm a in
  let hi := norm b in
  firstn (Z.to_nat (hi - lo)) (skipn (Z.to_nat lo) s).

(** [s[:n]] *)
Definition prefix (s : str) (n : nat) : str := firstn n s.

(** Lower case of one character, for the letters up to U+00FF.  Beyond,
    a character is left as it is: Python lower-cases none of those to a
    letter of the three sentiment words alone (U+212A gives [k], U+0130
    gives [i] followed by U+0307), so which strings lower-case to one of the
    words, and to which, is as in Python. *)
Definition lower_char (c : char) : char :=
  let n := code c in
  if ((65 <=? n) && (n <=? 90)
      || (192 <=? n) && (n <=? 222) && negb (n =? 215))%N
  then (n + 32)%N else c.

(** [s.lower()] *)
Definition lower (s : str) : str := map lower_char s.

(** [needle in hay] for two strings *)
Fixpoint contains (hay needle : str) : bool :=
  startswith hay needle ||
  match hay with
  | [] => false
  | _ :: hay' => contains hay' needle
  end.

(** Test data is written with ['] where the text has a double quote. *)
Definition dq : char := 34%N.
Definition q (s : str) : str :=
  map (fun c => if chr_eqb c "'" then dq else c) s.

End PyStr.

(* ================================================================== *)
(** * JSON values and [json.loads] *)

Module Json.

(** The Python value of a JSON document.  [JNull] is Python's [None].
    A number written without fraction and exponent is an [int]; any other
    number is a [float], kept as the decimal [m * 10^e] that was written:
    of its rounding to a double the code can only tell whether it gives
    zero. *)
#[warnings="-register-all"] Inductive json :=
| JNull
| JBool (b : bool)
| JInt (z : Z)
| JFloat (m e : Z)
| JNaN
| JInf (neg : bool)
| JStr (s : str)
| JArr (l : list json)
| JObj (d : list (str * json)).

Definition dict := list (str * json).

(** [d.get(k)], [None] when absent *)
Fixpoint dict_get (d : dict) (k : str) : option json :=
  match d with
  | [] => None
  | (k', v) :: d' => if PyStr.eqb k k' then Some v else dict_get d' k
  end.

(** [k in d] *)
Definition dict_has (d : dict) (k : str) : bool :=
  match dict_get d k with Some _ => true | None => false end.

(** [d[k] = v]: an existing key keeps its place, a new key goes last. *)
Fixpoint dict_set (d : dict) (k : str) (v : json) : dict :=
  match d with
  | [] => [(k, v)]
  | (k', v') :: d' =>
      if PyStr.eqb k k' then (k', v) :: d' else (k', v') :: dict_set d' k v
  end.

(** The decimal [m * 10^e] is read as the float zero when it does not
    exceed half of the smallest positive double, [2^-1075]. *)
Definition reads_as_zero (m e : Z) : bool :=
  (Z.abs m * 2 ^ 1075 <=? 10 ^ (- e))%Z.

(** Python truthiness, as tested by [if not result]. *)
Definition truthy (v : json) : bool :=
  match v with
  | JNull => false
  | JBool b => b
  | JInt z => negb (z =? 0)%Z
  | JFloat m e => negb (reads_as_zero m e)
  | JNaN | JInf _ => true
  | JStr s => match s with [] => false | _ => true end
  | JArr l => match l with [] => false | _ => true end
  | JObj d => match d with [] => false | _ => true end
  end.

(** ** Lexer

    As the scanner of the [json] module does: digits and literals are
    ASCII, white space is one of four characters, a string holds no raw
    control character, and a [\uXXXX] escape may be one half of a
    surrogate pair. *)

Inductive token :=
| TLBrace | TRBrace | TLBracket | TRBracket | TColon | TComma
| TScalar (v : json).

Definition is_ws (c : char) : bool :=
  let n := PyStr.code c in ((n =? 32) || (n =? 9) || (n =? 10) || (n =? 13))%N.

Definition is_digit (c : char) : bool :=
  let n := PyStr.code c in ((48 <=? n) && (n <=? 57))%N.

Definition is_letter (c : char) : bool :=
  let n := PyStr.code c in
  ((65 <=? n) && (n <=? 90) || (97 <=? n) && (n <=? 122))%N.

(** Characters of numbers and of the literals [null], [true], [false],
    [NaN], [Infinity], [-Infinity]. *)
Definition is_atom_char (c : char) : bool :=
  is_digit c || is_letter c
  || PyStr.chr_eqb c "+" || PyStr.chr_eqb c "-" || PyStr.chr_eqb c ".".

Definition digit_val (c : char) : Z := Z.of_N (PyStr.code c) - 48.

Definition digits_val (s : str) : Z :=
  fold_left (fun acc c => 10 * acc + digit_val c)%Z s 0%Z.

Fixpoint span (p : char -> bool) (s : str) : str * str :=
  match s with
  | [] => ([], [])
  | c :: s' =>
      if p c then let (a, b) := span p s' in (c :: a, b) else ([], s)
  end.

(** The whole of [s] as a JSON number: an optional minus, an integer part
    without leading zero, an optional fraction, an optional exponent. *)
Definition number (s : str) : option json :=
  let (neg, s1) :=
    match s with
    | c :: s' => if PyStr.chr_eqb c "-" then (true, s') else (false, s)
    | [] => (false, s)
    end in
  let sign z := if neg then (- z)%Z else z in
  let (ip, s2) := span is_digit s1 in
  let ip_ok :=
    match ip with
    | [] => false
    | c :: rest =>
        match rest with [] => true | _ => negb (PyStr.chr_eqb c "0") end
    end in
  if negb ip_ok then None else
  let frac :=
    match s2 with
    | c :: s' =>
        if PyStr.chr_eqb c "." then
          let (fp, s3) := span is_digit s' in
          match fp with [] => None | _ => Some (Some fp, s3) end
        else Some (None, s2)
    | [] => Some (None, s2)
    end in
  match frac with
  | None => None
  | Some (fp, s3) =>
      let expo :=
        match s3 with
        | [] => Some None
        | c :: s' =>
            if PyStr.chr_eqb c "e" || PyStr.chr_eqb c "E" then
              let (eneg, s4) :=
                match s' with
                | d :: s'' =>
                    if PyStr.chr_eqb d "-" then (true, s'')
                    else if PyStr.chr_eqb d "+" then (false, s'')
                    else (false, s')
                | [] => (false, s')
                end in
              let (ep, s5) := span is_digit s4 in
              match ep, s5 with
              | _ :: _, [] =>
                  Some (Some (if eneg then - digits_val ep
                              else digits_val ep)%Z)
              | _, _ => None
              end
            else None
        end in
      match expo with
      | None => None
      | Some ex =>
          match fp, ex with
          | None, None => Some (JInt (sign (digits_val ip)))
          | _, _ =>
              let fd := match fp with Some f => f | None => [] end in
              let e := match ex with Some e => e | None => 0%Z end in
              Some (JFloat (sign (digits_val (ip ++ fd)))
                           (e - Z.of_nat (length fd)))
          end
      end
  end.

Definition atom (s : str) : option json :=
  if PyStr.eqb s "null" then Some JNull
  else if PyStr.eqb s "true" then Some (JBool true)
  else if PyStr.eqb s "false" then Some (JBool false)
  else if PyStr.eqb s "NaN" then Some JNaN
  else if PyStr.eqb s "Infinity" then Some (JInf false)
  else if PyStr.eqb s "-Infinity" then Some (JInf true)
  else number s.

Definition unescape (c : char) : option char :=
  if PyStr.chr_eqb c PyStr.dq then Some PyStr.dq
  else if PyStr.chr_eqb c "\" then Some "\"%cp
  else if PyStr.chr_eqb c "/" then Some "/"%cp
  else if PyStr.chr_eqb c "b" then Some 8%N
  else if PyStr.chr_eqb c "f" then Some 12%N
  else if PyStr.chr_eqb c "n" then Some 10%N
  else if PyStr.chr_eqb c "r" then Some 13%N
  else if PyStr.chr_eqb c "t" then Some 9%N
  else None.

Definition hex_val (c : char) : option N :=
  let n := PyStr.code c in
  if is_digit c then Some (n - 48)%N
  else if ((97 <=? n) && (n <=? 102))%N then Some (n - 87)%N
  else if ((65 <=? n) && (n <=? 70))%N then Some (n - 55)%N
  else None.

(** Where the lexer stands: between tokens, inside a number or literal,
    inside a string, after a backslash, inside a [\uXXXX] escape with [k]
    digits to go; and, when such an escape gave the high surrogate [h]:
    just after it, after the backslash that follows it, inside the
    [\uXXXX] escape that follows it.  Accumulators are reversed. *)
Inductive lstate :=
| LStart
| LAtom (acc : str)
| LStr (acc : str)
| LEsc (acc : str)
| LUni (acc : str) (k : nat) (v : N)
| LHigh (acc : str) (h : N)
| LHighEsc (acc : str) (h : N)
| LUniLow (acc : str) (h : N) (k : nat) (v : N).

Definition is_high_surrogate (v : N) : bool :=
  ((55296 <=? v) && (v <=? 56319))%N.

Definition is_low_surrogate (v : N) : bool :=
  ((56320 <=? v) && (v <=? 57343))%N.

(** [0x10000 + (((h - 0xd800) << 10) | (l - 0xdc00))] *)
Definition join_surrogates (h l : N) : N :=
  (65536 + N.lor (N.shiftl (h - 55296) 10) (l - 56320))%N.

(** The state after a [\uXXXX] escape of value [v]: a high surrogate waits
    for what follows. *)
Definition after_escape (acc : str) (v : N) : lstate :=
  if is_high_surrogate v then LHigh acc v else LStr (v :: acc).

(** A character met between tokens: the tokens it completes and the state
    it leads to. *)
Definition start_char (c : char) : option (list token * lstate) :=
  if is_ws c then Some ([], LStart)
  else if PyStr.chr_eqb c "{" then Some ([TLBrace], LStart)
  else if PyStr.chr_eqb c "}" then Some ([TRBrace], LStart)
  else if PyStr.chr_eqb c "[" then Some ([TLBracket], LStart)
  else if PyStr.chr_eqb c "]" then Some ([TRBracket], LStart)
  else if PyStr.chr_eqb c ":" then Some ([TColon], LStart)
  else if PyStr.chr_eqb c "," then Some ([TComma], LStart)
  else if PyStr.chr_eqb c PyStr.dq then Some ([], LStr [])
  else if is_atom_char c then Some ([], LAtom [c])
  else None.

(** Inside a string, in strict mode: no raw control characters. *)
Definition string_char (acc : str) (c : char) : option (list token * lstate) :=
  if PyStr.chr_eqb c PyStr.dq then Some ([TScalar (JStr (rev acc))], LStart)
  else if PyStr.chr_eqb c "\" then Some ([], LEsc acc)
  else if (PyStr.code c <? 32)%N then None
  else Some ([], LStr (c :: acc)).

(** After a backslash. *)
Definition escape_char (acc : str) (c : char) : option (list token * lstate) :=
  if PyStr.chr_eqb c "u" then Some ([], LUni acc 4 0%N)
  else
    match unescape c with
    | Some x => Some ([], LStr (x :: acc))
    | None => None
    end.

(** One character. *)
Definition lstep (st : lstate) (c : char) : option (list token * lstate) :=
  match st with
  | LStart => start_char c
  | LAtom acc =>
      if is_atom_char c then Some ([], LAtom (c :: acc))
      else
        match atom (rev acc), start_char c with
        | Some v, Some (ts, st') => Some (TScalar v :: ts, st')
        | _, _ => None
        end
  | LStr acc => string_char acc c
  | LEsc acc => escape_char acc c
  | LUni acc k v =>
      match hex_val c, k with
      | Some h, 1%nat => Some ([], after_escape acc (16 * v + h)%N)
      | Some h, S k' => Some ([], LUni acc k' (16 * v + h)%N)
      | _, _ => None
      end
  | LHigh acc h =>
      if PyStr.chr_eqb c "\" then Some ([], LHighEsc acc h)
      else string_char (h :: acc) c
  | LHighEsc acc h =>
      if PyStr.chr_eqb c "u" then Some ([], LUniLow acc h 4 0%N)
      else escape_char (h :: acc) c
  | LUniLow acc h k v =>
      match hex_val c, k with
      | Some d, 1%nat =>
          let v' := (16 * v + d)%N in
          if is_low_surrogate v'
          then Some ([], LStr (join_surrogates h v' :: acc))
          else Some ([], after_escape (h :: acc) v')
      | Some d, S k' => Some ([], LUniLow acc h k' (16 * v + d)%N)
      | _, _ => None
      end
  end.

(** The end of the text. *)
Definition lfinish (st : lstate) : option (list token) :=
  match st with
  | LStart => Some []
  | LAtom acc =>
      match atom (rev acc) with
      | Some v => Some [TScalar v]
      | None => None
      end
  | _ => None
  end.

Fixpoint lex (st : lstate) (s : str) : option (list token) :=
  match s with
  | [] => lfinish st
  | c :: s' =>
      match lstep st c with
      | Some (ts, st') =>
          match lex st' s' with
          | Some r => Some (ts ++ r)
          | None => None
          end
      | None => None
      end
  end.

(** ** Parser: one pass over the tokens with a stack of open containers *)

Inductive frame :=
| FArr (acc : list json)           (* inside [ ... : elements so far, reversed *)
| FObj (d : dict)                  (* inside { ... : members so far *)
| FKey (d : dict) (k : str).       (* inside { ... k : value awaited *)

Inductive pmode :=
| PValue (end_ok : bool)   (* a value; [end_ok]: or the ] of an empty array *)
| PKey (end_ok : bool)     (* a key; [end_ok]: or the } of an empty object *)
| PColon
| PSep                     (* a comma or the closing bracket *)
| PDone (v : json).

Definition push_value (v : json) (st : list frame)
  : option (list frame * pmode) :=
  match st with
  | [] => Some ([], PDone v)
  | FArr acc :: st' => Some (FArr (v :: acc) :: st', PSep)
  | FKey d k :: st' => Some (FObj (dict_set d k v) :: st', PSep)
  | FObj _ :: _ => None
  end.

Definition close_array (st : list frame) : option (list frame * pmode) :=
  match st with
  | FArr acc :: st' => push_value (JArr (rev acc)) st'
  | _ => None
  end.

Definition close_object (st : list frame) : option (list frame * pmode) :=
  match st with
  | FObj d :: st' => push_value (JObj d) st'
  | _ => None
  end.

Definition pstep (st : list frame) (m : pmode) (t : token)
  : option (list frame * pmode) :=
  match m, t with
  | PValue _, TScalar v => push_value v st
  | PValue _, TLBracket => Some (FArr [] :: st, PValue true)
  | PValue _, TLBrace => Some (FObj [] :: st, PKey true)
  | PValue true, TRBracket => close_array st
  | PKey _, TScalar (JStr k) =>
      match st with
      | FObj d :: st' => Some (FKey d k :: st', PColon)
      | _ => None
      end
  | PKey true, TRBrace => close_object st
  | PColon, TColon => Some (st, PValue false)
  | PSep, TComma =>
      match st with
      | FArr _ :: _ => Some (st, PValue false)
      | FObj _ :: _ => Some (st, PKey false)
      | _ => None
      end
  | PSep, TRBracket => close_array st
  | PSep, TRBrace => close_object st
  | _, _ => None
  end.

Fixpoint prun (st : list frame) (m : pmode) (ts : list token)
  : option json :=
  match ts with
  | [] => match m with PDone v => Some v | _ => None end
  | t :: ts' =>
      match pstep st m t with
      | Some (st', m') => prun st' m' ts'
      | None => None
      end
  end.

(** The value that the JSON grammar gives the text [s], whatever its
    size; [None] when [s] is no document. *)
Definition parse (s : str) : option json :=
  match lex LStart s with
  | Some ts => prun [] (PValue false) ts
  | None => None
  end.

(** ** The decoder and the limits of the interpreter

    [json.loads] reads the text from left to right and stops at the first
    of: a place where the text departs from the grammar
    ([json.JSONDecodeError]); an integer literal of more digits than
    [int()] converts ([ValueError]; [sys.get_int_max_str_digits()], 4300
    unless it was changed, 0 for no limit); an array or object opened
    inside more open ones than the recursion depth that is left allows
    ([RecursionError]; what is left depends on the recursion limit and on
    the call stack at the call).  One effect of a stack that is nearly used
    up is not part of this: when fewer than three levels are left, CPython
    cannot raise the [JSONDecodeError] for a mistake that its scanner
    finds either, and raises [RecursionError] in its place. *)

Record limits := mkLimits {
  max_str_digits : N;    (* digits that [int()] converts; 0: any number *)
  max_nesting : nat      (* arrays and objects that can be open at once *)
}.

Inductive refusal :=
| TooManyDigits (limit digits : N)
| TooDeep (in_object : bool).

Inductive decoded :=
| Value (v : json)
| Invalid                      (* json.JSONDecodeError *)
| Refused (r : refusal).

(** A fraction follows: a point and a digit. *)
Definition starts_fraction (s : str) : bool :=
  match s with
  | c :: d :: _ => PyStr.chr_eqb c "." && is_digit d
  | _ => false
  end.

(** An exponent follows: [e] or [E], a sign or none, and a digit. *)
Definition starts_exponent (s : str) : bool :=
  match s with
  | c :: s' =>
      (PyStr.chr_eqb c "e" || PyStr.chr_eqb c "E")
      && match s' with
         | d :: s'' =>
             if PyStr.chr_eqb d "+" || PyStr.chr_eqb d "-" then
               match s'' with
               | d' :: _ => is_digit d'
               | [] => false
               end
             else is_digit d
         | [] => false
         end
  | [] => false
  end.

(** The number of digits of the integer that the scanner converts with
    [int()] when a value is awaited and the text goes on with [a]: it
    takes an optional minus and the digits that follow (only the [0] when
    that comes first), and the number is an integer unless a fraction or
    an exponent follows.  [None] when [a] does not start with a number or
    starts with a float. *)
Definition int_digits (a : str) : option N :=
  let a1 :=
    match a with
    | c :: a' => if PyStr.chr_eqb c "-" then a' else a
    | [] => a
    end in
  let (ip, rest) := span is_digit a1 in
  match ip with
  | [] => None
  | c :: ip' =>
      let (tok, after) :=
        if PyStr.chr_eqb c "0" then ([c], ip' ++ rest) else (ip, rest) in
      if starts_fraction after || starts_exponent after then None
      else Some (N.of_nat (length tok))
  end.

Definition value_awaited (m : pmode) : bool :=
  match m with
  | PValue _ => true
  | _ => false
  end.

(** The conversion of the number at the start of the atom [a], when a
    value is awaited there. *)
Definition atom_refused (L : limits) (m : pmode) (a : str) : option refusal :=
  if value_awaited m then
    match int_digits a with
    | Some n =>
        if ((0 <? max_str_digits L) && (max_str_digits L <? n))%N
        then Some (TooManyDigits (max_str_digits L) n)
        else None
    | None => None
    end
  else None.

(** Entering the array or object that the token [t] opens, with the
    containers of [st] open. *)
Definition open_refused (L : limits) (st : list frame) (m : pmode) (t : token)
  : option refusal :=
  if value_awaited m && (max_nesting L <=? length st)%nat then
    match t with
    | TLBracket => Some (TooDeep false)
    | TLBrace => Some (TooDeep true)
    | _ => None
    end
  else None.

(** How far the decoder has come. *)
Inductive progress :=
| Going (st : list frame) (m : pmode)
| Stuck
| Stopped (r : refusal).

(** The tokens that one character completed go to the parser. *)
Fixpoint feed (L : limits) (st : list frame) (m : pmode) (ts : list token)
  : progress :=
  match ts with
  | [] => Going st m
  | t :: ts' =>
      match open_refused L st m t with
      | Some r => Stopped r
      | None =>
          match pstep st m t with
          | Some (st', m') => feed L st' m' ts'
          | None => Stuck
          end
      end
  end.

(** The atom that ends before the next character [c] ([None]: before the
    end of the text) is converted first. *)
Definition ending_atom (L : limits) (ls : lstate) (m : pmode) (c : option char)
  : option refusal :=
  match ls with
  | LAtom acc =>
      if match c with Some x => is_atom_char x | None => false end then None
      else atom_refused L m (rev acc)
  | _ => None
  end.

(** The decoder, one character at a time: lexer state [ls], open
    containers [st], parser mode [m]. *)
Fixpoint scan (L : limits) (ls : lstate) (st : list frame) (m : pmode)
  (s : str) : decoded :=
  match s with
  | [] =>
      match ending_atom L ls m None with
      | Some r => Refused r
      | None =>
          match lfinish ls with
          | Some ts =>
              match feed L st m ts with
              | Going _ (PDone v) => Value v
              | Going _ _ | Stuck => Invalid
              | Stopped r => Refused r
              end
          | None => Invalid
          end
      end
  | c :: s' =>
      match ending_atom L ls m (Some c) with
      | Some r => Refused r
      | None =>
          match lstep ls c with
          | Some (ts, ls') =>
              match feed L st m ts with
              | Going st' m' => scan L ls' st' m' s'
              | Stuck => Invalid
              | Stopped r => Refused r
              end
          | None => Invalid
          end
      end
  end.

(** [json.loads(s)] in an interpreter with the limits [L]. *)
Definition loads (L : limits) (s : str) : decoded :=
  scan L LStart [] (PValue false) s.

End Json.
Export Json.

(* ================================================================== *)
(** * The regular expressions of the two rescuers, and [re.search] *)

Module Re.

(** A set of characters: [.] under [re.DOTALL], one character, or [[^c]]. *)
Inductive cset :=
| CAny
| CIs (c : char)
| CNot (c : char).

Definition cset_mem (k : cset) (x : char) : bool :=
  match k with
  | CAny => true
  | CIs c => PyStr.chr_eqb x c
  | CNot c => negb (PyStr.chr_eqb x c)
  end.

(** The patterns used are sequences of single characters, greedy stars
    [k*] and lazy stars [k*?] over a character set. *)
Inductive item :=
| One (k : cset)
| Star (k : cset)
| StarLazy (k : cset).

Definition regex := list item.

Definition literal (s : str) : regex := map (fun c => One (CIs c)) s.

(** Backtracking match of [r] at the start of [s]: the length of the match
    found first.  A greedy star takes a character whenever the rest can
    still match afterwards; a lazy star tries the rest of the pattern first. *)
Fixpoint match_here (r : regex) (s : str) {struct r} : option nat :=
  match r with
  | [] => Some 0%nat
  | One k :: r' =>
      match s with
      | x :: s' => if cset_mem k x then option_map S (match_here r' s') else None
      | [] => None
      end
  | Star k :: r' =>
      (fix star (s : str) : option nat :=
         match s with
         | x :: s' =>
             if cset_mem k x then
               match star s' with
               | Some n => Some (S n)
               | None => match_here r' s
               end
             else match_here r' s
         | [] => match_here r' s
         end) s
  | StarLazy k :: r' =>
      (fix star (s : str) : option nat :=
         match match_here r' s with
         | Some n => Some n
         | None =>
             match s with
             | x :: s' => if cset_mem k x then option_map S (star s') else None
             | [] => None
             end
         end) s
  end.

(** [re.search(r, s)]: the match at the leftmost position that has one;
    the result is [m.group(0)]. *)
Fixpoint search (r : regex) (s : str) : option str :=
  match match_here r s with
  | Some n => Some (firstn n s)
  | None =>
      match s with
      | [] => None
      | _ :: s' => search r s'
      end
  end.

(** [r'\{[^}]*"summary"[^}]*"sentiment"[^}]*\}'] *)
Definition narrow : regex :=
  One (CIs "{") :: Star (CNot "}")
  :: literal (PyStr.q "'summary'") ++ Star (CNot "}")
  :: literal (PyStr.q "'sentiment'") ++ [Star (CNot "}"); One (CIs "}")].

(** [r'\{.*?\}'] with [re.DOTALL] *)
Definition braces_lazy : regex := [One (CIs "{"); StarLazy CAny; One (CIs "}")].

(** [r"\{.*\}"] with [re.DOTALL] *)
Definition braces_greedy : regex := [One (CIs "{"); Star CAny; One (CIs "}")].

End Re.

(* ================================================================== *)
(** * Exceptions, output, the outside world *)

Module Py.

Inductive exn :=
| KeyError
| IndexError
| TypeError
| AttributeError
| JSONDecodeError                 (* json.JSONDecodeError *)
| ValueError (msg : str)
| Exception_ (msg : str)          (* Exception(msg) *)
| ConnectionError_                (* requests.exceptions.ConnectionError *)
| Timeout_                        (* requests.exceptions.Timeout *)
| HTTPError (status : Z)          (* raised by raise_for_status() *)
| RequestsJSONDecodeError         (* requests.exceptions.JSONDecodeError, raised
                                     by response.json(): a RequestException
                                     and a json.JSONDecodeError *)
| NotAMember (v : json)           (* ValueError: v is not a valid SentimentType *)
| OSError_
| OverflowError (msg : str)
| UnicodeEncodeError
| IntTooLong (limit digits : N)   (* ValueError raised by int(): Exceeds the
                                     limit (limit digits) for integer string
                                     conversion: value has digits digits *)
| RecursionError (in_object : bool)
                                  (* maximum recursion depth exceeded while
                                     decoding a JSON object, or array *)
| BadRequest.                     (* werkzeug, raised by request.get_json() *)

(** [isinstance(e, requests.exceptions.RequestException)] *)
Definition is_request_exception (e : exn) : bool :=
  match e with
  | ConnectionError_ | Timeout_ | HTTPError _ | RequestsJSONDecodeError => true
  | _ => false
  end.

(** [isinstance(e, json.JSONDecodeError)] *)
Definition is_json_decode_error (e : exn) : bool :=
  match e with
  | JSONDecodeError | RequestsJSONDecodeError => true
  | _ => false
  end.

(** All of the above derive from [Exception]. *)
Definition is_exception (e : exn) : bool := true.

(** What the decoder raises when it hits a limit: neither is a
    [json.JSONDecodeError], nor a [RequestException]. *)
Definition refusal_exn (r : refusal) : exn :=
  match r with
  | TooManyDigits limit digits => IntTooLong limit digits
  | TooDeep in_object => RecursionError in_object
  end.

(** A formatted string, piece by piece: literal text, or a value or an
    exception put through [str()] whose text Python decides. *)
Inductive piece :=
| Lit (s : str)
| Fmt (v : json)
| FmtExn (e : exn).

Definition message := list piece.

(** [f"{v}"]: a [str] is inserted as it is. *)
Definition fmt (v : json) : piece :=
  match v with
  | JStr s => Lit s
  | _ => Fmt v
  end.

(** [str(e)]: the message of an exception built from one string is that
    string. *)
Definition str_exn (e : exn) : message :=
  match e with
  | ValueError m | Exception_ m | OverflowError m => [Lit m]
  | _ => [FmtExn e]
  end.

Inductive level := INFO | WARNING | ERROR.

(** The body sent with a post. *)
Record payload := mkPayload {
  p_model : str;
  p_messages : list (str * str);        (* role, content *)
  p_temperature : Q;
  p_max_tokens : Z;
  p_json_object : bool                  (* response_format json_object *)
}.

Inductive event :=
| Print (m : message)
| Log (l : level) (m : message)
| Post (url : str) (body : payload) (timeout : option Z)
| Sleep (seconds : Q).

(** What has happened so far: the number of posts made, the CSV file
    ([None]: it does not exist; otherwise its rows), the output. *)
Record world := mkWorld {
  posts : nat;
  csv : option (list (list json));
  out : list event
}.

Record response := mkResponse {
  status_code : Z;
  text : str
}.

Inductive post_outcome :=
| PostRaises (e : exn)
| PostReturns (r : response).

(** What the surroundings decide. [requests_post n] is what the post number
    [n] (from 0) does; [time_sleep_raises d] is what [time.sleep] raises
    when it refuses the delay [d] (a negative one, one too long for the
    clock of the platform); [stdout_raises m] is what writing the text [m]
    to standard output raises when the stream refuses it (an encoding
    error for a text that its encoding does not cover, an [OSError] or a
    [ValueError] for a stream that is closed).  [int_max_str_digits] is
    [sys.get_int_max_str_digits()]; [body_nesting] and [text_nesting] are
    the numbers of arrays and objects that the decoder can have open at
    once before the recursion depth runs out, where [response.json()]
    calls it and where the rescuer calls [json.loads]. *)
Record env := mkEnv {
  GROQ_API_KEY : option str;
  requests_post : nat -> post_outcome;
  now_isoformat : str;
  open_w_raises : option exn;     (* creating the CSV file fails *)
  open_a_raises : option exn;     (* appending to the CSV file fails *)
  time_sleep_raises : Q -> option exn;
  stdout_raises : message -> option exn;
  int_max_str_digits : N;
  body_nesting : nat;
  text_nesting : nat
}.

(** The limits of the decoder in [response.json()] and in [json.loads]. *)
Definition body_limits (E : env) : limits :=
  mkLimits (int_max_str_digits E) (body_nesting E).

Definition text_limits (E : env) : limits :=
  mkLimits (int_max_str_digits E) (text_nesting E).

(** [time.sleep] refusing the negative delays only. *)
Definition refuses_negative (seconds : Q) : option exn :=
  if Qle_bool 0 seconds then None
  else Some (ValueError "sleep length must be non-negative").

Inductive outcome (A : Type) :=
| Ret (a : A)
| Raise (e : exn).
Arguments Ret {A} a.
Arguments Raise {A} e.

Definition M (A : Type) := world -> outcome A * world.

Definition ret {A} (a : A) : M A := fun w => (Ret a, w).

Definition raise {A} (e : exn) : M A := fun w => (Raise e, w).

Definition bind {A B} (m : M A) (k : A -> M B) : M B :=
  fun w =>
    match m w with
    | (Ret a, w') => k a w'
    | (Raise e, w') => (Raise e, w')
    end.

(** [try: m  except <catches> as e: h e] *)
Definition try_except {A} (m : M A) (catches : exn -> bool) (h : exn -> M A)
  : M A :=
  fun w =>
    match m w with
    | (Ret a, w') => (Ret a, w')
    | (Raise e, w') => if catches e then h e w' else (Raise e, w')
    end.

(** The world after some more output. *)
Definition say (w : world) (es : list event) : world :=
  mkWorld (posts w) (csv w) (out w ++ es).

Definition emit (e : event) : M unit := fun w => (Ret tt, say w [e]).


(** [print(m)] *)
Definition print (E : env) (m : message) : M unit :=
  match stdout_raises E m with
  | Some e => raise e
  | None => emit (Print m)
  end.

Definition log (l : level) (m : message) : M unit := emit (Log l m).

(** [time.sleep(seconds)] *)
Definition sleep (E : env) (seconds : Q) : M unit :=
  match time_sleep_raises E seconds with
  | Some e => raise e
  | None => emit (Sleep seconds)
  end.

(** [requests.post(url, json=body, timeout=timeout)] *)
Definition post (E : env) (url : str) (body : payload) (timeout : option Z)
  : M response :=
  fun w =>
    let w' := mkWorld (S (posts w)) (csv w) (out w ++ [Post url body timeout]) in
    match requests_post E (posts w) with
    | PostRaises e => (Raise e, w')
    | PostReturns r => (Ret r, w')
    end.

(** [response.ok] *)
Definition response_ok (r : response) : bool :=
  negb ((400 <=? status_code r) && (status_code r <? 600))%Z.

(** [response.raise_for_status()] *)
Definition raise_for_status (r : response) : M unit :=
  if response_ok r then ret tt else raise (HTTPError (status_code r)).

(** [response.json()]: of what the decoder raises, only the
    [JSONDecodeError] is turned into that of [requests]. *)
Definition response_json (E : env) (r : response) : M json :=
  match loads (body_limits E) (text r) with
  | Value v => ret v
  | Invalid => raise RequestsJSONDecodeError
  | Refused x => raise (refusal_exn x)
  end.

(** [json.loads(s)] *)
Definition json_loads (E : env) (s : str) : M json :=
  match loads (text_limits E) s with
  | Value v => ret v
  | Invalid => raise JSONDecodeError
  | Refused x => raise (refusal_exn x)
  end.

(** [v[k]] for a string [k] *)
Definition getitem (v : json) (k : str) : M json :=
  match v with
  | JObj d => match dict_get d k with Some x => ret x | None => raise KeyError end
  | _ => raise TypeError
  end.

(** [v[0]] *)
Definition getitem0 (v : json) : M json :=
  match v with
  | JArr (x :: _) => ret x
  | JArr [] => raise IndexError
  | JStr (c :: _) => ret (JStr [c])
  | JStr [] => raise IndexError
  | JObj _ => raise KeyError
  | _ => raise TypeError
  end.

(** [v[k] = x]; the updated object is returned. *)
Definition setitem (v : json) (k : str) (x : json) : M json :=
  match v with
  | JObj d => ret (JObj (dict_set d k x))
  | _ => raise TypeError
  end.

(** [v.get(k, default)] *)
Definition method_get (v : json) (k : str) (default : json) : M json :=
  match v with
  | JObj d => ret (match dict_get d k with Some x => x | None => default end)
  | _ => raise AttributeError
  end.

(** [v.strip()] *)
Definition method_strip (v : json) : M str :=
  match v with
  | JStr s => ret (PyStr.strip s)
  | _ => raise AttributeError
  end.

(** [v.lower()] *)
Definition method_lower (v : json) : M str :=
  match v with
  | JStr s => ret (PyStr.lower s)
  | _ => raise AttributeError
  end.

(** [k in v] for a string [k] *)
Definition contains (v : json) (k : str) : M bool :=
  match v with
  | JObj d => ret (dict_has d k)
  | JArr l =>
      ret (existsb (fun x => match x with JStr s => PyStr.eqb s k | _ => false end) l)
  | JStr s => ret (PyStr.contains s k)
  | _ => raise TypeError
  end.

(** [v in l] for a list [l] of strings *)
Definition in_strs (v : json) (l : list str) : bool :=
  match v with
  | JStr s => existsb (PyStr.eqb s) l
  | _ => false
  end.

(** [range(n)] *)
Definition range (n : Z) : list Z := map Z.of_nat (seq 0 (Z.to_nat n)).

End Py.
Export Py.

Declare Scope py_scope.
Delimit Scope py_scope with py.
Notation "x <- m ;; k" := (bind m (fun x => k))
  (at level 61, m at next level, right associativity) : py_scope.
Notation "m ;; k" := (bind m (fun _ => k))
  (at level 61, right associativity) : py_scope.
Local Open Scope py_scope.

(* ================================================================== *)
(** * [src/app.py] *)

Module App.

Definition GROQ_API_URL : str := "https://api.groq.com/openai/v1/chat/completions".

(** [not GROQ_API_KEY] *)
Definition no_api_key (E : env) : bool :=
  match GROQ_API_KEY E with
  | None | Some [] => true
  | Some _ => false
  end.

Definition build_payload (transcript : str) : payload :=
  mkPayload "llama-3.1-8b-instant"
    [("system",
      "You are a helpful assistant that analyzes transcripts. Always respond with valid JSON containing exactly two fields: 'summary' and 'sentiment'.");
     ("user",
      "Analyze this transcript and return ONLY valid JSON with summary and sentiment fields:

Transcript: " ++ transcript ++ PyStr.q "

Required JSON format:
{'summary': 'your summary here', 'sentiment': 'positive/negative/neutral'}")]
    (1 # 10) 1024 false.

(** Method 1: direct JSON parsing. *)
Definition method1 (E : env) (content : str) (result : json) : M json :=
  try_except
    (r <- json_loads E content ;;
     print E [Lit "Direct JSON parsing successful"] ;;
     ret r)
    is_json_decode_error (fun _ => ret result).

(** The text parsed by method 2; the second test repeats the first. *)
Definition clean_content (content : str) : str :=
  if PyStr.startswith content "```" then
    PyStr.strip (PyStr.slice content 7 (-3))
  else if PyStr.startswith content "```" then
    PyStr.strip (PyStr.slice content 3 (-3))
  else content.

(** Method 2: remove markdown if present. *)
Definition method2 (E : env) (content : str) (result : json) : M json :=
  if truthy result then ret result else
  try_except
    (r <- json_loads E (clean_content content) ;;
     print E [Lit "Markdown removal parsing successful"] ;;
     ret r)
    is_json_decode_error (fun _ => ret result).

(** The text handed to [json.loads] by method 3, if any. *)
Definition regex_match (content : str) : option str :=
  match Re.search Re.narrow content with
  | Some m => Some m
  | None => Re.search Re.braces_lazy content
  end.

(** Method 3: extract JSON using regex. *)
Definition method3 (E : env) (content : str) (result : json) : M json :=
  if truthy result then ret result else
  try_except
    (match regex_match content with
     | Some json_str =>
         r <- json_loads E json_str ;;
         print E [Lit "Regex extraction parsing successful"] ;;
         ret r
     | None => ret result
     end)
    is_json_decode_error (fun _ => ret result).

Definition valid_sentiments : list str := ["positive"; "negative"; "neutral"].

(** Lines 63-99 of [analyze_with_groq]: the three methods in turn, from
    [result = None]. *)
Definition cascade (E : env) (content : str) : M json :=
  result <- method1 E content JNull ;;
  result <- method2 E content result ;;
  method3 E content result.

(** Lines 101-117 of [analyze_with_groq]: what is returned for [result]. *)
Definition validate (E : env) (content : str) (result : json)
  : M (option json * option message) :=
  if negb (truthy result) then
    ret (None, Some [Lit "Could not parse JSON from response: "; Lit content])
  else
  has_summary <- contains result "summary" ;;
  missing <- (if negb has_summary then ret true
              else has_sentiment <- contains result "sentiment" ;;
                   ret (negb has_sentiment)) ;;
  if (missing : bool) then
    ret (None, Some [Lit "Missing required fields in response: "; fmt result])
  else
  s <- getitem result "sentiment" ;;
  l <- method_lower s ;;
  result <- (if negb (existsb (PyStr.eqb l) valid_sentiments) then
               print E [Lit "Invalid sentiment '"; fmt s;
                      Lit "', defaulting to neutral"] ;;
               setitem result "sentiment" (JStr "neutral")
             else ret result) ;;
  s <- getitem result "sentiment" ;;
  l <- method_lower s ;;
  result <- setitem result "sentiment" (JStr l) ;;
  print E [Lit "Analysis completed successfully: "; fmt result] ;;
  ret (Some result, None).

(** Lines 61-117 of [analyze_with_groq]: from the stripped reply [content]
    to the returned pair. *)
Definition rescue (E : env) (content : str) : M (option json * option message) :=
  print E [Lit "Raw Groq response: "; Lit content] ;;
  result <- cascade E content ;;
  validate E content result.

(** [response_data["choices"][0]["message"]["content"].strip()] *)
Definition reply_content (response_data : json) : M str :=
  a <- getitem response_data "choices" ;;
  b <- getitem0 a ;;
  c <- getitem b "message" ;;
  d <- getitem c "content" ;;
  method_strip d.

Definition analyze_with_groq (E : env) (transcript : str)
  : M (option json * option message) :=
  if no_api_key E then
    ret (None, Some [Lit "GROQ_API_KEY not found in environment variables. Please check your .env file."])
  else
  try_except
    (print E [Lit "Making Groq API request..."] ;;
     response <- post E GROQ_API_URL (build_payload transcript) (Some 30%Z) ;;
     if negb (response_ok response) then
       print E [Lit "API Error Response: "; Lit (text response)] ;;
       ret (None, Some [Lit "Groq API error ("; Fmt (JInt (status_code response));
                        Lit "): "; Lit (text response)])
     else
     response_data <- response_json E response ;;
     content <- reply_content response_data ;;
     rescue E content)
    is_exception
    (fun e => ret (None, Some (Lit "Unexpected error: " :: str_exn e))).

Definition csv_header : list json :=
  [JStr "timestamp"; JStr "transcript"; JStr "summary"; JStr "sentiment"].

(** [open(csv_filename, 'w')] and the header row. *)
Definition create_csv (E : env) : M unit :=
  fun w =>
    match open_w_raises E with
    | Some e => (Raise e, w)
    | None => (Ret tt, mkWorld (posts w) (Some [csv_header]) (out w))
    end.

(** A text that the UTF-8 codec encodes: one without surrogates. *)
Definition utf8_encodable (s : str) : bool :=
  forallb (fun c => negb (is_high_surrogate c || is_low_surrogate c)) s.

(** [csv.writer] writes a string as it is (quoted where needed) and the
    [str()] of any other value, which has no surrogate. *)
Definition row_encodable (row : list json) : bool :=
  forallb (fun v => match v with JStr s => utf8_encodable s | _ => true end)
          row.

(** [open(csv_filename, 'a', encoding='utf-8')] and one row; opening for
    append creates a missing file; a row that cannot be encoded is not
    written. *)
Definition append_row (E : env) (row : M (list json)) : M unit :=
  fun w =>
    match open_a_raises E with
    | Some e => (Raise e, w)
    | None =>
        let rows := match csv w with Some rows => rows | None => [] end in
        match row (mkWorld (posts w) (Some rows) (out w)) with
        | (Ret r, w') =>
            if row_encodable r
            then (Ret tt, mkWorld (posts w') (Some (rows ++ [r])) (out w'))
            else (Raise UnicodeEncodeError, w')
        | (Raise e, w') => (Raise e, w')
        end
    end.

Definition csv_exists : M bool :=
  fun w => (Ret (match csv w with Some _ => true | None => false end), w).

Definition append_to_csv (E : env) (transcript : str) (analysis_result : json)
  : M unit :=
  try_except
    (ex <- csv_exists ;;
     (if negb ex then
        create_csv E ;;
        print E [Lit "Created new CSV file: "; Lit "call_analysis.csv"]
      else ret tt) ;;
     append_row E
       (summary <- getitem analysis_result "summary" ;;
        sentiment <- getitem analysis_result "sentiment" ;;
        ret [JStr (now_isoformat E); JStr transcript; summary; sentiment]) ;;
     print E [Lit "Successfully saved to "; Lit "call_analysis.csv"])
    is_exception
    (fun e =>
       print E (Lit "Error writing to CSV: " :: str_exn e) ;;
       raise e).

(** The part of a Flask request the handler reads. [json_body] is what
    [request.get_json()] returns, [None] when it raises. *)
Record request := mkRequest {
  is_json : bool;
  json_body : option json;
  form : list (str * str)
}.

(** [request.form.get("transcript", "")] *)
Fixpoint form_get (f : list (str * str)) (k : str) (default : str) : str :=
  match f with
  | [] => default
  | (k', v) :: f' => if PyStr.eqb k k' then v else form_get f' k default
  end.

(** What [jsonify] is given: a value, or the [error] message. *)
Inductive body :=
| Jsonify (v : json)
| JsonifyError (m : message).

(** The [/analyze] route; the result is the body and the status. *)
Definition analyze (E : env) (req : request) : M (body * Z) :=
  try_except
    (data <- (if is_json req then
                match json_body req with
                | Some v => ret v
                | None => raise BadRequest
                end
              else ret (JObj [("transcript", JStr (form_get (form req) "transcript" ""))])) ;;
     t <- method_get data "transcript" (JStr "") ;;
     transcript <- method_strip t ;;
     match transcript with
     | [] => ret (JsonifyError [Lit "Transcript is required"], 400%Z)
     | _ =>
     if (PyStr.len transcript >? 10000)%Z then
       ret (JsonifyError [Lit "Transcript too long (max 10,000 characters)"], 400%Z)
     else
     print E [Lit "
Analyzing transcript ("; Fmt (JInt (PyStr.len transcript)); Lit " chars): ";
            Lit (PyStr.prefix transcript 100); Lit "..."] ;;
     r <- analyze_with_groq E transcript ;;
     match r with
     | (_, Some error) =>
         print E (Lit "Analysis failed: " :: error) ;;
         ret (JsonifyError error, 500%Z)
     | (result, None) =>
         let result := match result with Some v => v | None => JNull end in
         print E [Lit "Analysis successful: "; fmt result] ;;
         try_except (append_to_csv E transcript result) is_exception
           (fun csv_error => print E (Lit "CSV save failed: " :: str_exn csv_error)) ;;
         ret (Jsonify result, 200%Z)
     end
     end)
    is_exception
    (fun e =>
       let error_msg := Lit "Server error: " :: str_exn e in
       print E error_msg ;;
       ret (JsonifyError error_msg, 500%Z)).

End App.

(* ================================================================== *)
(** * [src/utils/groq_utils.py] *)

Module Utils.

Inductive SentimentType := POSITIVE | NEGATIVE | NEUTRAL.

Definition value (s : SentimentType) : str :=
  match s with
  | POSITIVE => "positive"
  | NEGATIVE => "negative"
  | NEUTRAL => "neutral"
  end.

(** [[s.value for s in SentimentType]] *)
Definition sentiment_values : list str := map value [POSITIVE; NEGATIVE; NEUTRAL].

(** [SentimentType(v)] *)
Definition SentimentType_of (v : json) : M SentimentType :=
  match v with
  | JStr s =>
      if PyStr.eqb s "positive" then ret POSITIVE
      else if PyStr.eqb s "negative" then ret NEGATIVE
      else if PyStr.eqb s "neutral" then ret NEUTRAL
      else raise (NotAMember v)
  | _ => raise (NotAMember v)
  end.

Record AnalysisResult := mkAnalysisResult {
  summary : json;
  sentiment : SentimentType;
  confidence_score : json;
  key_topics : json;
  word_count : json
}.

Record GroqConfig := mkGroqConfig {
  model : str;
  temperature : Q;
  max_tokens : Z;
  max_retries : Z;
  retry_delay : Q;
  timeout : Z
}.

Definition default_config : GroqConfig :=
  mkGroqConfig "llama-3.1-8b-instant" (1 # 10) 1024 3 1 30.

Record GroqTranscriptAnalyzer := mkAnalyzer {
  api_key : str;
  config : GroqConfig;
  api_url : str
}.

(** [GroqTranscriptAnalyzer(api_key, config)] *)
Definition __init__ (E : env) (key : option str) (cfg : option GroqConfig)
  : M GroqTranscriptAnalyzer :=
  let k := match key with
           | Some (c :: k') => Some (c :: k')
           | _ => GROQ_API_KEY E
           end in
  match k with
  | Some (c :: k') =>
      ret (mkAnalyzer (c :: k')
             (match cfg with Some c => c | None => default_config end)
             "https://api.groq.com/openai/v1/chat/completions")
  | _ =>
      raise (ValueError "GROQ_API_KEY must be provided or set in environment variables. Please check your .env file.")
  end.

(** [not s] for a string *)
Definition is_empty (s : str) : bool :=
  match s with [] => true | _ => false end.

Definition _validate_transcript (transcript : str) : M unit :=
  (if is_empty transcript || is_empty (PyStr.strip transcript) then
     raise (ValueError "Transcript cannot be empty")
   else ret tt) ;;
  if (PyStr.len transcript >? 50000)%Z then
    log WARNING [Lit "Transcript is very long, consider chunking"]
  else ret tt.

Definition _create_enhanced_prompt (transcript : str) : str :=
  "
        Analyze the following transcript and return ONLY a valid JSON object with the specified fields:
        
        Transcript: " ++ transcript ++ PyStr.q "
        
        Instructions:
        1. Provide a concise but comprehensive summary (2-3 sentences)
        2. Determine sentiment: positive, negative, or neutral
        3. Estimate confidence score (0.0-1.0) for sentiment analysis
        4. Extract 3-5 key topics or themes
        5. Count approximate word count
        
        Return format (MUST be valid JSON):
        {
            'summary': 'brief but comprehensive summary here',
            'sentiment': 'positive/negative/neutral',
            'confidence_score': 0.85,
            'key_topics': ['topic1', 'topic2', 'topic3'],
            'word_count': 150
        }
        ".

Definition build_payload (self : GroqTranscriptAnalyzer) (transcript : str)
  : payload :=
  mkPayload (model (config self))
    [("user", _create_enhanced_prompt transcript)]
    (temperature (config self)) (max_tokens (config self)) true.

(** One pass through the [try] body of the retry loop. *)
Definition attempt_request (self : GroqTranscriptAnalyzer) (E : env)
  (transcript : str) (attempt : Z) : M json :=
  log INFO [Lit "API request attempt "; Fmt (JInt (attempt + 1))] ;;
  response <- post E (api_url self) (build_payload self transcript)
                (Some (timeout (config self))) ;;
  raise_for_status response ;;
  response_json E response.

(** [retry_delay * (2 ** attempt)]: a float times an int, for which the
    int is first made a float; [2 ** 1024] is the first power of two too
    large for that.  Below, the product by a power of two is exact (when
    it exceeds the floats it is infinite, a delay that [time.sleep]
    refuses). *)
Definition backoff (self : GroqTranscriptAnalyzer) (attempt : Z) : M Q :=
  if (attempt <? 1024)%Z
  then ret (retry_delay (config self) * inject_Z (2 ^ attempt))
  else raise (OverflowError "int too large to convert to float").

(** The [for attempt in ...] loop over the attempts still to make; leaving
    the loop raises [Exception("Max retries exceeded")]. *)
Fixpoint retry_loop (self : GroqTranscriptAnalyzer) (E : env)
  (transcript : str) (attempts : list Z) : M json :=
  match attempts with
  | [] => raise (Exception_ "Max retries exceeded")
  | attempt :: rest =>
      try_except (attempt_request self E transcript attempt)
        is_request_exception
        (fun e =>
           log WARNING (Lit "API request failed (attempt "
                        :: Fmt (JInt (attempt + 1)) :: Lit "): " :: str_exn e) ;;
           if (attempt <? max_retries (config self) - 1)%Z then
             delay <- backoff self attempt ;;
             sleep E delay ;;
             retry_loop self E transcript rest
           else raise e)
  end.

Definition _make_api_request (self : GroqTranscriptAnalyzer) (E : env)
  (transcript : str) : M json :=
  retry_loop self E transcript (range (max_retries (config self))).

(** Handle potential markdown code blocks; the second test repeats the
    first. *)
Definition strip_code_block (content : str) : str :=
  if PyStr.startswith content "```" then
    PyStr.strip (PyStr.slice content 7 (-3))
  else if PyStr.startswith content "```" then
    PyStr.strip (PyStr.slice content 3 (-3))
  else content.

(** [for field in required_fields: if field not in result: raise ...] *)
Fixpoint require_fields (result : json) (fields : list str) : M unit :=
  match fields with
  | [] => ret tt
  | field :: rest =>
      present <- contains result field ;;
      if negb present then
        raise (ValueError ("Missing required field: " ++ field))
      else require_fields result rest
  end.

(** Lines 142-154: the primary parsing attempt and the rescue fallback. *)
Definition extract (E : env) (content : str) : M json :=
  try_except (json_loads E content) is_json_decode_error
    (fun _ =>
       log WARNING [Lit "Direct JSON parsing failed, trying extraction..."] ;;
       match Re.search Re.braces_greedy content with
       | Some m =>
           r <- json_loads E m ;;
           log INFO [Lit "Successfully extracted JSON from mixed content"] ;;
           ret r
       | None =>
           log ERROR [Lit "Raw content: "; Lit content] ;;
           raise (ValueError "Failed to parse JSON response from Groq")
       end).

(** Lines 156-167: required fields and the sentiment value. *)
Definition validate (result : json) : M json :=
  require_fields result ["summary"; "sentiment"] ;;
  s <- getitem result "sentiment" ;;
  if negb (in_strs s sentiment_values) then
    log WARNING [Lit "Invalid sentiment value: "; fmt s;
                 Lit ", defaulting to neutral"] ;;
    setitem result "sentiment" (JStr (value NEUTRAL))
  else ret result.

(** [_parse_response] from the stripped reply text on (lines 136-172).
    The handler of the outer [try] reads [content], which is bound by then:
    the only [JSONDecodeError] that reaches it comes from parsing the
    extracted text. *)
Definition parse_content (E : env) (content : str) : M json :=
  let content := strip_code_block content in
  try_except
    (result <- extract E content ;;
     validate result)
    is_json_decode_error
    (fun e =>
       log ERROR (Lit "JSON parsing failed completely: " :: str_exn e) ;;
       log ERROR [Lit "Raw content: "; Lit content] ;;
       raise (ValueError "Failed to parse JSON response from Groq")).

Definition _parse_response (E : env) (response_data : json) : M json :=
  a <- getitem response_data "choices" ;;
  b <- getitem0 a ;;
  c <- getitem b "message" ;;
  d <- getitem c "content" ;;
  content <- method_strip d ;;
  parse_content E content.

Definition analyze (self : GroqTranscriptAnalyzer) (E : env) (transcript : str)
  : M (option AnalysisResult * option message) :=
  try_except
    (_validate_transcript transcript ;;
     response_data <- _make_api_request self E transcript ;;
     result_dict <- _parse_response E response_data ;;
     su <- getitem result_dict "summary" ;;
     s <- getitem result_dict "sentiment" ;;
     se <- SentimentType_of s ;;
     cs <- method_get result_dict "confidence_score" JNull ;;
     kt <- method_get result_dict "key_topics" JNull ;;
     wc <- method_get result_dict "word_count" JNull ;;
     let result := mkAnalysisResult su se cs kt wc in
     log INFO [Lit "Analysis completed successfully"] ;;
     ret (Some result, None))
    is_exception
    (fun e =>
       let error_msg := Lit "Analysis failed: " :: str_exn e in
       log ERROR error_msg ;;
       ret (None, Some error_msg)).

(** The loop of [analyze_batch] over the transcripts from number [i] on,
    [n] being the number of all of them. *)
Fixpoint analyze_batch_from (self : GroqTranscriptAnalyzer) (E : env)
  (i n : Z) (transcripts : list str)
  : M (list (option AnalysisResult * option message)) :=
  match transcripts with
  | [] => ret []
  | transcript :: rest =>
      log INFO [Lit "Processing transcript "; Fmt (JInt (i + 1)); Lit "/";
                Fmt (JInt n)] ;;
      result <- analyze self E transcript ;;
      (if (i <? n - 1)%Z then sleep E (1 # 2) else ret tt) ;;
      results <- analyze_batch_from self E (i + 1) n rest ;;
      ret (result :: results)
  end.

Definition analyze_batch (self : GroqTranscriptAnalyzer) (E : env)
  (transcripts : list str)
  : M (list (option AnalysisResult * option message)) :=
  analyze_batch_from self E 0 (Z.of_nat (length transcripts)) transcripts.

(** [json.loads(v)] for a value that may not be a string *)
Definition json_loads_value (E : env) (v : json) : M json :=
  match v with
  | JStr s => json_loads E s
  | _ => raise TypeError
  end.

Definition legacy_payload (transcript : str) : payload :=
  mkPayload "llama-3.1-8b-instant"
    [("user",
      "Analyze the following transcript and return ONLY a valid JSON object with exactly two fields: 'summary' and 'sentiment'.
Transcript: " ++ transcript ++ "
Return format:
" ++ PyStr.q "{'summary': 'brief summary here', 'sentiment': 'positive/negative/neutral'}")]
    (1 # 10) 1024 true.

(** The module-level [analyze_with_groq], from the reply value on
    (lines 259-271). *)
Definition legacy_rescue (E : env) (content : json)
  : M (option json * option message) :=
  r <- try_except (v <- json_loads_value E content ;; ret (inr v))
         is_json_decode_error
         (fun _ =>
            match content with
            | JStr s =>
                match Re.search Re.braces_greedy s with
                | Some m => v <- json_loads E m ;; ret (inr v)
                | None => ret (inl (None, Some [Lit "Failed to parse JSON response"]))
                end
            | _ => raise TypeError
            end) ;;
  match r with
  | inl early => ret early
  | inr result =>
      has_summary <- contains result "summary" ;;
      missing <- (if negb has_summary then ret true
                  else has_sentiment <- contains result "sentiment" ;;
                       ret (negb has_sentiment)) ;;
      if (missing : bool) then
        ret (None, Some [Lit "Missing required fields in Groq response"])
      else ret (Some result, None)
  end.

(** The module-level [analyze_with_groq]. *)
Definition analyze_with_groq (E : env) (transcript : str)
  : M (option json * option message) :=
  match GROQ_API_KEY E with
  | None | Some [] =>
      ret (None, Some [Lit "GROQ_API_KEY not found in environment variables. Please check your .env file."])
  | Some _ =>
      try_except
        (response <- post E "https://api.groq.com/openai/v1/chat/completions"
                       (legacy_payload transcript) None ;;
         raise_for_status response ;;
         response_data <- response_json E response ;;
         a <- getitem response_data "choices" ;;
         b <- getitem0 a ;;
         c <- getitem b "message" ;;
         content <- getitem c "content" ;;
         legacy_rescue E content)
        is_exception
        (fun e => ret (None, Some (str_exn e)))
  end.

End Utils.

(* ================================================================== *)
(** * Vocabulary of the statements *)

Unset Implicit Arguments.

Module Spec.

(** [data["choices"][0]["message"]["content"]], when every step is there. *)
Definition content_of (data : json) : option json :=
  match data with
  | JObj d =>
      match dict_get d "choices" with
      | Some (JArr (JObj c :: _)) =>
          match dict_get c "message" with
          | Some (JObj m) => dict_get m "content"
          | _ => None
          end
      | _ => None
      end
  | _ => None
  end.

(** The next post made from [w] is answered with a status that is no error
    and a body that [response.json()] decodes and whose first choice
    carries the text [reply]. *)
Definition answers (E : env) (w : world) (reply : str) : Prop :=
  exists r data,
    requests_post E (posts w) = PostReturns r
    /\ response_ok r = true
    /\ loads (body_limits E) (text r) = Value data
    /\ content_of data = Some (JStr reply).

(** The smallest such body. *)
Definition chat_response (reply : str) : json :=
  JObj [("choices", JArr [JObj [("message", JObj [("content", JStr reply)])]])].

(** The sentiment [app.py] ends with for the string [v]. *)
Definition final_sentiment (v : str) : str :=
  if existsb (PyStr.eqb (PyStr.lower v)) App.valid_sentiments
  then PyStr.lower v else "neutral".

(** What [validate] of [app.py] prints on the way to a result for an object
    [o] whose sentiment is the string [v]. *)
Definition validate_output (o : dict) (v : str) : list event :=
  (if existsb (PyStr.eqb (PyStr.lower v)) App.valid_sentiments then []
   else [Print [Lit "Invalid sentiment '"; Lit v; Lit "', defaulting to neutral"]])
  ++ [Print [Lit "Analysis completed successfully: ";
             Fmt (JObj (dict_set o "sentiment" (JStr (final_sentiment v))))]].

(** The [try] of [analyze_with_groq] in [app.py] around a computation. *)
Definition guarded (m : M (option json * option message))
  : M (option json * option message) :=
  try_except m is_exception
    (fun e => ret (None, Some (Lit "Unexpected error: " :: str_exn e))).

(** The world once [analyze_with_groq] of [app.py] has made its post. *)
Definition posted (t : str) (w : world) : world :=
  mkWorld (S (posts w)) (csv w)
    (out w ++ [Print [Lit "Making Groq API request..."]]
           ++ [Post App.GROQ_API_URL (App.build_payload t) (Some 30%Z)]).

(** Standard output takes every text. *)
Definition stdout_open (E : env) : Prop :=
  forall m : message, stdout_raises E m = None.

(** Limits for the sample environments.  An interpreter that was started
    with its defaults converts integers of up to 4300 digits.  The depth
    of nesting that the decoder can enter is what is left of the recursion
    limit (1000 by default) at the call, so it varies with the call stack:
    some 990 levels when the functions are called from a script, fewer
    inside a web server or a test runner.  The sample environments take
    990; they are run on small texts, and on one that no default
    interpreter decodes. *)
Definition default_digits : N := 4300.
Definition sample_nesting : nat := 990.
Definition sample_limits : limits := mkLimits default_digits sample_nesting.

(** An environment with an API key whose every post is answered by the
    body [body] with status 200, whose file system works unless
    [csv_fault] says otherwise, whose standard output takes every
    text, and whose interpreter has the sample limits. *)
Definition env_answering (body : str) (csv_fault : option exn) : env :=
  mkEnv (Some "gsk") (fun _ => PostReturns (mkResponse 200 body))
        "2024-01-01T00:00:00" None csv_fault refuses_negative
        (fun _ => None) default_digits sample_nesting sample_nesting.

(** An environment to run a rescuer by itself: of the environment, the
    rescuers of [app.py] only use standard output. *)
Definition env0 : env := env_answering [] None.

(** A fresh world. *)
Definition w0 : world := mkWorld 0 None [].

(** An analyzer with the default configuration. *)
Definition analyzer0 : Utils.GroqTranscriptAnalyzer :=
  Utils.mkAnalyzer "gsk" Utils.default_config
    "https://api.groq.com/openai/v1/chat/completions".

(** The transcript field that the [/analyze] handler reads from [req]. *)
Definition carries (req : App.request) (t : str) : Prop :=
  if App.is_json req then
    exists d, App.json_body req = Some (JObj d)
              /\ match dict_get d "transcript" with
                 | Some x => x
                 | None => JStr ""
                 end = JStr t
  else App.form_get (App.form req) "transcript" "" = t.

Definition nl : str := [10%N].

(** What the handler prints before it calls [analyze_with_groq]. *)
Definition analyzing_line (transcript : str) : event :=
  Print [Lit "
Analyzing transcript ("; Fmt (JInt (PyStr.len transcript)); Lit " chars): ";
         Lit (PyStr.prefix transcript 100); Lit "..."].

(** What the [try] body of the retry loop comes to when its post is post
    number [n]. *)
Definition attempt_outcome (E : env) (n : nat) : outcome json :=
  match requests_post E n with
  | PostRaises e => Raise e
  | PostReturns r =>
      if response_ok r then
        match loads (body_limits E) (text r) with
        | Value v => Ret v
        | Invalid => Raise RequestsJSONDecodeError
        | Refused x => Raise (refusal_exn x)
        end
      else Raise (HTTPError (status_code r))
  end.

(** Post number [n] ends in the network-level failure [e]. *)
Definition fails (E : env) (n : nat) (e : exn) : Prop :=
  attempt_outcome E n = Raise e /\ is_request_exception e = true.

(** The output of attempt [i] (from 0): the log line and the post. *)
Definition attempt_events (self : Utils.GroqTranscriptAnalyzer) (t : str)
  (i : nat) : list event :=
  [Log INFO [Lit "API request attempt "; Fmt (JInt (Z.of_nat i + 1))];
   Post (Utils.api_url self) (Utils.build_payload self t)
        (Some (Utils.timeout (Utils.config self)))].

(** The output of attempt [i] when it fails with [e]. *)
Definition failure_events (self : Utils.GroqTranscriptAnalyzer) (t : str)
  (i : nat) (e : exn) : list event :=
  attempt_events self t i
  ++ [Log WARNING (Lit "API request failed (attempt "
                   :: Fmt (JInt (Z.of_nat i + 1)) :: Lit "): " :: str_exn e)].

(** The sleep that follows the failed attempt [i] goes through: its delay
    can be computed and [time.sleep] takes it. *)
Definition sleep_accepted (E : env) (self : Utils.GroqTranscriptAnalyzer)
  (i : nat) : Prop :=
  (Z.of_nat i < 1024)%Z
  /\ time_sleep_raises E (Utils.retry_delay (Utils.config self)
                          * inject_Z (2 ^ Z.of_nat i)) = None.

(** The output of the failed attempts [i], [i+1], ... ([k] of them), each
    followed by its sleep of [D * 2^attempt] seconds. *)
Definition backoff_rounds (self : Utils.GroqTranscriptAnalyzer) (t : str)
  (D : Q) (e : nat -> exn) (i k : nat) : list event :=
  flat_map (fun j => failure_events self t j (e j)
                     ++ [Sleep (D * inject_Z (2 ^ Z.of_nat j))])
           (seq i k).

(** The sleeps among some output, in order. *)
Definition sleeps_of (es : list event) : list Q :=
  flat_map (fun ev => match ev with Sleep d => [d] | _ => [] end) es.

(** An environment whose posts fail with a timeout, then with a connection
    error, and are answered with [body] from the third on. *)
Definition env_failing_twice (body : str) : env :=
  mkEnv (Some "gsk")
    (fun n => match n with
              | 0%nat => PostRaises Timeout_
              | 1%nat => PostRaises ConnectionError_
              | _ => PostReturns (mkResponse 200 body)
              end)
    "2024-01-01T00:00:00" None None refuses_negative (fun _ => None)
    default_digits sample_nesting sample_nesting.

(** A call of [json.loads] after which the next method is tried: it
    raised [json.JSONDecodeError], or it returned a value that is falsy.
    (What it raises on hitting a limit ends the rescue.) *)
Definition no_value (r : decoded) : Prop :=
  match r with
  | Value v => truthy v = false
  | Invalid => True
  | Refused _ => False
  end.

(** The text of a message made of literal pieces only. *)
Fixpoint text_of (m : message) : option str :=
  match m with
  | [] => Some []
  | Lit s :: m' =>
      match text_of m' with
      | Some r => Some (s ++ r)
      | None => None
      end
  | _ :: _ => None
  end.

Definition lbrace : char := "{"%cp.
Definition rbrace : char := "}"%cp.

(** [m] is the part of [s] from its first opening brace to a closing brace
    after it, the one that [P] picks: [P body post] speaks of the text
    between the braces and of the text after the closing brace. *)
Definition brace_span (P : str -> str -> Prop) (s m : str) : Prop :=
  exists pre body post,
    s = pre ++ lbrace :: body ++ rbrace :: post
    /\ ~ In lbrace pre /\ P body post
    /\ m = lbrace :: body ++ [rbrace].

(** [m] is the part of [s] from its first opening brace to the first
    closing brace after it. *)
Definition first_open_to_first_close : str -> str -> Prop :=
  brace_span (fun body _ => ~ In rbrace body).

(** [m] is the part of [s] from its first opening brace to its last
    closing brace. *)
Definition first_open_to_last_close : str -> str -> Prop :=
  brace_span (fun _ post => ~ In rbrace post).

(** The two keys as the narrow pattern writes them, quotes included. *)
Definition summary_key : str := PyStr.q "'summary'".
Definition sentiment_key : str := PyStr.q "'sentiment'".

(** [t] begins with the brace-delimited text [m]: an opening brace, a body
    without closing brace that holds the [summary] key and, after it, the
    [sentiment] key, and the closing brace. *)
Definition keyed_span (t m : str) : Prop :=
  exists a b c post,
    let body := a ++ summary_key ++ b ++ sentiment_key ++ c in
    t = lbrace :: body ++ rbrace :: post
    /\ ~ In rbrace body
    /\ m = lbrace :: body ++ [rbrace].

(** [m] is the first such text in [s]: none begins further left. *)
Definition first_keyed_span (s m : str) : Prop :=
  exists pre t,
    s = pre ++ t /\ keyed_span t m
    /\ forall pre1 pre2, pre = pre1 ++ pre2 -> pre2 <> [] ->
                         forall m', ~ keyed_span (pre2 ++ t) m'.

(** The words a pattern matches, whatever the order in which the matcher
    tries them. *)
Inductive matches : Re.regex -> str -> Prop :=
| matches_nil : matches [] []
| matches_one k x r u :
    Re.cset_mem k x = true -> matches r u -> matches (Re.One k :: r) (x :: u)
| matches_star k r a u :
    Forall (fun x => Re.cset_mem k x = true) a -> matches r u ->
    matches (Re.Star k :: r) (a ++ u)
| matches_lazy k r a u :
    Forall (fun x => Re.cset_mem k x = true) a -> matches r u ->
    matches (Re.StarLazy k :: r) (a ++ u).

End Spec.
Export Spec.

(* ================================================================== *)
(** * Further vocabulary: the request handler, the CSV file, batches *)

Module Notions.

(** A computation that makes no post and leaves the CSV file alone. *)
Definition quiet {A : Type} (m : M A) : Prop :=
  forall w : world, posts (snd (m w)) = posts w /\ csv (snd (m w)) = csv w.

(** A returned pair has exactly one component. *)
Definition one_of_two {A B : Type} (p : option A * option B) : Prop :=
  (fst p <> None /\ snd p = None) \/ (fst p = None /\ snd p <> None).

(** The error that [analyze_with_groq] returns without an API key. *)
Definition no_key_error : message :=
  [Lit "GROQ_API_KEY not found in environment variables. Please check your .env file."].

(** An environment with an API key whose every post does [o], whose file
    system works, whose standard output takes every text and whose
    interpreter has the sample limits. *)
Definition env_posting (o : post_outcome) : env :=
  mkEnv (Some "gsk") (fun _ => o) "2024-01-01T00:00:00" None None
        refuses_negative (fun _ => None)
        default_digits sample_nesting sample_nesting.

(** The exceptions of a lookup that goes wrong. *)
Definition lookup_errors : list exn :=
  [KeyError; IndexError; TypeError; AttributeError].

(** A computation whose outcome does not depend on the world it starts
    from. *)
Definition steady {A : Type} (m : M A) : Prop :=
  forall w w' : world, fst (m w) = fst (m w').

(** A text made of white space only. *)
Definition blank (s : str) : Prop :=
  Forall (fun c => PyStr.isspace c = true) s.

(** The reply [s] in a code fence with a language tag, with white space
    [pre] and [post] around it inside the fence. *)
Definition fenced (tag pre s post : str) : str :=
  "```" ++ tag ++ pre ++ s ++ post ++ "```".

(** A computation that leaves the CSV file alone. *)
Definition still {A : Type} (m : M A) : Prop :=
  forall w : world, csv (snd (m w)) = csv w.

(** The CSV file [c'] is the file [c] with at most one row more: it is as
    it was, or it got one row at its end, or it did not exist and now
    begins with the header, with at most one row after it. *)
Definition csv_extends (c c' : option (list (list json))) : Prop :=
  match c with
  | Some rows =>
      exists more, c' = Some (rows ++ more) /\ (length more <= 1)%nat
  | None =>
      c' = None
      \/ exists more, c' = Some (App.csv_header :: more)
                      /\ (length more <= 1)%nat
  end.

(** A computation that adds at most one row to the CSV file. *)
Definition appending {A : Type} (m : M A) : Prop :=
  forall w : world, csv_extends (csv w) (csv (snd (m w))).

(** A computation that makes no post. *)
Definition offline {A : Type} (m : M A) : Prop :=
  forall w : world, posts (snd (m w)) = posts w.

(** A computation that makes at most [n] posts. *)
Definition posting {A : Type} (n : nat) (m : M A) : Prop :=
  forall w : world, (posts (snd (m w)) <= posts w + n)%nat.

(** What the handler answers when the analysis of the stripped transcript
    [tr] has returned [p] in the world [w2]. *)
Definition handler_answer (E : env) (tr : str)
  (p : option json * option message) (w2 : world)
  : outcome (App.body * Z) * world :=
  match p with
  | (_, Some error) =>
      (Ret (App.JsonifyError error, 500%Z),
       say w2 [Print (Lit "Analysis failed: " :: error)])
  | (result, None) =>
      let result := match result with Some v => v | None => JNull end in
      match App.append_to_csv E tr result
              (say w2 [Print [Lit "Analysis successful: "; fmt result]]) with
      | (Ret _, w4) => (Ret (App.Jsonify result, 200%Z), w4)
      | (Raise e, w4) =>
          (Ret (App.Jsonify result, 200%Z),
           say w4 [Print (Lit "CSV save failed: " :: str_exn e)])
      end
  end.

(** The member of [SentimentType] that [analyze] ends with for a reply
    whose sentiment is the string [v]. *)
Definition sentiment_of (v : str) : Utils.SentimentType :=
  if PyStr.eqb v "positive" then Utils.POSITIVE
  else if PyStr.eqb v "negative" then Utils.NEGATIVE
  else Utils.NEUTRAL.

(** [o.get(k)] *)
Definition optional (o : dict) (k : str) : json :=
  match dict_get o k with
  | Some x => x
  | None => JNull
  end.

(** [k in r] is true. *)
Definition holds (r : json) (k : str) : bool :=
  match r with
  | JObj d => dict_has d k
  | JArr l =>
      existsb (fun x => match x with JStr s => PyStr.eqb s k | _ => false end) l
  | JStr s => PyStr.contains s k
  | _ => false
  end.

(** A key that is given: not [None] and not the empty string. *)
Definition given (key : option str) : bool :=
  match key with
  | Some (_ :: _) => true
  | _ => false
  end.

End Notions.
Export Notions.

(* ================================================================== *)
(** * Running the monad *)

Lemma bind_run {A B} {m : M A} (k : A -> M B) {w w' : world} {a : A}
  (H : m w = (Ret a, w')) : bind m k w = k a w'.
Proof. unfold bind. rewrite H. reflexivity. Qed.

Lemma bind_raise {A B} {m : M A} (k : A -> M B) {w w' : world} {e : exn}
  (H : m w = (Raise e, w')) : bind m k w = (Raise e, w').
Proof. unfold bind. rewrite H. reflexivity. Qed.

Lemma bind_ret_inv {A B} (m : M A) (k : A -> M B) (w w' : world) (b : B) :
  bind m k w = (Ret b, w') ->
  exists a w1, m w = (Ret a, w1) /\ k a w1 = (Ret b, w').
Proof.
  unfold bind. destruct (m w) as [[a|e] w1]; intros H.
  - exists a, w1. split; [reflexivity|exact H].
  - discriminate.
Qed.

Lemma try_ret {A} {m : M A} c h {w w' : world} {a : A}
  (H : m w = (Ret a, w')) : try_except m c h w = (Ret a, w').
Proof. unfold try_except. rewrite H. reflexivity. Qed.

Lemma try_caught {A} {m : M A} {c} h {w w' : world} {e : exn}
  (H : m w = (Raise e, w')) (Hc : c e = true) : try_except m c h w = h e w'.
Proof. unfold try_except. rewrite H, Hc. reflexivity. Qed.

Lemma try_passed {A} {m : M A} {c} h {w w' : world} {e : exn}
  (H : m w = (Raise e, w')) (Hc : c e = false) :
  try_except m c h w = (Raise e, w').
Proof. unfold try_except. rewrite H, Hc. reflexivity. Qed.

Lemma say_say (w : world) (a b : list event) :
  say (say w a) b = say w (a ++ b).
Proof. unfold say. simpl. rewrite app_assoc. reflexivity. Qed.

Lemma say_nil (w : world) : say w [] = w.
Proof. destruct w. unfold say. simpl. rewrite app_nil_r. reflexivity. Qed.

Lemma print_run {E : env} (H : stdout_open E) (m : message) (w : world) :
  print E m w = (Ret tt, say w [Print m]).
Proof. unfold print. rewrite (H m). reflexivity. Qed.

Lemma stdout_open_answering (body : str) (csv_fault : option exn) :
  stdout_open (env_answering body csv_fault).
Proof. intros m. reflexivity. Qed.

Lemma stdout_open_env0 : stdout_open env0.
Proof. intros m. reflexivity. Qed.

Lemma log_run (l : level) (m : message) (w : world) :
  log l m w = (Ret tt, say w [Log l m]).
Proof. reflexivity. Qed.

Lemma json_loads_some {E : env} {s : str} {v : json} (w : world)
  (H : loads (text_limits E) s = Value v) : json_loads E s w = (Ret v, w).
Proof. unfold json_loads. rewrite H. reflexivity. Qed.

Lemma json_loads_none {E : env} {s : str} (w : world)
  (H : loads (text_limits E) s = Invalid) :
  json_loads E s w = (Raise JSONDecodeError, w).
Proof. unfold json_loads. rewrite H. reflexivity. Qed.

Lemma json_loads_refused {E : env} {s : str} {x : refusal} (w : world)
  (H : loads (text_limits E) s = Refused x) :
  json_loads E s w = (Raise (refusal_exn x), w).
Proof. unfold json_loads. rewrite H. reflexivity. Qed.
(** ** Sample runs *)

Example loads_ex1 :
  loads sample_limits
    (PyStr.q "{'summary': 'a b', 'sentiment': 'Positive', 'n': [1, -2.50e3, null, {}]}")
  = Value (JObj [("summary", JStr "a b"); ("sentiment", JStr "Positive");
                 ("n", JArr [JInt 1; JFloat (-250) 1; JNull; JObj []])]).
Proof. vm_compute. reflexivity. Qed.

Example loads_ex_escapes :
  loads sample_limits
    (PyStr.q "['\u00e9\n', '\ud83d\ude00', '\ud83dx\u0041']")
  = Value (JArr [JStr [233; 10]; JStr [128512]; JStr [55357; 120; 65]])%N.
Proof. vm_compute. reflexivity. Qed.

(** With room for five digits and two levels of nesting: the integer of six
    digits is refused where it ends, before the text is found to go wrong
    after it; the float is not converted by [int()]; the third bracket is
    refused, though the text never closes one. *)
Example loads_ex_limits :
  let L := mkLimits 5 2 in
  loads L "[12345, -12345]" = Value (JArr [JInt 12345; JInt (-12345)])
  /\ loads L "[123456 oops" = Refused (TooManyDigits 5 6)
  /\ loads L "[oops 123456" = Invalid
  /\ loads L "[1234567.5, 123456e2]"
     = Value (JArr [JFloat 12345675 (-1); JFloat 123456 2])
  /\ loads L "[[1]]" = Value (JArr [JArr [JInt 1]])
  /\ loads L "[[[" = Refused (TooDeep false)
  /\ loads L (PyStr.q "{'a': [{'b': 1}]}") = Refused (TooDeep true)
  /\ loads L "[[" = Invalid
  /\ parse "[[[123456]]]" = Some (JArr [JArr [JArr [JInt 123456]]]).
Proof. vm_compute. repeat split; reflexivity. Qed.

Example search_ex_lazy :
  Re.search Re.braces_lazy "a {b {c} d} e" = Some "{b {c}".
Proof. reflexivity. Qed.

Example search_ex_greedy :
  Re.search Re.braces_greedy "a {b {c} d} e" = Some "{b {c} d}".
Proof. reflexivity. Qed.

Example search_ex_narrow :
  Re.search Re.narrow (PyStr.q "x {'a'} {'summary':1,'sentiment':2} y}")
  = Some (PyStr.q "{'summary':1,'sentiment':2}").
Proof. vm_compute. reflexivity. Qed.
(* ================================================================== *)
(** * Properties of the string operations and of [json.loads] *)

Lemma chr_eqb_eq (a b : char) : PyStr.chr_eqb a b = true <-> a = b.
Proof. unfold PyStr.chr_eqb. apply N.eqb_eq. Qed.

Lemma chr_eqb_refl (a : char) : PyStr.chr_eqb a a = true.
Proof. apply chr_eqb_eq. reflexivity. Qed.

Lemma chr_eqb_neq (a b : char) : PyStr.chr_eqb a b = false <-> a <> b.
Proof. unfold PyStr.chr_eqb. apply N.eqb_neq. Qed.

Lemma isspace_whitespace (c : char) :
  PyStr.isspace c = true -> In c PyStr.whitespace.
Proof.
  unfold PyStr.isspace. intros H. apply existsb_exists in H.
  destruct H as (x & Hin & Hx). apply chr_eqb_eq in Hx. subst x. exact Hin.
Qed.

(** A fact about a white space character is settled on each of them. *)
Ltac by_whitespace H :=
  apply isspace_whitespace in H; cbv [PyStr.whitespace In] in H;
  repeat (destruct H as [<-|H];
          [vm_compute; intros; repeat split;
           try reflexivity; try discriminate; try congruence|]);
  try contradiction.

Lemma space_at_start (c : char) (x : list token * lstate) :
  PyStr.isspace c = true -> start_char c = Some x -> x = ([], LStart).
Proof. intros H. revert x. by_whitespace H. Qed.

Lemma space_not_atom (c : char) :
  PyStr.isspace c = true -> is_atom_char c = false.
Proof. intros H. by_whitespace H. Qed.

Lemma space_in_string (c : char) :
  PyStr.isspace c = true ->
  PyStr.chr_eqb c PyStr.dq = false /\ PyStr.chr_eqb c "\" = false
  /\ PyStr.chr_eqb c "u" = false /\ unescape c = None /\ hex_val c = None.
Proof. intros H. by_whitespace H. Qed.

Lemma lfinish_after_space (st st' : lstate) (c : char) (ts ts' : list token) :
  PyStr.isspace c = true ->
  lstep st c = Some (ts, st') -> lfinish st' = Some ts' ->
  lfinish st = Some (ts ++ ts').
Proof.
  intros Hc Hstep Hfin.
  destruct (space_in_string c Hc) as (Hq & Hb & Hu & Hun & Hhex).
  destruct st as [|acc|acc|acc|acc k v|acc h|acc h|acc h k v];
    cbn [lstep] in Hstep; unfold string_char, escape_char in Hstep.
  - apply (space_at_start c _ Hc) in Hstep. inversion Hstep; subst.
    exact Hfin.
  - rewrite (space_not_atom c Hc) in Hstep.
    destruct (atom (rev acc)) as [v|] eqn:Ha; [|discriminate].
    destruct (start_char c) as [[ts0 st0]|] eqn:Hs; [|discriminate].
    apply (space_at_start c _ Hc) in Hs. inversion Hs; subst.
    inversion Hstep; subst. simpl in *. rewrite Ha.
    inversion Hfin; subst. reflexivity.
  - rewrite Hq, Hb in Hstep.
    destruct (PyStr.code c <? 32)%N; [discriminate|].
    inversion Hstep; subst. discriminate.
  - rewrite Hu, Hun in Hstep. discriminate.
  - rewrite Hhex in Hstep. discriminate.
  - rewrite Hb, Hq in Hstep.
    destruct (PyStr.code c <? 32)%N; [discriminate|].
    inversion Hstep; subst. discriminate.
  - rewrite Hu, Hun in Hstep. discriminate.
  - rewrite Hhex in Hstep. discriminate.
Qed.

Lemma lex_drop_last_space (c : char) (s : str) :
  PyStr.isspace c = true ->
  forall st ts, lex st (s ++ [c]) = Some ts -> lex st s = Some ts.
Proof.
  intros Hc. induction s as [|x s IH]; intros st ts H; simpl in *.
  - destruct (lstep st c) as [[t1 st']|] eqn:Hstep; [|discriminate].
    destruct (lfinish st') as [r|] eqn:Hfin; [|discriminate].
    inversion H; subst. eapply lfinish_after_space; eauto.
  - destruct (lstep st x) as [[t1 st']|]; [|discriminate].
    destruct (lex st' (s ++ [c])) as [r|] eqn:Hr; [|discriminate].
    rewrite (IH _ _ Hr). exact H.
Qed.

Lemma lex_rstrip (s : str) (st : lstate) (ts : list token) :
  lex st s = Some ts -> lex st (PyStr.rstrip s) = Some ts.
Proof.
  unfold PyStr.rstrip. rewrite <- (rev_involutive s) at 1.
  induction (rev s) as [|c l IH]; simpl; intros H; [exact H|].
  destruct (PyStr.isspace c) eqn:Hc.
  - apply IH. eapply lex_drop_last_space; eauto.
  - exact H.
Qed.

Lemma lex_lstrip (s : str) (ts : list token) :
  lex LStart s = Some ts -> lex LStart (PyStr.lstrip s) = Some ts.
Proof.
  revert ts. induction s as [|c s IH]; intros ts H; [exact H|].
  simpl. destruct (PyStr.isspace c) eqn:Hc; [|exact H].
  simpl in H.
  destruct (start_char c) as [[t1 st']|] eqn:Hs; [|discriminate].
  apply (space_at_start c _ Hc) in Hs. inversion Hs; subst.
  destruct (lex LStart s) as [r|] eqn:Hr; [|discriminate].
  inversion H; subst. apply IH. reflexivity.
Qed.

(** A document of the grammar stays the same document when stripped. *)
Lemma parse_strip (s : str) (v : json) :
  parse s = Some v -> parse (PyStr.strip s) = Some v.
Proof.
  unfold parse, PyStr.strip. intros H.
  destruct (lex LStart s) as [ts|] eqn:Hl; [|discriminate].
  rewrite (lex_rstrip _ _ _ (lex_lstrip _ _ Hl)). exact H.
Qed.

(** ** The decoder *)

Lemma feed_app (L : limits) (a b : list token) :
  forall st m,
    feed L st m (a ++ b)
    = match feed L st m a with
      | Going st' m' => feed L st' m' b
      | Stuck => Stuck
      | Stopped r => Stopped r
      end.
Proof.
  induction a as [|t a IH]; intros st m; cbn [app feed]; [reflexivity|].
  destruct (open_refused L st m t); [reflexivity|].
  destruct (pstep st m t) as [[st' m']|]; [apply IH|reflexivity].
Qed.

(** What the parser makes of tokens that the decoder took. *)
Lemma feed_prun (L : limits) (a b : list token) :
  forall st m,
    match feed L st m a with
    | Going st' m' => prun st m (a ++ b) = prun st' m' b
    | Stuck => prun st m (a ++ b) = None
    | Stopped _ => True
    end.
Proof.
  induction a as [|t a IH]; intros st m; cbn [app feed prun]; [reflexivity|].
  destruct (open_refused L st m t); [exact I|].
  destruct (pstep st m t) as [[st' m']|]; [apply IH|reflexivity].
Qed.

(** Unless it hits a limit, the decoder gives what the grammar gives. *)
Lemma scan_agrees (L : limits) (s : str) :
  forall ls st m,
    match scan L ls st m s with
    | Value v =>
        match lex ls s with Some ts => prun st m ts | None => None end = Some v
    | Invalid =>
        match lex ls s with Some ts => prun st m ts | None => None end = None
    | Refused _ => True
    end.
Proof.
  induction s as [|c s IH]; intros ls st m; cbn [scan lex].
  - destruct (ending_atom L ls m None); [exact I|].
    destruct (lfinish ls) as [ts|]; [|reflexivity].
    pose proof (feed_prun L ts [] st m) as H. rewrite app_nil_r in H.
    destruct (feed L st m ts) as [st' m'| |r]; [| exact H | exact I].
    destruct m'; cbn [prun] in H; exact H.
  - destruct (ending_atom L ls m (Some c)); [exact I|].
    destruct (lstep ls c) as [[ts ls']|]; [|reflexivity].
    destruct (feed L st m ts) as [st' m'| |r] eqn:Hfeed.
    + specialize (IH ls' st' m').
      destruct (lex ls' s) as [rest|].
      * pose proof (feed_prun L ts rest st m) as H. rewrite Hfeed in H.
        rewrite H. exact IH.
      * exact IH.
    + destruct (lex ls' s) as [rest|]; [|reflexivity].
      pose proof (feed_prun L ts rest st m) as H. rewrite Hfeed in H.
      exact H.
    + exact I.
Qed.

Lemma loads_parse (L : limits) (s : str) (v : json) :
  loads L s = Value v -> parse s = Some v.
Proof.
  intros H. pose proof (scan_agrees L s LStart [] (PValue false)) as A.
  unfold loads in H. rewrite H in A. exact A.
Qed.

Lemma loads_invalid_parse (L : limits) (s : str) :
  loads L s = Invalid -> parse s = None.
Proof.
  intros H. pose proof (scan_agrees L s LStart [] (PValue false)) as A.
  unfold loads in H. rewrite H in A. exact A.
Qed.

(** A document of the grammar is decoded to its value, unless a limit is
    hit. *)
Lemma parse_loads (L : limits) (s : str) (v : json) :
  parse s = Some v ->
  loads L s = Value v \/ exists r, loads L s = Refused r.
Proof.
  intros H. pose proof (scan_agrees L s LStart [] (PValue false)) as A.
  unfold loads. unfold parse in H.
  destruct (scan L LStart [] (PValue false) s) as [v'| |r].
  - left. congruence.
  - congruence.
  - right. exists r. reflexivity.
Qed.

Lemma ending_atom_space (L : limits) (ls : lstate) (m : pmode) (c : char) :
  PyStr.isspace c = true ->
  ending_atom L ls m (Some c) = ending_atom L ls m None.
Proof.
  intros Hc. destruct ls; cbn [ending_atom]; try reflexivity.
  rewrite (space_not_atom c Hc). reflexivity.
Qed.

Lemma scan_drop_last_space (L : limits) (c : char) (s : str) (v : json) :
  PyStr.isspace c = true ->
  forall ls st m,
    scan L ls st m (s ++ [c]) = Value v -> scan L ls st m s = Value v.
Proof.
  intros Hc. induction s as [|x s IH]; intros ls st m H.
  - cbn [app scan] in H. cbn [scan].
    rewrite (ending_atom_space L ls m c Hc) in H.
    destruct (ending_atom L ls m None); [discriminate|].
    destruct (lstep ls c) as [[ts ls']|] eqn:Hstep; [|discriminate].
    destruct (feed L st m ts) as [st' m'| |r] eqn:Hfeed; try discriminate.
    assert (Hend : ending_atom L ls' m' None = None).
    { destruct ls'; try reflexivity.
      destruct (space_in_string c Hc) as (Hq & Hb & Hu & Hun & Hhex).
      destruct ls as [|acc0|acc0|acc0|acc0 k v0|acc0 h|acc0 h|acc0 h k v0];
        cbn [lstep] in Hstep; unfold string_char, escape_char in Hstep.
      - apply (space_at_start c _ Hc) in Hstep. discriminate.
      - rewrite (space_not_atom c Hc) in Hstep.
        destruct (atom (rev acc0)); [|discriminate].
        destruct (start_char c) as [[ts0 st0]|] eqn:Hs; [|discriminate].
        apply (space_at_start c _ Hc) in Hs. inversion Hs; subst.
        discriminate.
      - rewrite Hq, Hb in Hstep.
        destruct (PyStr.code c <? 32)%N; discriminate.
      - rewrite Hu, Hun in Hstep. discriminate.
      - rewrite Hhex in Hstep. discriminate.
      - rewrite Hb, Hq in Hstep.
        destruct (PyStr.code c <? 32)%N; discriminate.
      - rewrite Hu, Hun in Hstep. discriminate.
      - rewrite Hhex in Hstep. discriminate. }
    rewrite Hend in H.
    destruct (lfinish ls') as [ts'|] eqn:Hfin; [|discriminate].
    rewrite (lfinish_after_space _ _ _ _ _ Hc Hstep Hfin).
    rewrite feed_app, Hfeed. exact H.
  - cbn [app scan] in H. cbn [scan].
    destruct (ending_atom L ls m (Some x)); [exact H|].
    destruct (lstep ls x) as [[ts ls']|]; [|exact H].
    destruct (feed L st m ts) as [st' m'| |r]; try exact H.
    apply IH. exact H.
Qed.

Lemma scan_rstrip (L : limits) (s : str) (v : json) (ls : lstate)
  (st : list frame) (m : pmode) :
  scan L ls st m s = Value v -> scan L ls st m (PyStr.rstrip s) = Value v.
Proof.
  unfold PyStr.rstrip. rewrite <- (rev_involutive s) at 1.
  induction (rev s) as [|c l IH]; simpl; intros H; [exact H|].
  destruct (PyStr.isspace c) eqn:Hc.
  - apply IH. eapply scan_drop_last_space; eauto.
  - exact H.
Qed.

Lemma scan_lstrip (L : limits) (s : str) (v : json) (st : list frame)
  (m : pmode) :
  scan L LStart st m s = Value v ->
  scan L LStart st m (PyStr.lstrip s) = Value v.
Proof.
  induction s as [|c s IH]; intros H; [exact H|].
  cbn [PyStr.lstrip]. destruct (PyStr.isspace c) eqn:Hc; [|exact H].
  cbn [scan ending_atom lstep] in H.
  destruct (start_char c) as [[t1 st']|] eqn:Hs; [|discriminate].
  apply (space_at_start c _ Hc) in Hs. inversion Hs; subst.
  cbn [feed] in H. apply IH. exact H.
Qed.

(** A reply that is decoded is decoded to the same value when stripped. *)
Lemma loads_strip (L : limits) (s : str) (v : json) :
  loads L s = Value v -> loads L (PyStr.strip s) = Value v.
Proof.
  unfold loads, PyStr.strip. intros H.
  apply scan_rstrip. apply scan_lstrip. exact H.
Qed.

(** No document starts with a backquote. *)
Lemma loads_backquote (L : limits) (s : str) :
  PyStr.startswith s "```" = true -> loads L s = Invalid.
Proof.
  destruct s as [|c s]; cbn [PyStr.startswith]; [discriminate|].
  intros H. apply andb_prop in H. destruct H as [H _].
  apply chr_eqb_eq in H. subst c. reflexivity.
Qed.

Lemma loads_no_fence (L : limits) (s : str) (v : json) :
  loads L s = Value v -> PyStr.startswith (PyStr.strip s) "```" = false.
Proof.
  intros H. apply loads_strip in H.
  destruct (PyStr.startswith (PyStr.strip s) "```") eqn:Hf; [|reflexivity].
  rewrite (loads_backquote L _ Hf) in H. discriminate.
Qed.

(* ================================================================== *)
(** * Dictionaries *)

Lemma str_eqb_refl (s : str) : PyStr.eqb s s = true.
Proof.
  induction s as [|c s IH]; simpl; [reflexivity|].
  rewrite chr_eqb_refl. exact IH.
Qed.

Lemma str_eqb_eq (a b : str) : PyStr.eqb a b = true <-> a = b.
Proof.
  split.
  - revert b. induction a as [|x a IH]; intros [|y b] H; simpl in H;
      try discriminate; [reflexivity|].
    apply andb_prop in H. destruct H as [H1 H2].
    apply chr_eqb_eq in H1. apply IH in H2. congruence.
  - intros ->. apply str_eqb_refl.
Qed.

Lemma dict_get_set_same (d : dict) (k : str) (x : json) :
  dict_get (dict_set d k x) k = Some x.
Proof.
  induction d as [|[k' v'] d IH]; simpl.
  - rewrite str_eqb_refl. reflexivity.
  - destruct (PyStr.eqb k k') eqn:Hk; simpl; rewrite Hk;
      [reflexivity|exact IH].
Qed.

Lemma dict_set_set (d : dict) (k : str) (x y : json) :
  dict_set (dict_set d k x) k y = dict_set d k y.
Proof.
  induction d as [|[k' v'] d IH]; simpl.
  - rewrite str_eqb_refl. reflexivity.
  - destruct (PyStr.eqb k k') eqn:Hk; simpl; rewrite Hk; [reflexivity|].
    rewrite IH. reflexivity.
Qed.


Lemma dict_get_has (d : dict) (k : str) (x : json) :
  dict_get d k = Some x -> dict_has d k = true.
Proof. unfold dict_has. intros ->. reflexivity. Qed.

Lemma dict_has_truthy (d : dict) (k : str) :
  dict_has d k = true -> truthy (JObj d) = true.
Proof. destruct d; [discriminate|reflexivity]. Qed.

Lemma existsb_eqb_In (s : str) (l : list str) :
  existsb (PyStr.eqb s) l = true <-> In s l.
Proof.
  rewrite existsb_exists. split.
  - intros (x & Hx & He). apply str_eqb_eq in He. subst. exact Hx.
  - intros H. exists s. split; [exact H|apply str_eqb_refl].
Qed.

(* ================================================================== *)
(** * The rescuer of [app.py], step by step *)

Lemma method1_some {E : env} (Hout : stdout_open E) {c : str} (r : json) {v : json} (w : world)
  (H : loads (text_limits E) c = Value v) :
  App.method1 E c r w
  = (Ret v, say w [Print [Lit "Direct JSON parsing successful"]]).
Proof.
  unfold App.method1. apply try_ret.
  rewrite (bind_run _ (json_loads_some _ H)).
  rewrite (bind_run _ (print_run Hout _ _)). reflexivity.
Qed.

Lemma method1_none {E : env} {c : str} (r : json) (w : world) (H : loads (text_limits E) c = Invalid) :
  App.method1 E c r w = (Ret r, w).
Proof.
  unfold App.method1.
  rewrite (try_caught _ (bind_raise _ (json_loads_none _ H))); reflexivity.
Qed.

Lemma method2_truthy {E : env} (c : str) {r : json} (w : world) (H : truthy r = true) :
  App.method2 E c r w = (Ret r, w).
Proof. unfold App.method2. rewrite H. reflexivity. Qed.

Lemma method3_truthy {E : env} (c : str) {r : json} (w : world) (H : truthy r = true) :
  App.method3 E c r w = (Ret r, w).
Proof. unfold App.method3. rewrite H. reflexivity. Qed.

Lemma method2_some {E : env} (Hout : stdout_open E) (c : str) {r v : json} (w : world)
  (Hr : truthy r = false) (H : loads (text_limits E) (App.clean_content c) = Value v) :
  App.method2 E c r w
  = (Ret v, say w [Print [Lit "Markdown removal parsing successful"]]).
Proof.
  unfold App.method2. rewrite Hr. apply try_ret.
  rewrite (bind_run _ (json_loads_some _ H)).
  rewrite (bind_run _ (print_run Hout _ _)). reflexivity.
Qed.

Lemma method2_none {E : env} (c : str) {r : json} (w : world)
  (Hr : truthy r = false) (H : loads (text_limits E) (App.clean_content c) = Invalid) :
  App.method2 E c r w = (Ret r, w).
Proof.
  unfold App.method2. rewrite Hr.
  rewrite (try_caught _ (bind_raise _ (json_loads_none _ H))); reflexivity.
Qed.

Lemma method3_some {E : env} (Hout : stdout_open E) (c : str) {r v : json} {m : str} (w : world)
  (Hr : truthy r = false) (Hm : App.regex_match c = Some m)
  (H : loads (text_limits E) m = Value v) :
  App.method3 E c r w
  = (Ret v, say w [Print [Lit "Regex extraction parsing successful"]]).
Proof.
  unfold App.method3. rewrite Hr, Hm. apply try_ret.
  rewrite (bind_run _ (json_loads_some _ H)).
  rewrite (bind_run _ (print_run Hout _ _)). reflexivity.
Qed.

Lemma method3_none {E : env} (c : str) {r : json} {m : str} (w : world)
  (Hr : truthy r = false) (Hm : App.regex_match c = Some m)
  (H : loads (text_limits E) m = Invalid) :
  App.method3 E c r w = (Ret r, w).
Proof.
  unfold App.method3. rewrite Hr, Hm.
  rewrite (try_caught _ (bind_raise _ (json_loads_none _ H))); reflexivity.
Qed.

Lemma method3_no_match {E : env} (c : str) {r : json} (w : world)
  (Hr : truthy r = false) (Hm : App.regex_match c = None) :
  App.method3 E c r w = (Ret r, w).
Proof. unfold App.method3. rewrite Hr, Hm. reflexivity. Qed.

Lemma cascade_direct {E : env} (Hout : stdout_open E) {c : str} {v : json} (w : world)
  (H : loads (text_limits E) c = Value v) (Ht : truthy v = true) :
  App.cascade E c w
  = (Ret v, say w [Print [Lit "Direct JSON parsing successful"]]).
Proof.
  unfold App.cascade.
  rewrite (bind_run _ (method1_some Hout _ _ H)).
  rewrite (bind_run _ (method2_truthy _ _ Ht)).
  apply method3_truthy. exact Ht.
Qed.

Lemma lower_neutral : PyStr.lower "neutral" = "neutral".
Proof. reflexivity. Qed.

Lemma validate_object {E : env} (Hout : stdout_open E) (c : str) {o : dict} {v : str} (w : world)
  (Hs : dict_has o "summary" = true)
  (Hv : dict_get o "sentiment" = Some (JStr v)) :
  App.validate E c (JObj o) w
  = (Ret (Some (JObj (dict_set o "sentiment" (JStr (final_sentiment v)))), None),
     say w (validate_output o v)).
Proof.
  unfold App.validate.
  rewrite (dict_has_truthy _ _ Hs). cbn [negb].
  unfold bind at 1. cbn [contains ret]. rewrite Hs. cbn [negb].
  unfold bind at 1. unfold bind at 1. cbn [contains ret].
  rewrite (dict_get_has _ _ _ Hv). cbn [negb].
  unfold bind at 1. cbn [getitem]. rewrite Hv. cbn [ret].
  unfold bind at 1. cbn [method_lower ret].
  unfold validate_output, final_sentiment.
  destruct (existsb (PyStr.eqb (PyStr.lower v)) App.valid_sentiments) eqn:Hvalid;
    cbn [negb].
  - unfold bind at 1. cbn [ret].
    unfold bind at 1. cbn [getitem]. rewrite Hv. cbn [ret].
    unfold bind at 1. cbn [method_lower ret].
    unfold bind at 1. cbn [setitem ret].
    rewrite (bind_run _ (print_run Hout _ _)). reflexivity.
  - unfold bind at 1. rewrite (bind_run _ (print_run Hout _ _)). cbn [setitem ret fmt].
    unfold bind at 1. cbn [getitem]. rewrite dict_get_set_same. cbn [ret].
    unfold bind at 1. cbn [method_lower ret]. rewrite lower_neutral.
    unfold bind at 1. cbn [setitem ret]. rewrite dict_set_set.
    rewrite (bind_run _ (print_run Hout _ _)). cbn [ret fmt]. rewrite say_say.
    reflexivity.
Qed.

Lemma reply_content_run {data : json} {reply : str} (w : world)
  (H : content_of data = Some (JStr reply)) :
  App.reply_content data w = (Ret (PyStr.strip reply), w).
Proof.
  unfold content_of in H. unfold App.reply_content.
  destruct data as [| | | | | | | |d]; try discriminate.
  destruct (dict_get d "choices") as [a|] eqn:Ha; [|discriminate].
  destruct a as [| | | | | | |l|]; try discriminate.
  destruct l as [|b l]; [discriminate|].
  destruct b as [| | | | | | | |c]; try discriminate.
  destruct (dict_get c "message") as [m|] eqn:Hm; [|discriminate].
  destruct m as [| | | | | | | |m]; try discriminate.
  unfold bind, getitem, getitem0, ret. rewrite Ha. simpl.
  rewrite Hm. simpl. rewrite H. reflexivity.
Qed.

Lemma app_analyze_answered (E : env) (Hout : stdout_open E) (t : str) (w : world)
  (reply : str)
  (Hkey : App.no_api_key E = false) (Hans : answers E w reply) :
  App.analyze_with_groq E t w
  = guarded (App.rescue E (PyStr.strip reply)) (posted t w).
Proof.
  destruct Hans as (r & data & Hpost & Hok & Hload & Hcontent).
  unfold App.analyze_with_groq, guarded. rewrite Hkey.
  unfold try_except.
  match goal with
  | |- (match ?a with _ => _ end) = (match ?b with _ => _ end) =>
      replace a with b; [reflexivity|]
  end.
  rewrite (bind_run _ (print_run Hout _ _)).
  unfold bind at 1. unfold post. cbn [say posts csv out]. rewrite Hpost.
  rewrite Hok. cbn [negb].
  unfold bind at 1. unfold response_json. rewrite Hload. cbn [ret].
  rewrite (bind_run _ (reply_content_run _ Hcontent)).
  unfold posted. rewrite <- app_assoc. reflexivity.
Qed.

Lemma app_rescue_object {E : env} (Hout : stdout_open E) {content : str} {o : dict} {v : str} (w : world)
  (Hl : loads (text_limits E) content = Value (JObj o))
  (Hs : dict_has o "summary" = true)
  (Hv : dict_get o "sentiment" = Some (JStr v)) :
  fst (App.rescue E content w)
  = Ret (Some (JObj (dict_set o "sentiment" (JStr (final_sentiment v)))), None).
Proof.
  unfold App.rescue.
  rewrite (bind_run _ (print_run Hout _ _)).
  rewrite (bind_run _ (cascade_direct Hout _ Hl (dict_has_truthy _ _ Hs))).
  rewrite (validate_object Hout _ _ Hs Hv). reflexivity.
Qed.

Lemma guarded_ret {m : M (option json * option message)} {w : world}
  {p : option json * option message}
  (H : fst (m w) = Ret p) : fst (guarded m w) = Ret p.
Proof.
  unfold guarded, try_except. destruct (m w) as [[a|e] w'];
    simpl in *; [exact H|discriminate].
Qed.

Lemma guarded_raise {m : M (option json * option message)} {w : world}
  {e : exn}
  (H : fst (m w) = Raise e) :
  fst (guarded m w) = Ret (None, Some (Lit "Unexpected error: " :: str_exn e)).
Proof.
  unfold guarded, try_except. destruct (m w) as [[a|e'] w'];
    simpl in *; [discriminate|]. inversion H; subst. reflexivity.
Qed.

(* ================================================================== *)
(** * [_parse_response], step by step *)

Lemma parse_response_content {E : env} {data : json} {reply : str} (w : world)
  (H : content_of data = Some (JStr reply)) :
  Utils._parse_response E data w = Utils.parse_content E (PyStr.strip reply) w.
Proof.
  unfold content_of in H. unfold Utils._parse_response.
  destruct data as [| | | | | | | |d]; try discriminate.
  destruct (dict_get d "choices") as [a|] eqn:Ha; [|discriminate].
  destruct a as [| | | | | | |l|]; try discriminate.
  destruct l as [|b l]; [discriminate|].
  destruct b as [| | | | | | | |c]; try discriminate.
  destruct (dict_get c "message") as [m|] eqn:Hm; [|discriminate].
  destruct m as [| | | | | | | |m]; try discriminate.
  unfold bind at 1. unfold getitem at 1. rewrite Ha. cbn [ret].
  unfold bind at 1. cbn [getitem0 ret].
  unfold bind at 1. unfold getitem at 1. rewrite Hm. cbn [ret].
  unfold bind at 1. unfold getitem at 1. rewrite H. cbn [ret].
  unfold bind at 1. reflexivity.
Qed.

Lemma strip_code_block_valid {L : limits} {c : str} {v : json}
  (H : loads L c = Value v) :
  Utils.strip_code_block c = c.
Proof.
  unfold Utils.strip_code_block.
  destruct (PyStr.startswith c "```") eqn:Hf; [|reflexivity].
  rewrite (loads_backquote L _ Hf) in H. discriminate.
Qed.

Lemma extract_direct {E : env} {c : str} {v : json} (w : world)
  (H : loads (text_limits E) c = Value v) :
  Utils.extract E c w = (Ret v, w).
Proof. unfold Utils.extract. apply try_ret. apply json_loads_some. exact H. Qed.

Lemma utils_validate_object {o : dict} {v : str} (w : world)
  (Hs : dict_has o "summary" = true)
  (Hv : dict_get o "sentiment" = Some (JStr v)) :
  fst (Utils.validate (JObj o) w)
  = Ret (JObj (if existsb (PyStr.eqb v) Utils.sentiment_values then o
               else dict_set o "sentiment" (JStr "neutral"))).
Proof.
  unfold Utils.validate, Utils.require_fields.
  unfold bind at 1. unfold bind at 1. cbn [contains ret]. rewrite Hs.
  cbn [negb].
  unfold bind at 1. cbn [contains ret]. rewrite (dict_get_has _ _ _ Hv).
  cbn [negb ret].
  unfold bind at 1. unfold getitem. rewrite Hv. cbn [ret in_strs].
  destruct (existsb (PyStr.eqb v) Utils.sentiment_values); cbn [negb].
  - reflexivity.
  - rewrite (bind_run _ (log_run _ _ _)). reflexivity.
Qed.

Lemma parse_content_object {E : env} {content : str} {o : dict} {v : str}
  (w : world)
  (Hl : loads (text_limits E) content = Value (JObj o))
  (Hs : dict_has o "summary" = true)
  (Hv : dict_get o "sentiment" = Some (JStr v)) :
  fst (Utils.parse_content E content w)
  = Ret (JObj (if existsb (PyStr.eqb v) Utils.sentiment_values then o
               else dict_set o "sentiment" (JStr "neutral"))).
Proof.
  unfold Utils.parse_content. rewrite (strip_code_block_valid Hl).
  unfold try_except at 1.
  rewrite (bind_run _ (extract_direct _ Hl)).
  pose proof (utils_validate_object w Hs Hv) as H.
  destruct (Utils.validate (JObj o) w) as [[a|e] w']; simpl in H;
    [|discriminate].
  exact H.
Qed.

(* ================================================================== *)
(** * The matcher *)

Lemma match_here_star_nil (k : Re.cset) (r : Re.regex) :
  Re.match_here (Re.Star k :: r) [] = Re.match_here r [].
Proof. reflexivity. Qed.

Lemma match_here_star_cons (k : Re.cset) (r : Re.regex) (x : char) (s : str) :
  Re.match_here (Re.Star k :: r) (x :: s)
  = if Re.cset_mem k x then
      match Re.match_here (Re.Star k :: r) s with
      | Some n => Some (S n)
      | None => Re.match_here r (x :: s)
      end
    else Re.match_here r (x :: s).
Proof. reflexivity. Qed.

Lemma match_here_lazy (k : Re.cset) (r : Re.regex) (s : str) :
  Re.match_here (Re.StarLazy k :: r) s
  = match Re.match_here r s with
    | Some n => Some n
    | None =>
        match s with
        | x :: s' =>
            if Re.cset_mem k x
            then option_map S (Re.match_here (Re.StarLazy k :: r) s')
            else None
        | [] => None
        end
    end.
Proof. destruct s; reflexivity. Qed.

Lemma match_here_one (k : Re.cset) (r : Re.regex) (s : str) :
  Re.match_here (Re.One k :: r) s
  = match s with
    | x :: s' =>
        if Re.cset_mem k x then option_map S (Re.match_here r s') else None
    | [] => None
    end.
Proof. reflexivity. Qed.

(** What the matcher finds is a word of the pattern at the start of the
    text. *)
Lemma match_here_sound (r : Re.regex) :
  forall (s : str) (n : nat),
    Re.match_here r s = Some n ->
    exists u rest, s = u ++ rest /\ length u = n /\ matches r u.
Proof.
  induction r as [|[k|k|k] r IH]; intros s n H.
  - inversion H; subst. exists [], s. repeat split. constructor.
  - rewrite match_here_one in H. destruct s as [|x s]; [discriminate|].
    destruct (Re.cset_mem k x) eqn:Hk; [|discriminate].
    destruct (Re.match_here r s) as [n'|] eqn:Hr; [|discriminate].
    inversion H; subst.
    destruct (IH _ _ Hr) as (u & rest & -> & Hlen & Hm).
    exists (x :: u), rest.
    split; [reflexivity|]. split; [simpl; congruence|].
    constructor; assumption.
  - revert n H. induction s as [|x s IHs]; intros n H.
    + rewrite match_here_star_nil in H.
      destruct (IH _ _ H) as (u & rest & He & Hlen & Hm).
      exists u, rest. repeat split; try assumption.
      apply (matches_star k r [] u); [constructor|assumption].
    + rewrite match_here_star_cons in H.
      assert (Hskip : Re.match_here r (x :: s) = Some n ->
                      exists u rest, x :: s = u ++ rest /\ length u = n
                                     /\ matches (Re.Star k :: r) u).
      { intros H'. destruct (IH _ _ H') as (u & rest & He & Hlen & Hm).
        exists u, rest. repeat split; try assumption.
        apply (matches_star k r [] u); [constructor|assumption]. }
      destruct (Re.cset_mem k x) eqn:Hk; [|auto].
      destruct (Re.match_here (Re.Star k :: r) s) as [n'|] eqn:Hs; [|auto].
      inversion H; subst.
      destruct (IHs _ eq_refl) as (u & rest & -> & Hlen & Hm).
      inversion Hm; subst.
      exists (x :: a ++ u0), rest.
      split; [reflexivity|]. split; [reflexivity|].
      apply (matches_star k r (x :: a) u0); [constructor|]; assumption.
  - revert n H. induction s as [|x s IHs]; intros n H;
      rewrite match_here_lazy in H.
    + destruct (Re.match_here r []) as [n'|] eqn:Hr; [|discriminate].
      inversion H; subst.
      destruct (IH _ _ Hr) as (u & rest & He & Hlen & Hm).
      exists u, rest. repeat split; try assumption.
      apply (matches_lazy k r [] u); [constructor|assumption].
    + destruct (Re.match_here r (x :: s)) as [n'|] eqn:Hr.
      * inversion H; subst.
        destruct (IH _ _ Hr) as (u & rest & He & Hlen & Hm).
        exists u, rest. repeat split; try assumption.
        apply (matches_lazy k r [] u); [constructor|assumption].
      * destruct (Re.cset_mem k x) eqn:Hk; [|discriminate].
        destruct (Re.match_here (Re.StarLazy k :: r) s) as [n'|] eqn:Hs;
          [|discriminate].
        inversion H; subst.
        destruct (IHs _ eq_refl) as (u & rest & -> & Hlen & Hm).
        inversion Hm; subst.
        exists (x :: a ++ u0), rest.
        split; [reflexivity|]. split; [reflexivity|].
        apply (matches_lazy k r (x :: a) u0); [constructor|]; assumption.
Qed.

(** Where a word of the pattern starts the text, the matcher finds a
    match. *)
Lemma match_here_complete (r : Re.regex) (u : str) (H : matches r u) :
  forall rest, exists n, Re.match_here r (u ++ rest) = Some n.
Proof.
  induction H as [|k x r u Hk Hm IH|k r a u Ha Hm IH|k r a u Ha Hm IH];
    intros rest.
  - exists 0%nat. reflexivity.
  - destruct (IH rest) as (n & Hn).
    exists (S n). cbn [app]. rewrite match_here_one, Hk, Hn. reflexivity.
  - induction Ha as [|x a Hx Ha IHa]; cbn [app].
    + destruct (IH rest) as (n & Hn).
      destruct (u ++ rest) as [|y s] eqn:Hs.
      * exists n. rewrite match_here_star_nil. exact Hn.
      * rewrite match_here_star_cons.
        destruct (Re.cset_mem k y); [|eauto].
        destruct (Re.match_here (Re.Star k :: r) s); eauto.
    + destruct IHa as (n & Hn). rewrite <- app_assoc in Hn.
      rewrite <- app_assoc.
      rewrite match_here_star_cons, Hx, Hn. eauto.
  - induction Ha as [|x a Hx Ha IHa]; cbn [app].
    + destruct (IH rest) as (n & Hn).
      rewrite match_here_lazy, Hn. eauto.
    + destruct IHa as (n & Hn). rewrite <- app_assoc in Hn.
      rewrite <- app_assoc. rewrite match_here_lazy.
      destruct (Re.match_here r (x :: a ++ u ++ rest)); [eauto|].
      rewrite Hx, Hn. simpl. eauto.
Qed.

(** ** The leftmost match *)

Lemma search_unfold (r : Re.regex) (s : str) :
  Re.search r s
  = match Re.match_here r s with
    | Some n => Some (firstn n s)
    | None =>
        match s with
        | [] => None
        | _ :: s' => Re.search r s'
        end
    end.
Proof. destruct s; reflexivity. Qed.

Lemma search_found (r : Re.regex) :
  forall (s m : str),
    Re.search r s = Some m ->
    exists pre t n,
      s = pre ++ t /\ Re.match_here r t = Some n /\ m = firstn n t
      /\ forall pre1 pre2, pre = pre1 ++ pre2 -> pre2 <> [] ->
                           Re.match_here r (pre2 ++ t) = None.
Proof.
  induction s as [|x s IH]; intros m H; rewrite search_unfold in H.
  - destruct (Re.match_here r []) as [n|] eqn:Hm; [|discriminate].
    inversion H; subst. exists [], [], n. repeat split; try assumption.
    intros [|? ?] [|? ?] He Hne; try discriminate. congruence.
  - destruct (Re.match_here r (x :: s)) as [n|] eqn:Hm.
    + inversion H; subst. exists [], (x :: s), n.
      repeat split; try assumption.
      intros [|? ?] [|? ?] He Hne; try discriminate. congruence.
    + destruct (IH _ H) as (pre & t & n & -> & Ht & -> & Hleft).
      exists (x :: pre), t, n. repeat split; try assumption.
      intros [|y pre1] pre2 He Hne.
      * simpl in He. subst pre2. exact Hm.
      * inversion He; subst. apply (Hleft pre1 pre2 eq_refl Hne).
Qed.

Lemma search_leftmost (r : Re.regex) (t : str) (n : nat)
  (Ht : Re.match_here r t = Some n) :
  forall pre,
    (forall pre1 pre2, pre = pre1 ++ pre2 -> pre2 <> [] ->
                       Re.match_here r (pre2 ++ t) = None) ->
    Re.search r (pre ++ t) = Some (firstn n t).
Proof.
  induction pre as [|x pre IH]; intros Hleft.
  - cbn [app]. rewrite search_unfold, Ht. reflexivity.
  - rewrite search_unfold.
    rewrite (Hleft [] (x :: pre) eq_refl) by discriminate.
    cbn [app]. apply IH. intros pre1 pre2 He Hne.
    apply (Hleft (x :: pre1) pre2); [subst; reflexivity|exact Hne].
Qed.

Lemma search_nowhere (r : Re.regex) :
  forall s,
    (forall pre t, s = pre ++ t -> Re.match_here r t = None) ->
    Re.search r s = None.
Proof.
  induction s as [|x s IH]; intros H; rewrite search_unfold.
  - rewrite (H [] [] eq_refl). reflexivity.
  - rewrite (H [] (x :: s) eq_refl). apply IH.
    intros pre t He. apply (H (x :: pre) t). subst. reflexivity.
Qed.

(** A pattern that starts with the character [c] matches nowhere before
    the first [c]. *)
Lemma search_skip (c : char) (r : Re.regex) (t : str) :
  forall pre, ~ In c pre ->
    Re.search (Re.One (Re.CIs c) :: r) (pre ++ t)
    = Re.search (Re.One (Re.CIs c) :: r) t.
Proof.
  induction pre as [|x pre IH]; intros Hn; [reflexivity|].
  cbn [app]. rewrite search_unfold, match_here_one. cbn [Re.cset_mem].
  destruct (PyStr.chr_eqb x c) eqn:Hx.
  - apply chr_eqb_eq in Hx. subst. exfalso. apply Hn. left. reflexivity.
  - apply IH. intros Hin. apply Hn. right. exact Hin.
Qed.

(** ** Splitting a text at the first or last occurrence of a character *)

Lemma first_occurrence (x : char) :
  forall s, In x s -> exists pre t, s = pre ++ x :: t /\ ~ In x pre.
Proof.
  induction s as [|y s IH]; intros H; [contradiction|].
  destruct (N.eq_dec y x) as [->|Hne].
  - exists [], s. split; [reflexivity|]. intros [].
  - destruct H as [H|H]; [contradiction|].
    destruct (IH H) as (pre & t & -> & Hn).
    exists (y :: pre), t. split; [reflexivity|].
    intros [Hy|Hy]; [contradiction|]. exact (Hn Hy).
Qed.

Lemma first_split_unique (x : char) :
  forall a r a' r',
    a ++ x :: r = a' ++ x :: r' -> ~ In x a -> ~ In x a' ->
    a = a' /\ r = r'.
Proof.
  induction a as [|y a IH]; intros r [|y' a'] r' He Ha Ha'; cbn [app] in He.
  - inversion He. split; reflexivity.
  - inversion He; subst. exfalso. apply Ha'. left. reflexivity.
  - inversion He; subst. exfalso. apply Ha. left. reflexivity.
  - inversion He; subst.
    destruct (IH r a' r' H1) as [-> ->].
    + intros Hin. apply Ha. right. exact Hin.
    + intros Hin. apply Ha'. right. exact Hin.
    + split; reflexivity.
Qed.

Lemma last_split_unique (x : char) (a r a' r' : str) :
  a ++ x :: r = a' ++ x :: r' -> ~ In x r -> ~ In x r' ->
  a = a' /\ r = r'.
Proof.
  intros He Hr Hr'.
  apply (f_equal (@rev char)) in He.
  rewrite !rev_app_distr in He. cbn [rev] in He.
  rewrite <- !app_assoc in He. cbn [app] in He.
  destruct (first_split_unique x (rev r) (rev a) (rev r') (rev a') He)
    as [H1 H2].
  - rewrite <- in_rev. exact Hr.
  - rewrite <- in_rev. exact Hr'.
  - apply (f_equal (@rev char)) in H1, H2.
    rewrite !rev_involutive in H1, H2. split; assumption.
Qed.

Lemma firstn_span (a : str) (x : char) (rest : str) :
  firstn (S (length a)) (a ++ x :: rest) = a ++ [x].
Proof.
  induction a as [|y a IH]; [reflexivity|].
  cbn [length app]. rewrite firstn_cons, IH. reflexivity.
Qed.

(** ** The two brace patterns *)

Lemma close_here (s : str) :
  Re.match_here [Re.One (Re.CIs rbrace)] s
  = match s with
    | x :: _ => if PyStr.chr_eqb x rbrace then Some 1%nat else None
    | [] => None
    end.
Proof.
  rewrite match_here_one. destruct s as [|x s]; [reflexivity|].
  cbn [Re.cset_mem]. destruct (PyStr.chr_eqb x rbrace); reflexivity.
Qed.

(** After the opening brace, the lazy pattern stops at the first closing
    brace. *)
Lemma lazy_tail (s : str) :
  (~ In rbrace s
   /\ Re.match_here [Re.StarLazy Re.CAny; Re.One (Re.CIs rbrace)] s = None)
  \/ (exists a rest,
        s = a ++ rbrace :: rest /\ ~ In rbrace a
        /\ Re.match_here [Re.StarLazy Re.CAny; Re.One (Re.CIs rbrace)] s
           = Some (S (length a))).
Proof.
  induction s as [|x s IH]; rewrite match_here_lazy, close_here.
  - left. split; [intros []|reflexivity].
  - destruct (PyStr.chr_eqb x rbrace) eqn:Hx.
    + apply chr_eqb_eq in Hx. subst x. right. exists [], s.
      repeat split. intros [].
    + apply chr_eqb_neq in Hx. cbn [Re.cset_mem].
      destruct IH as [[Hn Hm]|(a & rest & -> & Hn & Hm)]; rewrite Hm.
      * left. split; [|reflexivity]. intros [H|H]; [congruence|exact (Hn H)].
      * right. exists (x :: a), rest. repeat split.
        intros [H|H]; [congruence|exact (Hn H)].
Qed.

(** After the opening brace, the greedy pattern stops at the last closing
    brace. *)
Lemma greedy_tail (s : str) :
  (~ In rbrace s
   /\ Re.match_here [Re.Star Re.CAny; Re.One (Re.CIs rbrace)] s = None)
  \/ (exists a rest,
        s = a ++ rbrace :: rest /\ ~ In rbrace rest
        /\ Re.match_here [Re.Star Re.CAny; Re.One (Re.CIs rbrace)] s
           = Some (S (length a))).
Proof.
  induction s as [|x s IH].
  - left. split; [intros []|reflexivity].
  - rewrite match_here_star_cons. cbn [Re.cset_mem].
    destruct IH as [[Hn Hm]|(a & rest & -> & Hn & Hm)]; rewrite Hm.
    + rewrite close_here.
      destruct (PyStr.chr_eqb x rbrace) eqn:Hx.
      * apply chr_eqb_eq in Hx. subst x. right. exists [], s.
        repeat split. exact Hn.
      * apply chr_eqb_neq in Hx. left. split; [|reflexivity].
        intros [H|H]; [congruence|exact (Hn H)].
    + right. exists (x :: a), rest. repeat split. exact Hn.
Qed.

Section BraceSearch.

(** A pattern made of the opening brace and a tail that, from any text,
    either finds no closing brace at all or stops after the closing brace
    that [P] picks. *)
Variable tail : Re.regex.
Variable P : str -> str -> Prop.

Hypothesis tail_spec : forall s,
  (~ In rbrace s /\ Re.match_here tail s = None)
  \/ (exists a rest, s = a ++ rbrace :: rest /\ P a rest
                     /\ Re.match_here tail s = Some (S (length a))).

Hypothesis pick_unique : forall a r a' r',
  a ++ rbrace :: r = a' ++ rbrace :: r' -> P a r -> P a' r' ->
  a = a' /\ r = r'.

Let pat : Re.regex := Re.One (Re.CIs lbrace) :: tail.

Lemma brace_here (x : char) (s : str) :
  Re.match_here pat (x :: s)
  = if PyStr.chr_eqb x lbrace then option_map S (Re.match_here tail s)
    else None.
Proof. reflexivity. Qed.

Lemma brace_span_unique (s m m' : str) :
  brace_span P s m -> brace_span P s m' -> m = m'.
Proof.
  intros (pre & body & post & -> & Hpre & HP & ->)
         (pre' & body' & post' & He & Hpre' & HP' & ->).
  destruct (first_split_unique lbrace _ _ _ _ He Hpre Hpre') as [_ Hb].
  destruct (pick_unique _ _ _ _ Hb HP HP') as [-> _]. reflexivity.
Qed.

Lemma no_close_no_match (t : str) (Hn : ~ In rbrace t) :
  Re.search pat t = None.
Proof.
  apply search_nowhere. intros pre [|x t2] He; [reflexivity|].
  rewrite brace_here. destruct (PyStr.chr_eqb x lbrace); [|reflexivity].
  destruct (tail_spec t2) as [[_ Hm]|(a & rest & Ha & _ & _)].
  - rewrite Hm. reflexivity.
  - exfalso. apply Hn. subst. rewrite in_app_iff. right. right.
    rewrite in_app_iff. right. left. reflexivity.
Qed.

Lemma brace_search_cases (s : str) :
  (Re.search pat s = None /\ forall m, ~ brace_span P s m)
  \/ (exists m, Re.search pat s = Some m /\ brace_span P s m).
Proof.
  destruct (in_dec N.eq_dec lbrace s) as [Hin|Hnin].
  - destruct (first_occurrence lbrace s Hin) as (pre & t & -> & Hpre).
    unfold pat. rewrite (search_skip lbrace tail _ pre Hpre). fold pat.
    rewrite search_unfold, brace_here, chr_eqb_refl.
    destruct (tail_spec t) as [[Hn Hm]|(a & rest & -> & HP & Hm)]; rewrite Hm.
    + left. cbn [option_map]. split; [apply no_close_no_match; exact Hn|].
      intros m (pre' & body & post & He & Hpre' & _ & _).
      destruct (first_split_unique lbrace _ _ _ _ He Hpre Hpre') as [_ Ht].
      apply Hn. rewrite Ht, in_app_iff. right. left. reflexivity.
    + right. exists (lbrace :: a ++ [rbrace]). cbn [option_map].
      rewrite firstn_cons, firstn_span. split; [reflexivity|].
      exists pre, a, rest. repeat split; assumption.
  - left. split.
    + rewrite <- (app_nil_r s). unfold pat.
      rewrite (search_skip lbrace tail [] s Hnin). reflexivity.
    + intros m (pre & body & post & -> & _). apply Hnin.
      rewrite in_app_iff. right. left. reflexivity.
Qed.

Lemma brace_search_found (s m : str) (H : brace_span P s m) :
  Re.search pat s = Some m.
Proof.
  destruct (brace_search_cases s) as [[_ Hno]|(m' & Hs & Hspan)].
  - exfalso. exact (Hno m H).
  - rewrite Hs. f_equal. exact (brace_span_unique s m' m Hspan H).
Qed.

Lemma brace_search_none (s : str) (H : forall m, ~ brace_span P s m) :
  Re.search pat s = None.
Proof.
  destruct (brace_search_cases s) as [[Hs _]|(m' & _ & Hspan)].
  - exact Hs.
  - exfalso. exact (H m' Hspan).
Qed.

End BraceSearch.

Lemma search_lazy_found (s m : str) (H : first_open_to_first_close s m) :
  Re.search Re.braces_lazy s = Some m.
Proof.
  apply (brace_search_found _ (fun body _ => ~ In rbrace body)).
  - exact lazy_tail.
  - intros a r a' r' He Ha Ha'. exact (first_split_unique rbrace a r a' r' He Ha Ha').
  - exact H.
Qed.

Lemma search_lazy_none (s : str)
  (H : forall m, ~ first_open_to_first_close s m) :
  Re.search Re.braces_lazy s = None.
Proof.
  apply (brace_search_none _ (fun body _ => ~ In rbrace body)).
  - exact lazy_tail.
  - exact H.
Qed.

Lemma search_greedy_found (s m : str) (H : first_open_to_last_close s m) :
  Re.search Re.braces_greedy s = Some m.
Proof.
  apply (brace_search_found _ (fun _ post => ~ In rbrace post)).
  - exact greedy_tail.
  - intros a r a' r' He Hr Hr'. exact (last_split_unique rbrace a r a' r' He Hr Hr').
  - exact H.
Qed.

Lemma search_greedy_none (s : str)
  (H : forall m, ~ first_open_to_last_close s m) :
  Re.search Re.braces_greedy s = None.
Proof.
  apply (brace_search_none _ (fun _ post => ~ In rbrace post)).
  - exact greedy_tail.
  - exact H.
Qed.

(** ** The narrow pattern *)

Lemma matches_one_inv (k : Re.cset) (r : Re.regex) (u : str)
  (H : matches (Re.One k :: r) u) :
  exists x u', u = x :: u' /\ Re.cset_mem k x = true /\ matches r u'.
Proof. inversion H; subst. eauto. Qed.

Lemma matches_star_inv (k : Re.cset) (r : Re.regex) (u : str)
  (H : matches (Re.Star k :: r) u) :
  exists a u',
    u = a ++ u' /\ Forall (fun x => Re.cset_mem k x = true) a /\ matches r u'.
Proof. inversion H; subst. eauto. Qed.

Lemma matches_literal_inv (l : str) (r : Re.regex) :
  forall u, matches (Re.literal l ++ r) u ->
            exists u', u = l ++ u' /\ matches r u'.
Proof.
  induction l as [|c l IH]; intros u H; cbn [Re.literal map app] in H.
  - exists u. split; [reflexivity|exact H].
  - apply matches_one_inv in H. destruct H as (x & u1 & -> & Hx & H).
    cbn [Re.cset_mem] in Hx. apply chr_eqb_eq in Hx. subst x.
    destruct (IH _ H) as (u' & -> & Hm). exists u'. split; [reflexivity|exact Hm].
Qed.

Lemma matches_literal (l : str) (r : Re.regex) (u : str) (H : matches r u) :
  matches (Re.literal l ++ r) (l ++ u).
Proof.
  induction l as [|c l IH]; cbn [Re.literal map app]; [exact H|].
  apply matches_one; [apply chr_eqb_refl|exact IH].
Qed.

Lemma not_close_forall (a : str) :
  Forall (fun x => Re.cset_mem (Re.CNot rbrace) x = true) a <-> ~ In rbrace a.
Proof.
  rewrite Forall_forall. cbn [Re.cset_mem]. split.
  - intros H Hin. specialize (H _ Hin). rewrite chr_eqb_refl in H.
    discriminate.
  - intros H x Hx. destruct (PyStr.chr_eqb x rbrace) eqn:He; [|reflexivity].
    apply chr_eqb_eq in He. subst. contradiction.
Qed.

Lemma keys_without_close :
  ~ In rbrace summary_key /\ ~ In rbrace sentiment_key.
Proof.
  split; vm_compute; intros H;
    repeat (destruct H as [H|H]; [discriminate|]); exact H.
Qed.

(** The words of the narrow pattern. *)
Lemma narrow_words (u : str) :
  matches Re.narrow u
  <-> exists a b c,
        ~ In rbrace a /\ ~ In rbrace b /\ ~ In rbrace c
        /\ u = lbrace :: a ++ summary_key ++ b ++ sentiment_key ++ c ++ [rbrace].
Proof.
  unfold Re.narrow. split.
  - intros H.
    apply matches_one_inv in H. destruct H as (x & u1 & -> & Hx & H).
    cbn [Re.cset_mem] in Hx. apply chr_eqb_eq in Hx. subst x.
    apply matches_star_inv in H. destruct H as (a & u2 & -> & Ha & H).
    apply matches_literal_inv in H. destruct H as (u3 & -> & H).
    apply matches_star_inv in H. destruct H as (b & u4 & -> & Hb & H).
    apply matches_literal_inv in H. destruct H as (u5 & -> & H).
    apply matches_star_inv in H. destruct H as (c & u6 & -> & Hc & H).
    apply matches_one_inv in H. destruct H as (y & u7 & -> & Hy & H).
    cbn [Re.cset_mem] in Hy. apply chr_eqb_eq in Hy. subst y.
    inversion H; subst.
    exists a, b, c. rewrite <- !not_close_forall. repeat split; assumption.
  - intros (a & b & c & Ha & Hb & Hc & ->).
    rewrite <- not_close_forall in Ha, Hb, Hc.
    apply matches_one; [apply chr_eqb_refl|].
    apply matches_star; [exact Ha|].
    apply matches_literal.
    apply matches_star; [exact Hb|].
    apply matches_literal.
    apply matches_star; [exact Hc|].
    apply matches_one; [apply chr_eqb_refl|constructor].
Qed.

Lemma keyed_span_words (t m : str) :
  keyed_span t m <-> (exists post, t = m ++ post) /\ matches Re.narrow m.
Proof.
  destruct keys_without_close as [Hks Hkt].
  rewrite narrow_words. split.
  - intros (a & b & c & post & Ht & Hn & ->). cbv zeta in *.
    rewrite !in_app_iff in Hn. split.
    + exists post. rewrite Ht. cbn [app]. rewrite <- !app_assoc. reflexivity.
    + exists a, b, c. repeat split; try tauto.
      rewrite <- !app_assoc. reflexivity.
  - intros ((post & ->) & (a & b & c & Ha & Hb & Hc & ->)).
    exists a, b, c, post. cbv zeta. repeat split.
    + cbn [app]. rewrite <- !app_assoc. reflexivity.
    + rewrite !in_app_iff. tauto.
    + rewrite <- !app_assoc. reflexivity.
Qed.

Lemma keyed_span_unique (t m m' : str) :
  keyed_span t m -> keyed_span t m' -> m = m'.
Proof.
  intros (a & b & c & post & Ht & Hn & ->)
         (a' & b' & c' & post' & Ht' & Hn' & ->). cbv zeta in *.
  rewrite Ht in Ht'. inversion Ht' as [He].
  destruct (first_split_unique rbrace _ _ _ _ He Hn Hn') as [Hb _].
  apply (f_equal (fun x => lbrace :: x ++ [rbrace])) in Hb. exact Hb.
Qed.

Lemma narrow_here (t : str) (n : nat)
  (H : Re.match_here Re.narrow t = Some n) : keyed_span t (firstn n t).
Proof.
  destruct (match_here_sound _ _ _ H) as (u & rest & -> & Hlen & Hm).
  rewrite <- Hlen, firstn_app, firstn_all, Nat.sub_diag, firstn_O, app_nil_r.
  apply keyed_span_words. split; [exists rest; reflexivity|exact Hm].
Qed.

Lemma narrow_here_complete (t m : str) (H : keyed_span t m) :
  exists n, Re.match_here Re.narrow t = Some n /\ firstn n t = m.
Proof.
  pose proof H as H'.
  apply keyed_span_words in H'. destruct H' as ((post & ->) & Hm).
  destruct (match_here_complete _ _ Hm post) as (n & Hn).
  exists n. split; [exact Hn|].
  exact (keyed_span_unique _ _ _ (narrow_here _ _ Hn) H).
Qed.

Lemma narrow_search_found (s m : str) (H : first_keyed_span s m) :
  Re.search Re.narrow s = Some m.
Proof.
  destruct H as (pre & t & -> & Hspan & Hleft).
  destruct (narrow_here_complete t m Hspan) as (n & Hn & <-).
  apply search_leftmost; [exact Hn|].
  intros pre1 pre2 He Hne.
  destruct (Re.match_here Re.narrow (pre2 ++ t)) as [n'|] eqn:Hm;
    [|reflexivity].
  exfalso. exact (Hleft pre1 pre2 He Hne _ (narrow_here _ _ Hm)).
Qed.

Lemma narrow_search_none (s : str) (H : forall m, ~ first_keyed_span s m) :
  Re.search Re.narrow s = None.
Proof.
  destruct (Re.search Re.narrow s) as [m|] eqn:Hs; [|reflexivity].
  exfalso. apply (H m).
  destruct (search_found _ _ _ Hs) as (pre & t & n & -> & Hn & -> & Hleft).
  exists pre, t. split; [reflexivity|]. split; [exact (narrow_here _ _ Hn)|].
  intros pre1 pre2 He Hne m' Hspan.
  destruct (narrow_here_complete _ _ Hspan) as (n' & Hn' & _).
  rewrite (Hleft pre1 pre2 He Hne) in Hn'. discriminate.
Qed.

(* ================================================================== *)
(** * C1: a valid reply and its sentiment *)

(** C1, refuted as stated: the reply is valid JSON with both keys and the
    sentiment [Positive], whose lower-cased value is [positive], yet
    [_parse_response] returns the object with the sentiment [neutral], not
    [positive]. *)
Lemma parse_response_mixed_case_sentiment :
  let reply := PyStr.q "{'summary':'ok','sentiment':'Positive'}" in
  let o := [("summary", JStr "ok"); ("sentiment", JStr "Positive")] in
  loads sample_limits reply = Value (JObj o)
  /\ In (PyStr.lower "Positive") App.valid_sentiments
  /\ fst (Utils._parse_response env0 (chat_response reply) w0)
     = Ret (JObj [("summary", JStr "ok"); ("sentiment", JStr "neutral")])
  /\ fst (Utils._parse_response env0 (chat_response reply) w0)
     <> Ret (JObj (dict_set o "sentiment" (JStr (PyStr.lower "Positive")))).
Proof.
  cbv zeta. split; [vm_compute; reflexivity|].
  split; [vm_compute; tauto|].
  split; [vm_compute; reflexivity|].
  vm_compute. discriminate.
Qed.

(** C1 (amended): for every reply that [json.loads] decodes (valid JSON,
    within the limits of the interpreter on digits and nesting) to an
    object with a [summary] key and a [sentiment] key whose value is a
    string that lower-cases to positive, negative or neutral:
    [analyze_with_groq] of [app.py], on a standard output that takes what
    it prints, returns that object with the sentiment lower-cased and
    nothing else changed; [_parse_response] of [groq_utils.py] returns the
    object unchanged when the sentiment already is one of the three
    lower-case words, and with the sentiment replaced by [neutral]
    otherwise. *)
Theorem rescue_valid_reply (reply : str) (o : dict) (v : str)
  (Hsummary : dict_has o "summary" = true)
  (Hsentiment : dict_get o "sentiment" = Some (JStr v))
  (Hword : In (PyStr.lower v) App.valid_sentiments) :
  (forall E t w,
     stdout_open E -> App.no_api_key E = false -> answers E w reply ->
     loads (text_limits E) reply = Value (JObj o) ->
     fst (App.analyze_with_groq E t w)
     = Ret (Some (JObj (dict_set o "sentiment" (JStr (PyStr.lower v)))), None))
  /\ (forall E data w, content_of data = Some (JStr reply) ->
        loads (text_limits E) reply = Value (JObj o) ->
        fst (Utils._parse_response E data w)
        = Ret (JObj (if existsb (PyStr.eqb v) Utils.sentiment_values then o
                     else dict_set o "sentiment" (JStr "neutral")))).
Proof.
  split.
  - intros E t w Hout Hkey Hans Hvalid.
    pose proof (loads_strip _ _ _ Hvalid) as Hstripped.
    rewrite (app_analyze_answered E Hout t w reply Hkey Hans).
    apply guarded_ret.
    rewrite (app_rescue_object Hout _ Hstripped Hsummary Hsentiment).
    unfold final_sentiment.
    apply existsb_eqb_In in Hword. rewrite Hword. reflexivity.
  - intros E data w Hdata Hvalid.
    pose proof (loads_strip _ _ _ Hvalid) as Hstripped.
    rewrite (parse_response_content w Hdata).
    apply (parse_content_object w Hstripped Hsummary Hsentiment).
Qed.

Lemma rescue_valid_reply_witness :
  fst (App.analyze_with_groq
         (env_answering
            (PyStr.q "{'choices':[{'message':{'content':' {\'summary\':\'ok\',\'sentiment\':\'NEGATIVE\'} '}}]}")
            None)
         "hello" w0)
  = Ret (Some (JObj [("summary", JStr "ok"); ("sentiment", JStr "negative")]), None)
  /\ fst (Utils._parse_response env0
            (chat_response (PyStr.q " {'summary':'ok','sentiment':'NEGATIVE'} ")) w0)
     = Ret (JObj [("summary", JStr "ok"); ("sentiment", JStr "neutral")]).
Proof.
  destruct (rescue_valid_reply
              (PyStr.q " {'summary':'ok','sentiment':'NEGATIVE'} ")
              [("summary", JStr "ok"); ("sentiment", JStr "NEGATIVE")]
              "NEGATIVE")
    as [Happ Hutils].
  - reflexivity.
  - reflexivity.
  - vm_compute. tauto.
  - split.
    + apply Happ; [intros m; reflexivity|reflexivity| |vm_compute; reflexivity].
      eexists; eexists. repeat split; vm_compute; reflexivity.
    + apply Hutils; [reflexivity|vm_compute; reflexivity].
Defined.

(* ================================================================== *)
(** * The sentiment of a returned result *)

Lemma final_sentiment_valid (v : str) :
  In (final_sentiment v) App.valid_sentiments.
Proof.
  unfold final_sentiment.
  destruct (existsb (PyStr.eqb (PyStr.lower v)) App.valid_sentiments) eqn:H.
  - apply existsb_eqb_In. exact H.
  - right. right. left. reflexivity.
Qed.

(** [validate] of [app.py] returns a result only for an object whose
    sentiment is a string, and the result has that string's final
    sentiment. *)
Lemma validate_result_inv {E : env} (c : str) (res r : json) (w w' : world)
  (H : App.validate E c res w = (Ret (Some r, None), w')) :
  exists o v,
    res = JObj o /\ dict_get o "sentiment" = Some (JStr v)
    /\ r = JObj (dict_set o "sentiment" (JStr (final_sentiment v))).
Proof.
  unfold App.validate in H.
  destruct (truthy res) eqn:Ht; cbn [negb] in H; [|discriminate].
  destruct res as [| | | | | |s|l|o];
    try (cbn [contains] in H; unfold bind, raise in H; discriminate).
  - unfold bind at 1 in H. cbn [contains ret] in H.
    destruct (PyStr.contains s "summary"); cbn [negb] in H.
    + unfold bind at 1 in H. unfold bind at 1 in H. cbn [contains ret] in H.
      destruct (PyStr.contains s "sentiment"); cbn [negb] in H;
        [|discriminate].
      unfold bind, getitem, raise in H. discriminate.
    + unfold bind, ret in H. discriminate.
  - unfold bind at 1 in H. cbn [contains ret] in H.
    match type of H with
    | context [negb ?b] => destruct b; cbn [negb] in H
    end.
    + unfold bind at 1 in H. unfold bind at 1 in H. cbn [contains ret] in H.
      match type of H with
      | context [negb ?b] => destruct b; cbn [negb] in H
      end; [|discriminate].
      unfold bind, getitem, raise in H. discriminate.
    + unfold bind, ret in H. discriminate.
  - unfold bind at 1 in H. cbn [contains ret] in H.
    destruct (dict_has o "summary") eqn:Hs; cbn [negb] in H.
    + unfold bind at 1 in H. unfold bind at 1 in H. cbn [contains ret] in H.
      destruct (dict_has o "sentiment") eqn:Hse; cbn [negb] in H;
        [|discriminate].
      unfold dict_has in Hse.
      destruct (dict_get o "sentiment") as [x|] eqn:Hx; [|discriminate].
      destruct x as [| | | | | |v| |];
        try (unfold bind at 1 in H; cbn [getitem] in H; rewrite Hx in H;
             cbn [ret] in H; unfold bind, method_lower, raise in H;
             discriminate).
      exists o, v. split; [reflexivity|]. split; [exact Hx|].
      unfold bind at 1 in H. cbn [getitem] in H. rewrite Hx in H.
      cbn [ret] in H.
      unfold bind at 1 in H. cbn [method_lower ret] in H.
      unfold final_sentiment.
      destruct (existsb (PyStr.eqb (PyStr.lower v)) App.valid_sentiments);
        cbn [negb] in H.
      * unfold bind at 1 in H. cbn [ret] in H.
        unfold bind at 1 in H. cbn [getitem] in H. rewrite Hx in H.
        cbn [ret] in H.
        unfold bind at 1 in H. cbn [method_lower ret] in H.
        unfold bind at 1 in H. cbn [setitem ret] in H.
        apply bind_ret_inv in H. destruct H as (? & ? & _ & H).
        inversion H. reflexivity.
      * apply bind_ret_inv in H. destruct H as (res1 & w1 & H1 & H).
        apply bind_ret_inv in H1. destruct H1 as (? & ? & _ & H1).
        cbn [setitem ret] in H1. inversion H1; subst res1.
        unfold bind at 1 in H. cbn [getitem] in H.
        rewrite dict_get_set_same in H. cbn [ret] in H.
        unfold bind at 1 in H. cbn [method_lower ret] in H.
        rewrite lower_neutral in H.
        unfold bind at 1 in H. cbn [setitem ret] in H.
        rewrite dict_set_set in H.
        apply bind_ret_inv in H. destruct H as (? & ? & _ & H).
        inversion H. reflexivity.
    + unfold bind, ret in H. discriminate.
Qed.

(** Whatever the reply and the environment, a result returned by the
    rescuer of [app.py] is an object whose sentiment is one of the three
    words. *)
Lemma app_result_sentiment_valid {E : env} (content : str) (w : world) (r : json)
  (H : fst (App.rescue E content w) = Ret (Some r, None)) :
  exists o s,
    r = JObj o /\ dict_get o "sentiment" = Some (JStr s)
    /\ In s App.valid_sentiments.
Proof.
  destruct (App.rescue E content w) as [[p|e] w'] eqn:Hrun; simpl in H;
    [|discriminate].
  inversion H; subst p. unfold App.rescue in Hrun.
  apply bind_ret_inv in Hrun. destruct Hrun as (? & w1 & _ & Hrun).
  apply bind_ret_inv in Hrun. destruct Hrun as (res & w2 & _ & Hrun).
  destruct (validate_result_inv _ _ _ _ _ Hrun) as (o & v & -> & Hv & ->).
  exists (dict_set o "sentiment" (JStr (final_sentiment v))),
         (final_sentiment v).
  split; [reflexivity|]. split; [apply dict_get_set_same|].
  apply final_sentiment_valid.
Qed.

(** Whatever the reply, a result returned by [_parse_response] is an object
    whose sentiment is one of the three words. *)
Lemma utils_result_sentiment_valid (E : env) (content : str) (w w' : world)
  (r : json)
  (H : Utils.parse_content E content w = (Ret r, w')) :
  exists o s,
    r = JObj o /\ dict_get o "sentiment" = Some (JStr s)
    /\ In s Utils.sentiment_values.
Proof.
  unfold Utils.parse_content, try_except in H.
  match type of H with
  | context [match ?m w with _ => _ end] =>
      destruct (m w) as [[a|e] w1] eqn:Hrun
  end.
  - inversion H; subst a w1. clear H.
    apply bind_ret_inv in Hrun. destruct Hrun as (res & w2 & _ & Hrun).
    unfold Utils.validate in Hrun.
    apply bind_ret_inv in Hrun. destruct Hrun as (u & w3 & _ & Hrun).
    apply bind_ret_inv in Hrun. destruct Hrun as (s & w4 & Hget & Hrun).
    destruct res as [| | | | | | | |o]; try discriminate.
    unfold getitem in Hget.
    destruct (dict_get o "sentiment") as [y|] eqn:Hx; [|discriminate].
    inversion Hget; subst y w4. clear Hget.
    destruct (in_strs s Utils.sentiment_values) eqn:Hin; cbn [negb] in Hrun.
    + inversion Hrun; subst r. destruct s as [| | | | | |v| |]; try discriminate.
      exists o, v. split; [reflexivity|]. split; [exact Hx|].
      apply existsb_eqb_In. exact Hin.
    + rewrite (bind_run _ (log_run _ _ _)) in Hrun.
      inversion Hrun; subst r.
      exists (dict_set o "sentiment" (JStr "neutral")), "neutral".
      split; [reflexivity|]. split; [apply dict_get_set_same|].
      right. right. left. reflexivity.
  - destruct (is_json_decode_error e); [|discriminate].
    rewrite (bind_run _ (log_run _ _ _)) in H.
    rewrite (bind_run _ (log_run _ _ _)) in H. discriminate.
Qed.


(* ================================================================== *)
(** * C2: a sentiment that is no string *)

(** C2, at the input where [app.py] departs from it: the reply parses and
    has both keys, the sentiment is the number 5, and [analyze_with_groq]
    of [app.py] reports a failure instead of returning the object with the
    sentiment [neutral]; [_parse_response] on the same reply does return
    it. *)
Theorem app_non_string_sentiment :
  let reply := PyStr.q "{'summary':'ok','sentiment':5}" in
  let body :=
    PyStr.q "{'choices':[{'message':{'content':'{\'summary\':\'ok\',\'sentiment\':5}'}}]}" in
  loads sample_limits reply
  = Value (JObj [("summary", JStr "ok"); ("sentiment", JInt 5)])
  /\ answers (env_answering body None) w0 reply
  /\ fst (App.analyze_with_groq (env_answering body None) "hello" w0)
     = Ret (None, Some [Lit "Unexpected error: "; FmtExn AttributeError])
  /\ fst (Utils._parse_response env0 (chat_response reply) w0)
     = Ret (JObj [("summary", JStr "ok"); ("sentiment", JStr "neutral")]).
Proof.
  cbv zeta. split; [vm_compute; reflexivity|].
  split; [eexists; eexists; repeat split; vm_compute; reflexivity|].
  split; vm_compute; reflexivity.
Qed.

(* ================================================================== *)
(** * C3: retries and backoff *)

Section Retry.

Variable self : Utils.GroqTranscriptAnalyzer.
Variable E : env.
Variable t : str.

Let R : Z := Utils.max_retries (Utils.config self).
Let D : Q := Utils.retry_delay (Utils.config self).

(** One attempt makes one post and comes to what the environment says. *)
Lemma attempt_request_run (i : nat) (w : world) :
  Utils.attempt_request self E t (Z.of_nat i) w
  = (attempt_outcome E (posts w),
     mkWorld (S (posts w)) (csv w) (out w ++ attempt_events self t i)).
Proof.
  unfold Utils.attempt_request, attempt_outcome, attempt_events.
  rewrite (bind_run _ (log_run _ _ _)).
  unfold bind at 1. unfold post. cbn [say posts csv out].
  rewrite <- app_assoc. cbn [app].
  destruct (requests_post E (posts w)) as [e|r]; [reflexivity|].
  unfold bind at 1. unfold raise_for_status.
  destruct (response_ok r); cbn [ret raise]; [|reflexivity].
  unfold response_json. destruct (loads (body_limits E) (text r)); reflexivity.
Qed.

Lemma retry_stops (i : nat) (rest : list Z) (w : world) (o : outcome json)
  (H : attempt_outcome E (posts w) = o)
  (Hother : forall e, o = Raise e -> is_request_exception e = false) :
  Utils.retry_loop self E t (Z.of_nat i :: rest) w
  = (o, mkWorld (S (posts w)) (csv w) (out w ++ attempt_events self t i)).
Proof.
  cbn [Utils.retry_loop]. unfold try_except.
  rewrite attempt_request_run, H.
  destruct o as [data|e]; [reflexivity|].
  rewrite (Hother e eq_refl). reflexivity.
Qed.

Lemma retry_failure_sleeps (i : nat) (rest : list Z) (w : world) (e : exn)
  (H : fails E (posts w) e) (Hmore : (Z.of_nat i < R - 1)%Z)
  (Hsleep : sleep_accepted E self i) :
  Utils.retry_loop self E t (Z.of_nat i :: rest) w
  = Utils.retry_loop self E t rest
      (mkWorld (S (posts w)) (csv w)
         (out w ++ failure_events self t i e
                ++ [Sleep (D * inject_Z (2 ^ Z.of_nat i))])).
Proof.
  destruct H as [Hout Hreq].
  cbn [Utils.retry_loop].
  assert (Ha := attempt_request_run i w). rewrite Hout in Ha.
  rewrite (try_caught _ Ha Hreq).
  rewrite (bind_run _ (log_run _ _ _)).
  apply Z.ltb_lt in Hmore. fold R. rewrite Hmore.
  destruct Hsleep as [Hsmall Htakes]. apply Z.ltb_lt in Hsmall.
  unfold Utils.backoff. rewrite Hsmall.
  unfold bind at 1. cbn [ret].
  unfold sleep. rewrite Htakes. unfold emit. unfold bind at 1.
  unfold say, failure_events. cbn [posts csv out].
  fold D. rewrite <- !app_assoc. reflexivity.
Qed.

Lemma retry_failure_raises (i : nat) (rest : list Z) (w : world) (e : exn)
  (H : fails E (posts w) e) (Hlast : (R - 1 <= Z.of_nat i)%Z) :
  Utils.retry_loop self E t (Z.of_nat i :: rest) w
  = (Raise e,
     mkWorld (S (posts w)) (csv w) (out w ++ failure_events self t i e)).
Proof.
  destruct H as [Hout Hreq].
  cbn [Utils.retry_loop].
  assert (Ha := attempt_request_run i w). rewrite Hout in Ha.
  rewrite (try_caught _ Ha Hreq).
  rewrite (bind_run _ (log_run _ _ _)).
  apply Z.ltb_ge in Hlast. fold R. rewrite Hlast.
  unfold say, failure_events, raise. cbn [posts csv out].
  rewrite <- !app_assoc. reflexivity.
Qed.

Lemma backoff_rounds_step (e : nat -> exn) (i k : nat) :
  backoff_rounds self t D e i (S k)
  = failure_events self t i (e i)
    ++ [Sleep (D * inject_Z (2 ^ Z.of_nat i))]
    ++ backoff_rounds self t D e (S i) k.
Proof.
  unfold backoff_rounds. cbn [seq flat_map]. rewrite <- app_assoc.
  reflexivity.
Qed.

Lemma retry_stops_at (e : nat -> exn) (o : outcome json)
  (Hother : forall e', o = Raise e' -> is_request_exception e' = false)
  (k : nat) :
  forall (i : nat) (rest : list Z) (w : world),
    (Z.of_nat (i + k) < R)%Z ->
    (forall j, (j < k)%nat -> sleep_accepted E self (i + j)) ->
    (forall j, (j < k)%nat -> fails E (posts w + j) (e (i + j)%nat)) ->
    attempt_outcome E (posts w + k) = o ->
    Utils.retry_loop self E t (map Z.of_nat (seq i (S k)) ++ rest) w
    = (o,
       mkWorld (posts w + k + 1) (csv w)
         (out w ++ backoff_rounds self t D e i k
                ++ attempt_events self t (i + k))).
Proof.
  induction k as [|k IH]; intros i rest w Hlt Hacc Hfail Hok.
  - cbn [seq map app]. rewrite Nat.add_0_r in Hok.
    rewrite (retry_stops i rest w o Hok Hother).
    rewrite !Nat.add_0_r. replace (posts w + 1)%nat with (S (posts w)) by lia.
    reflexivity.
  - assert (H0 : fails E (posts w) (e i)).
    { specialize (Hfail 0%nat). rewrite !Nat.add_0_r in Hfail.
      apply Hfail. lia. }
    assert (A0 : sleep_accepted E self i).
    { specialize (Hacc 0%nat). rewrite Nat.add_0_r in Hacc.
      apply Hacc. lia. }
    change (map Z.of_nat (seq i (S (S k))) ++ rest)
      with (Z.of_nat i :: (map Z.of_nat (seq (S i) (S k)) ++ rest)).
    rewrite (retry_failure_sleeps i _ w (e i) H0) by (lia || exact A0).
    rewrite (IH (S i) rest).
    + cbn [posts csv out]. rewrite (backoff_rounds_step e i k).
      rewrite <- !app_assoc.
      replace (S i + k)%nat with (i + S k)%nat by lia.
      replace (S (posts w) + k + 1)%nat with (posts w + S k + 1)%nat by lia.
      reflexivity.
    + lia.
    + intros j Hj. replace (S i + j)%nat with (i + S j)%nat by lia.
      apply Hacc. lia.
    + intros j Hj. cbn [posts].
      replace (S (posts w) + j)%nat with (posts w + S j)%nat by lia.
      replace (S i + j)%nat with (i + S j)%nat by lia.
      apply Hfail. lia.
    + cbn [posts].
      replace (S (posts w) + k)%nat with (posts w + S k)%nat by lia.
      exact Hok.
Qed.

Lemma retry_exhausted (e : nat -> exn) (n : nat) :
  forall (i : nat) (w : world),
    (Z.of_nat (i + n) = R - 1)%Z ->
    (forall j, (j < n)%nat -> sleep_accepted E self (i + j)) ->
    (forall j, (j <= n)%nat -> fails E (posts w + j) (e (i + j)%nat)) ->
    Utils.retry_loop self E t (map Z.of_nat (seq i (S n))) w
    = (Raise (e (i + n)%nat),
       mkWorld (posts w + n + 1) (csv w)
         (out w ++ backoff_rounds self t D e i n
                ++ failure_events self t (i + n) (e (i + n)%nat))).
Proof.
  induction n as [|n IH]; intros i w Hlast Hacc Hfail.
  - cbn [seq map].
    assert (H0 : fails E (posts w) (e i)).
    { specialize (Hfail 0%nat). rewrite !Nat.add_0_r in Hfail.
      apply Hfail. lia. }
    rewrite (retry_failure_raises i _ w (e i) H0) by lia.
    rewrite !Nat.add_0_r. replace (posts w + 1)%nat with (S (posts w)) by lia.
    reflexivity.
  - assert (H0 : fails E (posts w) (e i)).
    { specialize (Hfail 0%nat). rewrite !Nat.add_0_r in Hfail.
      apply Hfail. lia. }
    assert (A0 : sleep_accepted E self i).
    { specialize (Hacc 0%nat). rewrite Nat.add_0_r in Hacc.
      apply Hacc. lia. }
    change (map Z.of_nat (seq i (S (S n))))
      with (Z.of_nat i :: map Z.of_nat (seq (S i) (S n))).
    rewrite (retry_failure_sleeps i _ w (e i) H0) by (lia || exact A0).
    rewrite (IH (S i)).
    + cbn [posts csv out]. rewrite (backoff_rounds_step e i n).
      rewrite <- !app_assoc.
      replace (S i + n)%nat with (i + S n)%nat by lia.
      replace (S (posts w) + n + 1)%nat with (posts w + S n + 1)%nat by lia.
      reflexivity.
    + lia.
    + intros j Hj. replace (S i + j)%nat with (i + S j)%nat by lia.
      apply Hacc. lia.
    + intros j Hj. cbn [posts].
      replace (S (posts w) + j)%nat with (posts w + S j)%nat by lia.
      replace (S i + j)%nat with (i + S j)%nat by lia.
      apply Hfail. lia.
Qed.

Lemma retry_posts_bounded (l : list nat) :
  forall w : world,
    (posts (snd (Utils.retry_loop self E t (map Z.of_nat l) w))
     <= posts w + length l)%nat.
Proof.
  induction l as [|i l IH]; intros w.
  - simpl. lia.
  - cbn [map Utils.retry_loop length]. unfold try_except.
    rewrite attempt_request_run.
    destruct (attempt_outcome E (posts w)) as [v|e].
    + simpl. lia.
    + destruct (is_request_exception e); [|simpl; lia].
      rewrite (bind_run _ (log_run _ _ _)).
      destruct (Z.of_nat i <? Utils.max_retries (Utils.config self) - 1)%Z.
      * unfold Utils.backoff.
        destruct (Z.of_nat i <? 1024)%Z; [|simpl; lia].
        unfold bind at 1. cbn [ret]. unfold sleep.
        destruct (time_sleep_raises E _); [simpl; lia|].
        unfold emit. unfold bind at 1.
        match goal with
        | |- context [Utils.retry_loop self E t (map Z.of_nat l) ?w1] =>
            specialize (IH w1); simpl in IH
        end.
        simpl. lia.
      * simpl. lia.
Qed.

End Retry.

(** C3: with a retry count [R] of at least 1 and a base delay [D] whose
    sleeps [D * 2^i] go through for the attempts [i] that have attempts
    left after them, [_make_api_request] makes at most [R] posts.  When
    the attempts before
    attempt [k] fail at the network level and attempt [k] does not, the
    loop ends with what attempt [k] came to, after [k + 1] posts: on the
    first successful attempt, that attempt's response is returned.  Each
    failed attempt [i] that has attempts left after it is followed by a
    sleep of exactly [D * 2^i] seconds before the next attempt.  When all
    [R] attempts fail, the failure of the last one is raised, after exactly
    [R] posts, with no sleep after it. *)
Theorem make_api_request_backoff
  (self : Utils.GroqTranscriptAnalyzer) (E : env) (t : str) (w : world)
  (Hcount : (1 <= Utils.max_retries (Utils.config self))%Z)
  (Hsleeps : forall i : nat,
      (Z.of_nat i < Utils.max_retries (Utils.config self) - 1)%Z ->
      sleep_accepted E self i) :
  let R := Z.to_nat (Utils.max_retries (Utils.config self)) in
  let D := Utils.retry_delay (Utils.config self) in
  let run := Utils._make_api_request self E t w in
  (posts (snd run) <= posts w + R)%nat
  /\ (forall (k : nat) (e : nat -> exn) (o : outcome json),
        (k < R)%nat ->
        (forall i, (i < k)%nat -> fails E (posts w + i) (e i)) ->
        attempt_outcome E (posts w + k) = o ->
        (forall e', o = Raise e' -> is_request_exception e' = false) ->
        run = (o,
               mkWorld (posts w + k + 1) (csv w)
                 (out w ++ backoff_rounds self t D e 0 k
                        ++ attempt_events self t k)))
  /\ (forall e : nat -> exn,
        (forall i, (i < R)%nat -> fails E (posts w + i) (e i)) ->
        run = (Raise (e (R - 1)%nat),
               mkWorld (posts w + R) (csv w)
                 (out w ++ backoff_rounds self t D e 0 (R - 1)
                        ++ failure_events self t (R - 1) (e (R - 1)%nat)))).
Proof.
  intros R D run. subst run. unfold Utils._make_api_request, range.
  fold R. split; [|split].
  - pose proof (retry_posts_bounded self E t (seq 0 R) w) as H.
    rewrite length_seq in H. exact H.
  - intros k e o Hk Hfail Hok Hother.
    replace R with (S k + (R - S k))%nat by lia.
    rewrite seq_app, map_app.
    rewrite (retry_stops_at self E t e o Hother k 0); try assumption.
    + reflexivity.
    + subst R. lia.
    + intros j Hj. apply Hsleeps. subst R. cbn [Nat.add]. lia.
  - intros e Hfail.
    assert (HR : R = S (R - 1)) by (subst R; lia).
    rewrite HR at 1.
    rewrite (retry_exhausted self E t e (R - 1) 0).
    + cbn [Nat.add]. replace (posts w + (R - 1) + 1)%nat with (posts w + R)%nat by lia.
      reflexivity.
    + subst R. lia.
    + intros j Hj. apply Hsleeps. subst R. cbn [Nat.add]. lia.
    + intros j Hj. apply Hfail. lia.
Qed.

Lemma make_api_request_backoff_witness :
  let body := PyStr.q "{'choices':[]}" in
  let run := Utils._make_api_request analyzer0 (env_failing_twice body) "hi" w0 in
  fst run = Ret (JObj [("choices", JArr [])])
  /\ posts (snd run) = 3%nat
  /\ sleeps_of (out (snd run)) = [1 * inject_Z (2 ^ 0); 1 * inject_Z (2 ^ 1)].
Proof.
  cbv zeta.
  destruct (make_api_request_backoff analyzer0
              (env_failing_twice (PyStr.q "{'choices':[]}")) "hi" w0)
    as (_ & Hsuccess & _).
  - vm_compute. discriminate.
  - intros [|[|i]] Hi;
      [split; reflexivity|split; reflexivity|
       exfalso; change (Z.of_nat (S (S i)) < 3 - 1)%Z in Hi; lia].
  - rewrite (Hsuccess 2%nat
               (fun i => match i with 0%nat => Timeout_ | _ => ConnectionError_ end)
               (Ret (JObj [("choices", JArr [])]))).
    + repeat split.
    + vm_compute. lia.
    + intros [|[|i]] Hi; [split; reflexivity|split; reflexivity|lia].
    + vm_compute. reflexivity.
    + intros e' He. discriminate.
Defined.

(* ================================================================== *)
(** * C4: code fences *)

(** C4, at the input where the code departs from it: a valid document
    fenced without a language tag.  Both rescuers cut seven characters
    where the fence has four, so the text they parse has lost the start of
    the document.  [_parse_response] then fails although it returns the
    object for the unfenced document and for the document fenced with the
    tag [json]; [analyze_with_groq] of [app.py] fails in the same way when
    the document holds an inner object, which the patterns of method 3 do
    not get across. *)
Theorem fence_without_language_tag :
  let s := PyStr.q "{'summary':'ok','sentiment':'positive'}" in
  let obj := JObj [("summary", JStr "ok"); ("sentiment", JStr "positive")] in
  let fenced := "```" ++ nl ++ s ++ nl ++ "```" in
  let tagged := "```json" ++ nl ++ s ++ nl ++ "```" in
  let s2 := PyStr.q "{'summary':'ok','sentiment':'positive','more':{}}" in
  let obj2 := JObj [("summary", JStr "ok"); ("sentiment", JStr "positive");
                    ("more", JObj [])] in
  let fenced2 := "```" ++ nl ++ s2 ++ nl ++ "```" in
  loads sample_limits s = Value obj
  /\ fst (Utils._parse_response env0 (chat_response s) w0) = Ret obj
  /\ fst (Utils._parse_response env0 (chat_response tagged) w0) = Ret obj
  /\ Utils.strip_code_block fenced = PyStr.q "ummary':'ok','sentiment':'positive'}"
  /\ fst (Utils._parse_response env0 (chat_response fenced) w0)
     = Raise (ValueError "Failed to parse JSON response from Groq")
  /\ loads sample_limits s2 = Value obj2
  /\ fst (App.rescue env0 s2 w0) = Ret (Some obj2, None)
  /\ App.clean_content fenced2
     = PyStr.q "ummary':'ok','sentiment':'positive','more':{}}"
  /\ fst (App.rescue env0 fenced2 w0)
     = Ret (None, Some [Lit "Could not parse JSON from response: "; Lit fenced2]).
Proof.
  cbv zeta. repeat split; vm_compute; reflexivity.
Qed.

(* ================================================================== *)
(** * C5: extraction by pattern *)

Lemma regex_match_keyed (c m : str) (H : first_keyed_span c m) :
  App.regex_match c = Some m.
Proof. unfold App.regex_match. rewrite (narrow_search_found c m H). reflexivity. Qed.

Lemma regex_match_fallback (c : str)
  (Hno : forall m, ~ first_keyed_span c m) :
  App.regex_match c = Re.search Re.braces_lazy c.
Proof. unfold App.regex_match. rewrite (narrow_search_none c Hno). reflexivity. Qed.

(** When methods 1 and 2 give nothing, the cascade is method 3 on a falsy
    result. *)
Lemma cascade_to_method3 {E : env} (Hout : stdout_open E) (c : str) (w : world)
  (H1 : no_value (loads (text_limits E) c))
  (H2 : no_value (loads (text_limits E) (App.clean_content c))) :
  exists r w', truthy r = false /\ App.cascade E c w = App.method3 E c r w'.
Proof.
  unfold App.cascade.
  assert (S1 : exists r1 w1, App.method1 E c JNull w = (Ret r1, w1)
                             /\ truthy r1 = false).
  { destruct (loads (text_limits E) c) as [v| |x] eqn:Hl.
    - eexists; eexists. split; [apply (method1_some Hout _ _ Hl)|exact H1].
    - eexists; eexists. split; [apply (method1_none _ _ Hl)|reflexivity].
    - contradiction. }
  destruct S1 as (r1 & w1 & E1 & T1). rewrite (bind_run _ E1).
  destruct (loads (text_limits E) (App.clean_content c)) as [v| |x] eqn:Hl.
  - exists v. eexists. split; [exact H2|].
    rewrite (bind_run _ (method2_some Hout _ _ T1 Hl)). reflexivity.
  - exists r1. eexists. split; [exact T1|].
    rewrite (bind_run _ (method2_none _ _ T1 Hl)). reflexivity.
  - contradiction.
Qed.

(** What a method comes to when it parses [m] with [r] as the result so
    far: the value of [m], [r] when [m] is no document, and what the
    decoder raises when [m] hits a limit of the interpreter. *)
Lemma method3_refused {E : env} (c : str) {r : json} {m : str} {x : refusal}
  (w : world)
  (Hr : truthy r = false) (Hm : App.regex_match c = Some m)
  (H : loads (text_limits E) m = Refused x) :
  App.method3 E c r w = (Raise (refusal_exn x), w).
Proof.
  unfold App.method3. rewrite Hr, Hm.
  apply try_passed; [|destruct x; reflexivity].
  apply bind_raise. apply json_loads_refused. exact H.
Qed.

Lemma method3_result {E : env} (Hout : stdout_open E) (c : str) (r : json) (w : world)
  (Hr : truthy r = false) :
  fst (App.method3 E c r w)
  = match App.regex_match c with
    | Some m =>
        match loads (text_limits E) m with
        | Value v => Ret v
        | Invalid => Ret r
        | Refused x => Raise (refusal_exn x)
        end
    | None => Ret r
    end.
Proof.
  destruct (App.regex_match c) as [m|] eqn:Hm.
  - destruct (loads (text_limits E) m) as [v| |x] eqn:Hl.
    + rewrite (method3_some Hout _ _ Hr Hm Hl). reflexivity.
    + rewrite (method3_none _ _ Hr Hm Hl). reflexivity.
    + rewrite (method3_refused _ _ Hr Hm Hl). reflexivity.
  - rewrite (method3_no_match _ _ Hr Hm). reflexivity.
Qed.

Lemma extract_result {E : env} (c : str) (w : world)
  (H : loads (text_limits E) c = Invalid) :
  fst (Utils.extract E c w)
  = match Re.search Re.braces_greedy c with
    | Some m =>
        match loads (text_limits E) m with
        | Value v => Ret v
        | Invalid => Raise JSONDecodeError
        | Refused x => Raise (refusal_exn x)
        end
    | None => Raise (ValueError "Failed to parse JSON response from Groq")
    end.
Proof.
  unfold Utils.extract.
  rewrite (try_caught _ (json_loads_none _ H) eq_refl).
  rewrite (bind_run _ (log_run _ _ _)).
  destruct (Re.search Re.braces_greedy c) as [m|].
  - destruct (loads (text_limits E) m) as [v| |x] eqn:Hl.
    + rewrite (bind_run _ (json_loads_some _ Hl)).
      rewrite (bind_run _ (log_run _ _ _)). reflexivity.
    + rewrite (bind_raise _ (json_loads_none _ Hl)). reflexivity.
    + rewrite (bind_raise _ (json_loads_refused _ Hl)). reflexivity.
  - rewrite (bind_run _ (log_run _ _ _)). reflexivity.
Qed.

(** C5, refuted as stated: on this reply direct parsing and fence
    stripping fail and the narrow pattern finds nothing.  The text from the
    first opening brace to the last closing brace is a document with both
    keys, but [app.py] falls back to the text that ends at the first
    closing brace, which is no document, and reports that nothing could be
    parsed. *)
Lemma fallback_stops_at_first_close :
  let c := PyStr.q "Result: {'sentiment':'positive','summary':'ok','extra':{}}" in
  let whole := PyStr.q "{'sentiment':'positive','summary':'ok','extra':{}}" in
  loads sample_limits c = Invalid
  /\ loads sample_limits (App.clean_content c) = Invalid
  /\ Re.search Re.narrow c = None
  /\ first_open_to_last_close c whole
  /\ loads sample_limits whole
     = Value (JObj [("sentiment", JStr "positive"); ("summary", JStr "ok");
                   ("extra", JObj [])])
  /\ App.regex_match c
     = Some (PyStr.q "{'sentiment':'positive','summary':'ok','extra':{}")
  /\ fst (App.cascade env0 c w0) = Ret JNull
  /\ fst (App.rescue env0 c w0)
     = Ret (None, Some [Lit "Could not parse JSON from response: "; Lit c]).
Proof.
  cbv zeta. repeat split; try (vm_compute; reflexivity).
  exists "Result: ",
         (PyStr.q "'sentiment':'positive','summary':'ok','extra':{}"), [].
  split; [vm_compute; reflexivity|].
  split; [|split; [intros []|vm_compute; reflexivity]].
  vm_compute. intros H.
  repeat (destruct H as [H|H]; [discriminate|]). exact H.
Qed.

(** C5 (amended): for every reply [c] on which direct parsing and fence
    stripping give nothing,
    - [analyze_with_groq] of [app.py], on a standard output that takes what
      it prints, first looks for the first
      brace-delimited text, from a [{] to the first [}] after it, that
      holds the [summary] key and after it the [sentiment] key, and parses
      it if there is one; if there is none, it falls back to the text from
      the first [{] of the reply to the first [}] after it;
    - [_parse_response] of [groq_utils.py] has no narrow pattern: it parses
      the text from the first [{] to the last [}] of what it tried to
      parse.
    In both, a text that is found is handed to [json.loads]: its value is
    the result; when it is no document, [app.py] keeps what it had and
    [_parse_response] lets the [JSONDecodeError] go; and when it has an
    integer of too many digits or a nesting too deep for the interpreter,
    what the decoder raises ends the rescue.  (Direct parsing gives
    nothing when it raises [JSONDecodeError], in [app.py] also when it
    returns a falsy value.) *)
Theorem extraction_fallbacks (E : env) (c : str) (w : world) :
  (stdout_open E ->
   no_value (loads (text_limits E) c) ->
   no_value (loads (text_limits E) (App.clean_content c)) ->
   exists r,
     truthy r = false
     /\ (forall m, first_keyed_span c m ->
           fst (App.cascade E c w)
           = match loads (text_limits E) m with
             | Value v => Ret v
             | Invalid => Ret r
             | Refused x => Raise (refusal_exn x)
             end)
     /\ ((forall m, ~ first_keyed_span c m) ->
         (forall m, first_open_to_first_close c m ->
            fst (App.cascade E c w)
            = match loads (text_limits E) m with
              | Value v => Ret v
              | Invalid => Ret r
              | Refused x => Raise (refusal_exn x)
              end)
         /\ ((forall m, ~ first_open_to_first_close c m) ->
             fst (App.cascade E c w) = Ret r)))
  /\ (loads (text_limits E) c = Invalid ->
      (forall m, first_open_to_last_close c m ->
         fst (Utils.extract E c w)
         = match loads (text_limits E) m with
           | Value v => Ret v
           | Invalid => Raise JSONDecodeError
           | Refused x => Raise (refusal_exn x)
           end)
      /\ ((forall m, ~ first_open_to_last_close c m) ->
          fst (Utils.extract E c w)
          = Raise (ValueError "Failed to parse JSON response from Groq"))).
Proof.
  split.
  - intros Hout H1 H2.
    destruct (cascade_to_method3 Hout c w H1 H2) as (r & w' & Hr & Hc).
    exists r. split; [exact Hr|]. rewrite Hc, (method3_result Hout c r w' Hr).
    split; [|split].
    + intros m Hm. rewrite (regex_match_keyed c m Hm). reflexivity.
    + intros m Hm. rewrite (regex_match_fallback c H).
      rewrite (search_lazy_found c m Hm). reflexivity.
    + intros Hno. rewrite (regex_match_fallback c H).
      rewrite (search_lazy_none c Hno). reflexivity.
  - intros Hl. rewrite (extract_result c w Hl). split.
    + intros m Hm. rewrite (search_greedy_found c m Hm). reflexivity.
    + intros Hno. rewrite (search_greedy_none c Hno). reflexivity.
Qed.

Lemma extraction_fallbacks_witness :
  let c := PyStr.q "{'summary':'ok','sentiment':'positive'} I hope this helps {}" in
  let o := JObj [("summary", JStr "ok"); ("sentiment", JStr "positive")] in
  fst (App.cascade env0 c w0) = Ret o
  /\ fst (Utils.extract env0 c w0) = Raise JSONDecodeError.
Proof.
  cbv zeta.
  destruct (extraction_fallbacks env0
              (PyStr.q "{'summary':'ok','sentiment':'positive'} I hope this helps {}")
              w0) as [Happ Hutils].
  split.
  - destruct Happ as (r & Hr & Hkeyed & _).
    + intros m. reflexivity.
    + vm_compute. exact I.
    + vm_compute. exact I.
    + rewrite (Hkeyed (PyStr.q "{'summary':'ok','sentiment':'positive'}")).
      * vm_compute. reflexivity.
      * exists [], (PyStr.q "{'summary':'ok','sentiment':'positive'} I hope this helps {}").
        split; [reflexivity|]. split.
        -- exists [], (PyStr.q ":'ok',"), (PyStr.q ":'positive'"),
                  " I hope this helps {}".
           cbv zeta. split; [vm_compute; reflexivity|].
           split; [|vm_compute; reflexivity].
           vm_compute. intros H.
           repeat (destruct H as [H|H]; [discriminate|]). exact H.
        -- intros pre1 [|x pre2] He Hne; [congruence|].
           destruct pre1; discriminate.
  - destruct Hutils as [Hfound _].
    + vm_compute. reflexivity.
    + rewrite (Hfound (PyStr.q "{'summary':'ok','sentiment':'positive'} I hope this helps {}")).
      * vm_compute. reflexivity.
      * exists [],
               (PyStr.q "'summary':'ok','sentiment':'positive'} I hope this helps {"),
               [].
        split; [vm_compute; reflexivity|].
        split; [intros []|]. split; [intros []|vm_compute; reflexivity].
Defined.

(* ================================================================== *)
(** * C6: nothing parses *)

(** When no method gives a value, the cascade ends with a falsy result. *)
Lemma cascade_fails {E : env} (Hout : stdout_open E) (c : str) (w : world)
  (H1 : no_value (loads (text_limits E) c))
  (H2 : no_value (loads (text_limits E) (App.clean_content c)))
  (H3 : forall m, App.regex_match c = Some m -> no_value (loads (text_limits E) m)) :
  exists r w', App.cascade E c w = (Ret r, w') /\ truthy r = false.
Proof.
  unfold App.cascade.
  assert (S1 : exists r1 w1, App.method1 E c JNull w = (Ret r1, w1)
                             /\ truthy r1 = false).
  { destruct (loads (text_limits E) c) as [v| |x] eqn:Hl.
    - eexists; eexists. split; [apply (method1_some Hout _ _ Hl)|exact H1].
    - eexists; eexists. split; [apply (method1_none _ _ Hl)|reflexivity].
    - contradiction. }
  destruct S1 as (r1 & w1 & E1 & T1). rewrite (bind_run _ E1).
  assert (S2 : exists r2 w2, App.method2 E c r1 w1 = (Ret r2, w2)
                             /\ truthy r2 = false).
  { destruct (loads (text_limits E) (App.clean_content c)) as [v| |x] eqn:Hl.
    - eexists; eexists. split; [apply (method2_some Hout _ _ T1 Hl)|exact H2].
    - eexists; eexists. split; [apply (method2_none _ _ T1 Hl)|exact T1].
    - contradiction. }
  destruct S2 as (r2 & w2 & E2 & T2). rewrite (bind_run _ E2).
  destruct (App.regex_match c) as [m|] eqn:Hm.
  - specialize (H3 m eq_refl).
    destruct (loads (text_limits E) m) as [v| |x] eqn:Hl.
    + eexists; eexists. split; [apply (method3_some Hout _ _ T2 Hm Hl)|exact H3].
    + eexists; eexists. split; [apply (method3_none _ _ T2 Hm Hl)|exact T2].
    + contradiction.
  - eexists; eexists. split; [apply (method3_no_match _ _ T2 Hm)|exact T2].
Qed.

Lemma validate_falsy {E : env} (c : str) {r : json} (w : world)
  (H : truthy r = false) :
  App.validate E c r w
  = (Ret (None, Some [Lit "Could not parse JSON from response: "; Lit c]), w).
Proof. unfold App.validate. rewrite H. reflexivity. Qed.

(** Both ways in which [extract] finds nothing. *)
Lemma extract_fails {E : env} (c : str) (w : world)
  (H1 : loads (text_limits E) c = Invalid)
  (H2 : forall m, Re.search Re.braces_greedy c = Some m -> loads (text_limits E) m = Invalid) :
  match Re.search Re.braces_greedy c with
  | Some _ =>
      Utils.extract E c w
      = (Raise JSONDecodeError,
         say w [Log WARNING [Lit "Direct JSON parsing failed, trying extraction..."]])
  | None =>
      Utils.extract E c w
      = (Raise (ValueError "Failed to parse JSON response from Groq"),
         say w [Log WARNING [Lit "Direct JSON parsing failed, trying extraction..."];
                Log ERROR [Lit "Raw content: "; Lit c]])
  end.
Proof.
  unfold Utils.extract.
  destruct (Re.search Re.braces_greedy c) as [m|] eqn:Hm.
  - rewrite (try_caught _ (json_loads_none _ H1) eq_refl).
    rewrite (bind_run _ (log_run _ _ _)).
    rewrite (bind_raise _ (json_loads_none _ (H2 m eq_refl))). reflexivity.
  - rewrite (try_caught _ (json_loads_none _ H1) eq_refl).
    rewrite (bind_run _ (log_run _ _ _)).
    rewrite (bind_run _ (log_run _ _ _)). rewrite say_say. reflexivity.
Qed.

Lemma parse_content_fails {E : env} (c : str) (w : world)
  (H1 : loads (text_limits E) (Utils.strip_code_block c) = Invalid)
  (H2 : forall m, Re.search Re.braces_greedy (Utils.strip_code_block c) = Some m
                  -> loads (text_limits E) m = Invalid) :
  exists w',
    Utils.parse_content E c w
    = (Raise (ValueError "Failed to parse JSON response from Groq"), w')
    /\ In (Log ERROR [Lit "Raw content: "; Lit (Utils.strip_code_block c)])
          (out w').
Proof.
  unfold Utils.parse_content.
  pose proof (extract_fails (Utils.strip_code_block c) w H1 H2) as Hx.
  destruct (Re.search Re.braces_greedy (Utils.strip_code_block c)).
  - rewrite (try_caught _ (bind_raise _ Hx) eq_refl).
    rewrite (bind_run _ (log_run _ _ _)).
    rewrite (bind_run _ (log_run _ _ _)).
    eexists. split; [reflexivity|].
    cbn [say out]. rewrite !in_app_iff. right. left. reflexivity.
  - rewrite (try_passed _ (bind_raise _ Hx) eq_refl).
    eexists. split; [reflexivity|].
    cbn [say out]. rewrite !in_app_iff. right. right. left. reflexivity.
Qed.

(** The module-level [analyze_with_groq] once its post is answered. *)
Lemma legacy_analyze_answered (E : env) (t : str) (w : world) (reply : str)
  (Hkey : App.no_api_key E = false) (Hans : answers E w reply) :
  exists w',
    Utils.analyze_with_groq E t w
    = try_except (Utils.legacy_rescue E (JStr reply)) is_exception
        (fun e => ret (None, Some (str_exn e))) w'.
Proof.
  destruct Hans as (r & data & Hpost & Hok & Hload & Hcontent).
  unfold Utils.analyze_with_groq. unfold App.no_api_key in Hkey.
  destruct (GROQ_API_KEY E) as [[|c k]|]; try discriminate.
  unfold content_of in Hcontent.
  destruct data as [| | | | | | | |d]; try discriminate.
  destruct (dict_get d "choices") as [a|] eqn:Ha; [|discriminate].
  destruct a as [| | | | | | |l|]; try discriminate.
  destruct l as [|b l]; [discriminate|].
  destruct b as [| | | | | | | |cm]; try discriminate.
  destruct (dict_get cm "message") as [m|] eqn:Hm; [|discriminate].
  destruct m as [| | | | | | | |m]; try discriminate.
  eexists. unfold try_except.
  match goal with
  | |- (match ?a with _ => _ end) = (match ?b with _ => _ end) =>
      replace a with b; [reflexivity|]
  end.
  unfold bind at 1. unfold post. rewrite Hpost.
  unfold bind at 1. unfold raise_for_status. rewrite Hok. cbn [ret].
  unfold bind at 1. unfold response_json. rewrite Hload. cbn [ret].
  unfold bind at 1. unfold getitem at 1. rewrite Ha. cbn [ret].
  unfold bind at 1. cbn [getitem0 ret].
  unfold bind at 1. unfold getitem at 1. rewrite Hm. cbn [ret].
  unfold bind at 1. unfold getitem at 1. rewrite Hcontent. cbn [ret].
  reflexivity.
Qed.

Lemma legacy_rescue_fails {E : env} (reply : str) (w : world)
  (H1 : loads (text_limits E) reply = Invalid)
  (H2 : forall m, Re.search Re.braces_greedy reply = Some m -> loads (text_limits E) m = Invalid) :
  fst (try_except (Utils.legacy_rescue E (JStr reply)) is_exception
         (fun e => ret (None, Some (str_exn e))) w)
  = Ret (None,
         Some (match Re.search Re.braces_greedy reply with
               | Some _ => [FmtExn JSONDecodeError]
               | None => [Lit "Failed to parse JSON response"]
               end)).
Proof.
  assert (Hd : Utils.json_loads_value E (JStr reply) w
               = (Raise JSONDecodeError, w)).
  { apply (json_loads_none _ H1). }
  unfold Utils.legacy_rescue. cbv beta iota.
  unfold try_except, bind. rewrite Hd. cbn [is_json_decode_error].
  destruct (Re.search Re.braces_greedy reply) as [m|] eqn:Hm.
  - rewrite (json_loads_none _ (H2 m eq_refl)). reflexivity.
  - reflexivity.
Qed.

(** C6, refuted as stated: on the reply [hello] every strategy of
    [_parse_response] fails, and the error that reaches the caller of
    [GroqTranscriptAnalyzer.analyze] is a fixed text in which the reply
    does not occur. *)
Lemma parse_failure_message_without_reply :
  let body := PyStr.q "{'choices':[{'message':{'content':'hello'}}]}" in
  let error := [Lit "Analysis failed: ";
                Lit "Failed to parse JSON response from Groq"] in
  loads sample_limits "hello" = Invalid
  /\ Re.search Re.braces_greedy "hello" = None
  /\ fst (Utils._parse_response env0 (chat_response "hello") w0)
     = Raise (ValueError "Failed to parse JSON response from Groq")
  /\ fst (Utils.analyze analyzer0 (env_answering body None) "hi" w0)
     = Ret (None, Some error)
  /\ option_map (fun s => PyStr.contains s "hello") (text_of error)
     = Some false.
Proof.
  cbv zeta. repeat split; vm_compute; reflexivity.
Qed.

(** C6 (amended): for every reply on which every parsing strategy fails
    (each text handed to [json.loads] is no document: it raises
    [JSONDecodeError]; in [app.py], it may also return a falsy value), no
    result is returned, and
    - [analyze_with_groq] of [app.py], on a standard output that takes what
      it prints, returns the error [Could not parse JSON from response: ]
      followed by the reply text, stripped of surrounding whitespace;
    - [_parse_response] raises [ValueError] with the fixed message [Failed
      to parse JSON response from Groq] and has written the text it tried
      to parse to the error log;
    - the module-level [analyze_with_groq] of [groq_utils.py] returns an
      error without the reply text: [Failed to parse JSON response] when
      there is no brace-delimited text, the decoder's own message when the
      brace-delimited text does not parse. *)
Theorem parse_failure_reported (reply : str) :
  (forall E t w,
     stdout_open E -> App.no_api_key E = false -> answers E w reply ->
     no_value (loads (text_limits E) (PyStr.strip reply)) ->
     no_value (loads (text_limits E)
                 (App.clean_content (PyStr.strip reply))) ->
     (forall m, App.regex_match (PyStr.strip reply) = Some m ->
                no_value (loads (text_limits E) m)) ->
     fst (App.analyze_with_groq E t w)
     = Ret (None, Some [Lit "Could not parse JSON from response: ";
                        Lit (PyStr.strip reply)]))
  /\ (forall E data w,
        content_of data = Some (JStr reply) ->
        loads (text_limits E) (Utils.strip_code_block (PyStr.strip reply))
        = Invalid ->
        (forall m, Re.search Re.braces_greedy
                     (Utils.strip_code_block (PyStr.strip reply)) = Some m ->
                   loads (text_limits E) m = Invalid) ->
        exists w',
          Utils._parse_response E data w
          = (Raise (ValueError "Failed to parse JSON response from Groq"), w')
          /\ In (Log ERROR [Lit "Raw content: ";
                            Lit (Utils.strip_code_block (PyStr.strip reply))])
                (out w'))
  /\ (forall E t w,
        App.no_api_key E = false -> answers E w reply ->
        loads (text_limits E) reply = Invalid ->
        (forall m, Re.search Re.braces_greedy reply = Some m ->
                   loads (text_limits E) m = Invalid) ->
        fst (Utils.analyze_with_groq E t w)
        = Ret (None,
               Some (match Re.search Re.braces_greedy reply with
                     | Some _ => [FmtExn JSONDecodeError]
                     | None => [Lit "Failed to parse JSON response"]
                     end))).
Proof.
  split; [|split].
  - intros E t w Hout Hkey Hans H1 H2 H3.
    rewrite (app_analyze_answered E Hout t w reply Hkey Hans).
    apply guarded_ret. unfold App.rescue.
    rewrite (bind_run _ (print_run Hout _ _)).
    match goal with
    | |- context [bind (App.cascade E _) _ ?w1] =>
        destruct (cascade_fails Hout (PyStr.strip reply) w1 H1 H2 H3)
          as (r & w' & Hc & Hr)
    end.
    rewrite (bind_run _ Hc). rewrite (validate_falsy _ _ Hr). reflexivity.
  - intros E data w Hdata H1 H2.
    rewrite (parse_response_content w Hdata).
    apply parse_content_fails; assumption.
  - intros E t w Hkey Hans H1 H2.
    destruct (legacy_analyze_answered E t w reply Hkey Hans) as (w' & Hw).
    rewrite Hw. apply legacy_rescue_fails; assumption.
Qed.

Lemma parse_failure_reported_witness :
  let body := PyStr.q "{'choices':[{'message':{'content':' hello '}}]}" in
  fst (App.analyze_with_groq (env_answering body None) "hi" w0)
  = Ret (None, Some [Lit "Could not parse JSON from response: "; Lit "hello"])
  /\ fst (Utils._parse_response env0 (chat_response " hello ") w0)
     = Raise (ValueError "Failed to parse JSON response from Groq")
  /\ fst (Utils.analyze_with_groq (env_answering body None) "hi" w0)
     = Ret (None, Some [Lit "Failed to parse JSON response"]).
Proof.
  cbv zeta.
  destruct (parse_failure_reported " hello ") as (Happ & Hutils & Hlegacy).
  assert (Hans : answers
                   (env_answering
                      (PyStr.q "{'choices':[{'message':{'content':' hello '}}]}")
                      None) w0 " hello ").
  { eexists; eexists. repeat split; vm_compute; reflexivity. }
  split; [|split].
  - apply Happ.
    + intros m. reflexivity.
    + reflexivity.
    + exact Hans.
    + vm_compute. exact I.
    + vm_compute. exact I.
    + intros m Hm. vm_compute in Hm. discriminate.
  - destruct (Hutils env0 (chat_response " hello ") w0) as (w' & Hrun & _).
    + reflexivity.
    + vm_compute. reflexivity.
    + intros m Hm. vm_compute in Hm. discriminate.
    + rewrite Hrun. reflexivity.
  - rewrite (Hlegacy _ "hi" w0).
    + vm_compute. reflexivity.
    + reflexivity.
    + exact Hans.
    + vm_compute. reflexivity.
    + intros m Hm. vm_compute in Hm. discriminate.
Defined.

(* ================================================================== *)
(** * C7: a required key is missing *)

Lemma validate_missing {E : env} (c : str) {o : dict} (w : world)
  (Hne : o <> [])
  (Hmiss : dict_has o "summary" = false \/ dict_has o "sentiment" = false) :
  App.validate E c (JObj o) w
  = (Ret (None, Some [Lit "Missing required fields in response: ";
                      Fmt (JObj o)]), w).
Proof.
  unfold App.validate.
  assert (Ht : truthy (JObj o) = true) by (destruct o; [congruence|reflexivity]).
  rewrite Ht. cbn [negb].
  unfold bind at 1. cbn [contains ret].
  destruct (dict_has o "summary") eqn:Hs; cbn [negb].
  - destruct Hmiss as [Hm|Hm]; [discriminate|].
    unfold bind at 1. unfold bind at 1. cbn [contains ret]. rewrite Hm.
    reflexivity.
  - reflexivity.
Qed.

(** The first required field that [o] lacks. *)
Lemma require_fields_missing {o : dict} (w : world)
  (Hmiss : dict_has o "summary" = false \/ dict_has o "sentiment" = false) :
  Utils.require_fields (JObj o) ["summary"; "sentiment"] w
  = (Raise (ValueError ("Missing required field: "
                        ++ (if dict_has o "summary" then "sentiment"
                            else "summary"))), w).
Proof.
  cbn [Utils.require_fields].
  unfold bind at 1. cbn [contains ret].
  destruct (dict_has o "summary") eqn:Hs; cbn [negb].
  - destruct Hmiss as [Hm|Hm]; [discriminate|].
    unfold bind at 1. cbn [contains ret]. rewrite Hm. reflexivity.
  - reflexivity.
Qed.

Lemma parse_content_missing {E : env} {content : str} {o : dict} (w : world)
  (Hl : loads (text_limits E) content = Value (JObj o))
  (Hmiss : dict_has o "summary" = false \/ dict_has o "sentiment" = false) :
  Utils.parse_content E content w
  = (Raise (ValueError ("Missing required field: "
                        ++ (if dict_has o "summary" then "sentiment"
                            else "summary"))), w).
Proof.
  unfold Utils.parse_content. rewrite (strip_code_block_valid Hl).
  apply try_passed; [|reflexivity].
  rewrite (bind_run _ (extract_direct _ Hl)).
  unfold Utils.validate.
  apply bind_raise. apply require_fields_missing. exact Hmiss.
Qed.

Lemma legacy_rescue_missing {E : env} {reply : str} {o : dict} (w : world)
  (Hl : loads (text_limits E) reply = Value (JObj o))
  (Hmiss : dict_has o "summary" = false \/ dict_has o "sentiment" = false) :
  Utils.legacy_rescue E (JStr reply) w
  = (Ret (None, Some [Lit "Missing required fields in Groq response"]), w).
Proof.
  unfold Utils.legacy_rescue.
  assert (Hd : Utils.json_loads_value E (JStr reply) w = (Ret (JObj o), w)).
  { apply (json_loads_some _ Hl). }
  rewrite (bind_run _ (try_ret _ _ (bind_run _ Hd))).
  unfold bind at 1. cbn [contains ret].
  destruct (dict_has o "summary") eqn:Hs; cbn [negb].
  - destruct Hmiss as [Hm|Hm]; [discriminate|].
    unfold bind at 1. unfold bind at 1. cbn [contains ret]. rewrite Hm.
    reflexivity.
  - reflexivity.
Qed.

(** C7, refuted as stated: the reply parses to an object without the
    [sentiment] key, and [_parse_response] fails with a message that names
    the missing field; the object does not occur in it, and another object
    gets the very same message. *)
Lemma missing_field_message_without_object :
  let reply := PyStr.q "{'summary':'ok'}" in
  let other := PyStr.q "{'summary':'fine','n':1}" in
  loads sample_limits reply = Value (JObj [("summary", JStr "ok")])
  /\ fst (Utils._parse_response env0 (chat_response reply) w0)
     = Raise (ValueError "Missing required field: sentiment")
  /\ fst (Utils._parse_response env0 (chat_response other) w0)
     = Raise (ValueError "Missing required field: sentiment")
  /\ PyStr.contains "Missing required field: sentiment" "ok" = false.
Proof.
  cbv zeta. repeat split; vm_compute; reflexivity.
Qed.

(** C7 (amended): for every reply that [json.loads] decodes (valid JSON,
    within the limits of the interpreter on digits and nesting) to an
    object that lacks the [summary] key or the [sentiment] key, no result
    is returned and no default is put in the place of the missing field:
    - [analyze_with_groq] of [app.py], when the object is not empty and on
      a standard output that takes what it prints, returns the error
      [Missing required fields in response: ] followed by the whole parsed
      object;
    - [_parse_response] raises [ValueError] with [Missing required field: ]
      and the name of the first required field that is missing;
    - the module-level [analyze_with_groq] of [groq_utils.py] returns the
      fixed error [Missing required fields in Groq response]. *)
Theorem missing_field_reported (reply : str) (o : dict)
  (Hmissing : dict_has o "summary" = false \/ dict_has o "sentiment" = false) :
  (forall E t w,
     o <> [] ->
     stdout_open E -> App.no_api_key E = false -> answers E w reply ->
     loads (text_limits E) reply = Value (JObj o) ->
     fst (App.analyze_with_groq E t w)
     = Ret (None, Some [Lit "Missing required fields in response: ";
                        Fmt (JObj o)]))
  /\ (forall E data w,
        content_of data = Some (JStr reply) ->
        loads (text_limits E) reply = Value (JObj o) ->
        Utils._parse_response E data w
        = (Raise (ValueError ("Missing required field: "
                              ++ (if dict_has o "summary" then "sentiment"
                                  else "summary"))), w))
  /\ (forall E t w,
        App.no_api_key E = false -> answers E w reply ->
        loads (text_limits E) reply = Value (JObj o) ->
        fst (Utils.analyze_with_groq E t w)
        = Ret (None, Some [Lit "Missing required fields in Groq response"])).
Proof.
  split; [|split].
  - intros E t w Hne Hout Hkey Hans Hvalid.
    pose proof (loads_strip _ _ _ Hvalid) as Hstripped.
    rewrite (app_analyze_answered E Hout t w reply Hkey Hans).
    apply guarded_ret. unfold App.rescue.
    rewrite (bind_run _ (print_run Hout _ _)).
    assert (Ht : truthy (JObj o) = true)
      by (destruct o; [congruence|reflexivity]).
    rewrite (bind_run _ (cascade_direct Hout _ Hstripped Ht)).
    rewrite (validate_missing _ _ Hne Hmissing). reflexivity.
  - intros E data w Hdata Hvalid.
    pose proof (loads_strip _ _ _ Hvalid) as Hstripped.
    rewrite (parse_response_content w Hdata).
    apply (parse_content_missing w Hstripped Hmissing).
  - intros E t w Hkey Hans Hvalid.
    destruct (legacy_analyze_answered E t w reply Hkey Hans) as (w' & Hw).
    rewrite Hw.
    rewrite (try_ret _ _ (legacy_rescue_missing w' Hvalid Hmissing)).
    reflexivity.
Qed.

Lemma missing_field_reported_witness :
  let body := PyStr.q "{'choices':[{'message':{'content':'{\'summary\':\'ok\'}'}}]}" in
  let reply := PyStr.q "{'summary':'ok'}" in
  fst (App.analyze_with_groq (env_answering body None) "hi" w0)
  = Ret (None, Some [Lit "Missing required fields in response: ";
                     Fmt (JObj [("summary", JStr "ok")])])
  /\ fst (Utils._parse_response env0 (chat_response reply) w0)
     = Raise (ValueError "Missing required field: sentiment")
  /\ fst (Utils.analyze_with_groq (env_answering body None) "hi" w0)
     = Ret (None, Some [Lit "Missing required fields in Groq response"]).
Proof.
  cbv zeta.
  destruct (missing_field_reported (PyStr.q "{'summary':'ok'}")
              [("summary", JStr "ok")])
    as (Happ & Hutils & Hlegacy).
  - right. reflexivity.
  - assert (Hans : answers
                     (env_answering
                        (PyStr.q "{'choices':[{'message':{'content':'{\'summary\':\'ok\'}'}}]}")
                        None) w0 (PyStr.q "{'summary':'ok'}")).
    { eexists; eexists. repeat split; vm_compute; reflexivity. }
    split; [|split].
    + apply Happ; [discriminate|intros m; reflexivity|reflexivity|exact Hans|].
      vm_compute. reflexivity.
    + rewrite (Hutils env0); [reflexivity|reflexivity|vm_compute; reflexivity].
    + apply Hlegacy; [reflexivity|exact Hans|vm_compute; reflexivity].
Defined.

(* ================================================================== *)
(** * C8: an empty transcript *)

Lemma lstrip_spaces (t : str)
  (H : Forall (fun c => PyStr.isspace c = true) t) : PyStr.lstrip t = [].
Proof.
  induction H as [|c t Hc _ IH]; simpl; [reflexivity|].
  rewrite Hc. exact IH.
Qed.

Lemma strip_spaces (t : str)
  (H : Forall (fun c => PyStr.isspace c = true) t) : PyStr.strip t = [].
Proof. unfold PyStr.strip. rewrite (lstrip_spaces t H). reflexivity. Qed.

(** The handler up to the stripped transcript. *)
Lemma handler_reads_transcript (req : App.request) (t : str)
  (H : carries req t) :
  exists data,
    (if App.is_json req then
       match App.json_body req with
       | Some v => ret v
       | None => raise BadRequest
       end
     else ret (JObj [("transcript",
                      JStr (App.form_get (App.form req) "transcript" ""))]))
    = ret data
    /\ method_get data "transcript" (JStr "") = ret (JStr t).
Proof.
  unfold carries in H. destruct (App.is_json req).
  - destruct H as (d & Hb & Hg). rewrite Hb. exists (JObj d).
    split; [reflexivity|]. simpl. rewrite Hg. reflexivity.
  - eexists. split; [reflexivity|]. simpl. rewrite H. reflexivity.
Qed.

(** C8: for every transcript that is empty or made of whitespace only, the
    [/analyze] handler answers 400 [Transcript is required] and leaves the
    world as it was, and [GroqTranscriptAnalyzer.analyze] returns the error
    [Analysis failed: Transcript cannot be empty] having only logged it: in
    both, no post is made. *)
Theorem empty_transcript_rejected (t : str)
  (Hspaces : Forall (fun c => PyStr.isspace c = true) t) :
  (forall E req w, carries req t ->
     App.analyze E req w
     = (Ret (App.JsonifyError [Lit "Transcript is required"], 400%Z), w))
  /\ (forall self E w,
        Utils.analyze self E t w
        = (Ret (None, Some [Lit "Analysis failed: ";
                            Lit "Transcript cannot be empty"]),
           say w [Log ERROR [Lit "Analysis failed: ";
                             Lit "Transcript cannot be empty"]])).
Proof.
  split.
  - intros E req w Hreq.
    destruct (handler_reads_transcript req t Hreq) as (data & Hd & Hg).
    unfold App.analyze. rewrite Hd. apply try_ret.
    unfold bind at 1. cbn [ret]. unfold bind at 1. rewrite Hg. cbn [ret].
    unfold bind at 1. cbn [method_strip ret].
    rewrite (strip_spaces t Hspaces). reflexivity.
  - intros self E w. unfold Utils.analyze.
    assert (Hv : Utils._validate_transcript t w
                 = (Raise (ValueError "Transcript cannot be empty"), w)).
    { unfold Utils._validate_transcript.
      rewrite (strip_spaces t Hspaces). cbn [Utils.is_empty].
      rewrite orb_true_r. reflexivity. }
    rewrite (try_caught _ (bind_raise _ Hv) eq_refl).
    cbn [str_exn]. rewrite (bind_run _ (log_run _ _ _)). reflexivity.
Qed.

Lemma empty_transcript_rejected_witness :
  App.analyze (env_answering "" None)
    (App.mkRequest true (Some (JObj [("transcript", JStr "  ")])) []) w0
  = (Ret (App.JsonifyError [Lit "Transcript is required"], 400%Z), w0)
  /\ posts (snd (Utils.analyze analyzer0 (env_answering "" None) "  " w0)) = 0%nat.
Proof.
  destruct (empty_transcript_rejected "  ") as [Happ Hutils].
  - repeat constructor.
  - split.
    + apply Happ. simpl. eexists. split; reflexivity.
    + rewrite Hutils. reflexivity.
Defined.

(* ================================================================== *)
(** * C9: the CSV file cannot be written *)

(** C9: when the analysis of a request has succeeded with [result] and
    [append_to_csv] then raises, the [/analyze] handler, on a standard
    output that takes what it prints, prints the failure and still answers
    with [result] and status 200. *)
Theorem csv_failure_keeps_result (E : env) (req : App.request) (t : str)
  (w w1 w2 : world) (result : json) (e : exn)
  (Hout : stdout_open E)
  (Hreq : carries req t)
  (Hnonempty : PyStr.strip t <> [])
  (Hlen : (PyStr.len (PyStr.strip t) <= 10000)%Z)
  (Hanalysis :
     App.analyze_with_groq E (PyStr.strip t)
       (say w [analyzing_line (PyStr.strip t)])
     = (Ret (Some result, None), w1))
  (Hcsv :
     App.append_to_csv E (PyStr.strip t) result
       (say w1 [Print [Lit "Analysis successful: "; fmt result]])
     = (Raise e, w2)) :
  App.analyze E req w
  = (Ret (App.Jsonify result, 200%Z),
     say w2 [Print (Lit "CSV save failed: " :: str_exn e)]).
Proof.
  destruct (handler_reads_transcript req t Hreq) as (data & Hd & Hg).
  unfold App.analyze. rewrite Hd. apply try_ret.
  unfold bind at 1. cbn [ret]. unfold bind at 1. rewrite Hg. cbn [ret].
  unfold bind at 1. cbn [method_strip ret].
  remember (PyStr.strip t) as tr eqn:Htr.
  destruct tr as [|c tr]; [congruence|].
  destruct (PyStr.len (c :: tr) >? 10000)%Z eqn:Hgt.
  { apply Z.gtb_lt in Hgt. lia. }
  rewrite (bind_run _ (print_run Hout _ _)).
  unfold analyzing_line in Hanalysis.
  rewrite (bind_run _ Hanalysis).
  rewrite (bind_run _ (print_run Hout _ _)).
  rewrite (bind_run _ (eq_trans (try_caught _ Hcsv eq_refl)
                                (print_run Hout _ _))).
  reflexivity.
Qed.

Lemma csv_failure_keeps_result_witness :
  fst (App.analyze
         (env_answering
            (PyStr.q "{'choices':[{'message':{'content':'{\'summary\':\'ok\',\'sentiment\':\'positive\'}'}}]}")
            (Some OSError_))
         (App.mkRequest false None [("transcript", " hello ")]) w0)
  = Ret (App.Jsonify (JObj [("summary", JStr "ok"); ("sentiment", JStr "positive")]),
         200%Z).
Proof.
  erewrite (csv_failure_keeps_result _ _ " hello " w0).
  - reflexivity.
  - intros m. reflexivity.
  - reflexivity.
  - vm_compute. discriminate.
  - vm_compute. discriminate.
  - vm_compute. reflexivity.
  - vm_compute. reflexivity.
Defined.

(** Another way for the append to fail: the file is written as UTF-8, which
    has no encoding for a lone surrogate.  The file gets its header, the
    row is not written, and the result is returned all the same. *)
Example csv_row_not_encodable :
  let body :=
    PyStr.q "{'choices':[{'message':{'content':'{\'summary\':\'\\ud83d\',\'sentiment\':\'positive\'}'}}]}" in
  let run := App.analyze (env_answering body None)
               (App.mkRequest false None [("transcript", "hello")]) w0 in
  fst run
  = Ret (App.Jsonify (JObj [("summary", JStr [55357%N]);
                            ("sentiment", JStr "positive")]), 200%Z)
  /\ csv (snd run) = Some [App.csv_header]
  /\ last (out (snd run)) (Sleep 0)
     = Print [Lit "CSV save failed: "; FmtExn UnicodeEncodeError].
Proof. cbv zeta. repeat split; vm_compute; reflexivity. Qed.

(* ================================================================== *)
(** * C10: what [analyze] returns *)



(* ================================================================== *)
(** * Computations that neither post nor write the CSV file *)

Lemma quiet_ret {A} (a : A) : quiet (ret a).
Proof. intros w. split; reflexivity. Qed.

Lemma quiet_raise {A} (e : exn) : quiet (@raise A e).
Proof. intros w. split; reflexivity. Qed.

Lemma quiet_bind {A B} (m : M A) (k : A -> M B)
  (Hm : quiet m) (Hk : forall a, quiet (k a)) : quiet (bind m k).
Proof.
  intros w. unfold bind. specialize (Hm w).
  destruct (m w) as [[a|e] w1]; simpl in Hm.
  - destruct (Hk a w1) as [H1 H2]. rewrite H1, H2. exact Hm.
  - exact Hm.
Qed.

Lemma quiet_try {A} (m : M A) (c : exn -> bool) (h : exn -> M A)
  (Hm : quiet m) (Hh : forall e, quiet (h e)) : quiet (try_except m c h).
Proof.
  intros w. unfold try_except. specialize (Hm w).
  destruct (m w) as [[a|e] w1]; simpl in Hm; [exact Hm|].
  destruct (c e); [|exact Hm].
  destruct (Hh e w1) as [H1 H2]. rewrite H1, H2. exact Hm.
Qed.

Lemma quiet_emit (ev : event) : quiet (emit ev).
Proof. intros w. split; reflexivity. Qed.

Lemma quiet_print (E : env) (m : message) : quiet (print E m).
Proof.
  unfold print. destruct (stdout_raises E m);
    [apply quiet_raise|apply quiet_emit].
Qed.

Lemma quiet_log (l : level) (m : message) : quiet (log l m).
Proof. apply quiet_emit. Qed.

Lemma quiet_sleep (E : env) (d : Q) : quiet (sleep E d).
Proof.
  unfold sleep. destruct (time_sleep_raises E d);
    [apply quiet_raise|apply quiet_emit].
Qed.

Lemma quiet_json_loads (E : env) (s : str) : quiet (json_loads E s).
Proof.
  unfold json_loads. destruct (loads (text_limits E) s);
    [apply quiet_ret|apply quiet_raise|apply quiet_raise].
Qed.

Lemma quiet_response_json (E : env) (r : response) :
  quiet (response_json E r).
Proof.
  unfold response_json. destruct (loads (body_limits E) (text r));
    [apply quiet_ret|apply quiet_raise|apply quiet_raise].
Qed.

Lemma quiet_raise_for_status (r : response) : quiet (raise_for_status r).
Proof.
  unfold raise_for_status. destruct (response_ok r);
    [apply quiet_ret|apply quiet_raise].
Qed.

Lemma quiet_getitem (v : json) (k : str) : quiet (getitem v k).
Proof.
  destruct v; try apply quiet_raise. unfold getitem.
  destruct (dict_get d k); [apply quiet_ret|apply quiet_raise].
Qed.

Lemma quiet_getitem0 (v : json) : quiet (getitem0 v).
Proof.
  destruct v as [| | | | | |s|l|d]; try apply quiet_raise.
  - destruct s; [apply quiet_raise|apply quiet_ret].
  - destruct l; [apply quiet_raise|apply quiet_ret].
Qed.

Lemma quiet_setitem (v : json) (k : str) (x : json) : quiet (setitem v k x).
Proof. destruct v; try apply quiet_raise. apply quiet_ret. Qed.

Lemma quiet_method_get (v : json) (k : str) (d : json) :
  quiet (method_get v k d).
Proof. destruct v; try apply quiet_raise. apply quiet_ret. Qed.

Lemma quiet_method_strip (v : json) : quiet (method_strip v).
Proof. destruct v; try apply quiet_raise. apply quiet_ret. Qed.

Lemma quiet_method_lower (v : json) : quiet (method_lower v).
Proof. destruct v; try apply quiet_raise. apply quiet_ret. Qed.

Lemma quiet_contains (v : json) (k : str) : quiet (contains v k).
Proof. destruct v; try apply quiet_raise; apply quiet_ret. Qed.

(** Taking a computation apart into the pieces above. *)
Ltac quiet_step :=
  first
    [ apply quiet_ret | apply quiet_raise | apply quiet_print
    | apply quiet_log | apply quiet_sleep | apply quiet_emit
    | apply quiet_json_loads | apply quiet_response_json
    | apply quiet_raise_for_status
    | apply quiet_getitem | apply quiet_getitem0 | apply quiet_setitem
    | apply quiet_method_get | apply quiet_method_strip
    | apply quiet_method_lower | apply quiet_contains
    | apply quiet_bind; [|intros ?]
    | apply quiet_try; [|intros ?]
    | match goal with
      | |- quiet (if ?b then _ else _) => destruct b
      | |- quiet (match ?x with _ => _ end) => destruct x
      end ].

Ltac quiet_all := repeat quiet_step.

Lemma quiet_cascade (E : env) (c : str) : quiet (App.cascade E c).
Proof. unfold App.cascade, App.method1, App.method2, App.method3. quiet_all. Qed.

Lemma quiet_validate (E : env) (c : str) (r : json) :
  quiet (App.validate E c r).
Proof. unfold App.validate. quiet_all. Qed.

Lemma quiet_rescue (E : env) (c : str) : quiet (App.rescue E c).
Proof.
  unfold App.rescue. apply quiet_bind; [apply quiet_print|intros _].
  apply quiet_bind; [apply quiet_cascade|intros r]. apply quiet_validate.
Qed.

Lemma quiet_reply_content (data : json) : quiet (App.reply_content data).
Proof. unfold App.reply_content. quiet_all. Qed.

(* ================================================================== *)
(** * [analyze_with_groq] of [app.py] as a whole *)

(** What [validate] can return. *)
Lemma validate_returns (E : env) (c : str) (res : json) (w w' : world)
  (p : option json * option message)
  (H : App.validate E c res w = (Ret p, w')) :
  (exists m, p = (None, Some m))
  \/ (exists r o, p = (Some r, None) /\ res = JObj o
                  /\ dict_has o "summary" = true).
Proof.
  unfold App.validate in H.
  destruct (truthy res) eqn:Ht; cbn [negb] in H.
  2:{ inversion H. left. eexists. reflexivity. }
  apply bind_ret_inv in H. destruct H as (hs & w1 & Hs & H).
  apply bind_ret_inv in H. destruct H as (missing & w2 & Hm & H).
  destruct missing.
  { inversion H. left. eexists. reflexivity. }
  right.
  apply bind_ret_inv in H. destruct H as (s & w3 & Hg & H).
  apply bind_ret_inv in H. destruct H as (? & ? & _ & H).
  apply bind_ret_inv in H. destruct H as (? & ? & _ & H).
  apply bind_ret_inv in H. destruct H as (? & ? & _ & H).
  apply bind_ret_inv in H. destruct H as (? & ? & _ & H).
  apply bind_ret_inv in H. destruct H as (r & ? & _ & H).
  apply bind_ret_inv in H. destruct H as (? & ? & _ & H).
  inversion H; subst.
  destruct res as [| | | | | | | |o];
    try (cbn [getitem] in Hg; unfold raise in Hg; discriminate).
  exists r, o. split; [reflexivity|]. split; [reflexivity|].
  cbn [contains] in Hs. inversion Hs; subst hs w1.
  destruct (dict_has o "summary"); [reflexivity|].
  cbn [negb] in Hm. inversion Hm.
Qed.

(** What [analyze_with_groq] of [app.py] can return: one of its four
    errors, or what [rescue] returned for some reply. *)
Lemma app_analyze_ret_inv (E : env) (t : str) (w w' : world)
  (p : option json * option message)
  (H : App.analyze_with_groq E t w = (Ret p, w')) :
  (exists m, p = (None, Some m))
  \/ (exists c w1 w2, App.rescue E c w1 = (Ret p, w2)).
Proof.
  unfold App.analyze_with_groq in H.
  destruct (App.no_api_key E).
  { inversion H. left. eexists. reflexivity. }
  unfold try_except in H.
  match type of H with
  | context [match ?m w with _ => _ end] =>
      destruct (m w) as [[q|e] w1] eqn:Hrun
  end.
  2:{ cbn [is_exception] in H. inversion H. left. eexists. reflexivity. }
  inversion H; subst q w1. clear H.
  apply bind_ret_inv in Hrun. destruct Hrun as (? & ? & _ & Hrun).
  apply bind_ret_inv in Hrun. destruct Hrun as (resp & ? & _ & Hrun).
  destruct (response_ok resp); cbn [negb] in Hrun.
  - apply bind_ret_inv in Hrun. destruct Hrun as (? & ? & _ & Hrun).
    apply bind_ret_inv in Hrun. destruct Hrun as (c & w1 & _ & Hrun).
    right. exists c, w1, w'. exact Hrun.
  - apply bind_ret_inv in Hrun. destruct Hrun as (? & ? & _ & Hrun).
    inversion Hrun. left. eexists. reflexivity.
Qed.

(** [analyze_with_groq] of [app.py] raises nothing. *)
Lemma app_analyze_returns (E : env) (t : str) (w : world) :
  exists p w', App.analyze_with_groq E t w = (Ret p, w').
Proof.
  unfold App.analyze_with_groq.
  destruct (App.no_api_key E); [eexists; eexists; reflexivity|].
  unfold try_except.
  match goal with
  | |- context [match ?m w with _ => _ end] => destruct (m w) as [[q|e] w1]
  end; eexists; eexists; reflexivity.
Qed.

Lemma rescue_returns (E : env) (c : str) (w w' : world)
  (p : option json * option message)
  (H : App.rescue E c w = (Ret p, w')) :
  (exists m, p = (None, Some m))
  \/ (exists r o v,
        p = (Some r, None)
        /\ dict_has o "summary" = true
        /\ dict_get o "sentiment" = Some (JStr v)
        /\ r = JObj (dict_set o "sentiment" (JStr (final_sentiment v)))).
Proof.
  unfold App.rescue in H.
  apply bind_ret_inv in H. destruct H as (? & ? & _ & H).
  apply bind_ret_inv in H. destruct H as (res & w2 & _ & H).
  destruct (validate_returns _ _ _ _ _ _ H) as [Hm|(r & o & -> & -> & Hs)].
  - left. exact Hm.
  - right. destruct (validate_result_inv _ _ _ _ _ H) as (o' & v & Ho & Hv & ->).
    inversion Ho; subst o'.
    exists (JObj (dict_set o "sentiment" (JStr (final_sentiment v)))), o, v.
    split; [reflexivity|]. split; [exact Hs|]. split; [exact Hv|reflexivity].
Qed.

Lemma dict_has_set_other (d : dict) (k k' : str) (x : json)
  (Hne : PyStr.eqb k' k = false) :
  dict_get (dict_set d k x) k' = dict_get d k'.
Proof.
  induction d as [|[k0 v0] d IH]; cbn [dict_set dict_get].
  - rewrite Hne. reflexivity.
  - destruct (PyStr.eqb k k0) eqn:Hk; cbn [dict_get].
    + apply str_eqb_eq in Hk. subst k0. rewrite Hne. reflexivity.
    + rewrite IH. reflexivity.
Qed.

(** X1: whatever the transcript and the environment,
    [analyze_with_groq] of [app.py] raises nothing and returns a pair that
    is either a result with no error or no result with an error. *)
Theorem app_analyze_with_groq_one_of_two (E : env) (t : str) (w : world) :
  exists p w',
    App.analyze_with_groq E t w = (Ret p, w') /\ one_of_two p.
Proof.
  destruct (app_analyze_returns E t w) as (p & w' & H).
  exists p, w'. split; [exact H|].
  destruct (app_analyze_ret_inv _ _ _ _ _ H) as [(m & ->)|(c & w1 & w2 & Hr)].
  - right. split; [reflexivity|discriminate].
  - destruct (rescue_returns _ _ _ _ _ Hr)
      as [(m & ->)|(r & o & v & -> & _)].
    + right. split; [reflexivity|discriminate].
    + left. split; [discriminate|reflexivity].
Qed.

(** X2: whatever the environment, a result that [analyze_with_groq] of
    [app.py] returns is an object that has the [summary] key and whose
    [sentiment] is one of the three lower-case words: the two lookups of
    [append_to_csv] cannot fail on it. *)
Theorem app_analyze_result_well_formed (E : env) (t : str) (w w' : world)
  (r : json) (e : option message)
  (H : App.analyze_with_groq E t w = (Ret (Some r, e), w')) :
  exists o s,
    r = JObj o /\ dict_has o "summary" = true
    /\ dict_get o "sentiment" = Some (JStr s)
    /\ In s App.valid_sentiments.
Proof.
  destruct (app_analyze_ret_inv _ _ _ _ _ H) as [(m & Hm)|(c & w1 & w2 & Hr)];
    [discriminate|].
  destruct (rescue_returns _ _ _ _ _ Hr)
    as [(m & Hm)|(r' & o & v & Hp & Hs & Hv & ->)]; [discriminate|].
  inversion Hp; subst r.
  exists (dict_set o "sentiment" (JStr (final_sentiment v))),
         (final_sentiment v).
  split; [reflexivity|]. split; [|split].
  - unfold dict_has in *. rewrite dict_has_set_other; [exact Hs|reflexivity].
  - apply dict_get_set_same.
  - apply final_sentiment_valid.
Qed.

Lemma app_analyze_result_well_formed_witness :
  exists o s,
    JObj [("summary", JStr "ok"); ("sentiment", JStr "neutral")] = JObj o
    /\ dict_has o "summary" = true
    /\ dict_get o "sentiment" = Some (JStr s)
    /\ In s App.valid_sentiments.
Proof.
  apply (app_analyze_result_well_formed
           (env_answering
              (PyStr.q "{'choices':[{'message':{'content':'{\'summary\':\'ok\',\'sentiment\':\'Mixed\'}'}}]}")
              None)
           "hello" w0
           (snd (App.analyze_with_groq
                   (env_answering
                      (PyStr.q "{'choices':[{'message':{'content':'{\'summary\':\'ok\',\'sentiment\':\'Mixed\'}'}}]}")
                      None)
                   "hello" w0))
           _ None).
  vm_compute. reflexivity.
Defined.

(** The [try] body of [analyze_with_groq] after its post has returned. *)
Lemma quiet_after_post (E : env) (r : response) :
  quiet
    (if negb (response_ok r) then
       print E [Lit "API Error Response: "; Lit (text r)] ;;
       ret (None, Some [Lit "Groq API error ("; Fmt (JInt (status_code r));
                        Lit "): "; Lit (text r)])
     else
       response_data <- response_json E r ;;
       content <- App.reply_content response_data ;;
       App.rescue E content).
Proof.
  destruct (response_ok r); cbn [negb].
  - apply quiet_bind; [apply quiet_response_json|intros d].
    apply quiet_bind; [apply quiet_reply_content|intros c].
    apply quiet_rescue.
  - quiet_all.
Qed.

Lemma stdout_open_posting (o : post_outcome) : stdout_open (env_posting o).
Proof. intros m. reflexivity. Qed.

Lemma app_analyze_world (E : env) (t : str) (w : world)
  (Hkey : App.no_api_key E = false) :
  exists o w2,
    App.analyze_with_groq E t w = (o, w2)
    /\ csv w2 = csv w /\ (posts w2 <= posts w + 1)%nat
    /\ (stdout_open E -> posts w2 = S (posts w)).
Proof.
  unfold App.analyze_with_groq. rewrite Hkey.
  unfold try_except. unfold bind at 1. cbv beta.
  pose proof (quiet_print E [Lit "Making Groq API request..."] w) as [Pp Pc].
  destruct (print E [Lit "Making Groq API request..."] w) as [[u|e] w1]
    eqn:Hprint; cbn [snd] in Pp, Pc.
  - assert (Hb :
      forall k : response -> M (option json * option message),
        (forall r, quiet (k r)) ->
        posts (snd (bind (post E App.GROQ_API_URL (App.build_payload t)
                            (Some 30%Z)) k w1)) = S (posts w)
        /\ csv (snd (bind (post E App.GROQ_API_URL (App.build_payload t)
                             (Some 30%Z)) k w1)) = csv w).
    { intros k Hk. unfold bind, post.
      destruct (requests_post E (posts w1)) as [e|r].
      - cbn [snd posts csv]. rewrite Pp, Pc. split; reflexivity.
      - destruct (Hk r (mkWorld (S (posts w1)) (csv w1)
                          (out w1 ++ [Post App.GROQ_API_URL
                                        (App.build_payload t) (Some 30%Z)])))
          as [H1 H2].
        destruct (k r _) as [[q|e] w2]; cbn [snd posts csv] in *;
          rewrite H1, H2, Pp, Pc; split; reflexivity. }
    cbv beta iota.
    match goal with
    | |- context [let (_, _) := ?x in _] =>
        assert (Hx : posts (snd x) = S (posts w) /\ csv (snd x) = csv w)
          by (apply Hb; apply quiet_after_post);
        revert Hx; destruct x as [[q|e] w2]
    end; unfold is_exception, ret; cbn [snd]; intros [Hb1 Hb2];
      eexists; eexists; (split; [reflexivity|]); rewrite Hb1, Hb2;
      (split; [reflexivity|]); (split; [lia|]); intros _; reflexivity.
  - unfold is_exception, ret. eexists; eexists. split; [reflexivity|].
    rewrite Pp, Pc. split; [reflexivity|]. split; [lia|].
    intros Hout. unfold print in Hprint. rewrite (Hout _) in Hprint.
    discriminate.
Qed.

(** X3: [analyze_with_groq] of [app.py] never retries: it makes at most
    one post and leaves the CSV file alone, whatever the environment.
    Without an API key it returns its error with nothing posted or
    printed; with a key, and a standard output that takes what it
    prints, it makes exactly one post. *)
Theorem app_analyze_posts_once (E : env) (t : str) (w : world) :
  let run := App.analyze_with_groq E t w in
  (posts (snd run) <= posts w + 1)%nat
  /\ csv (snd run) = csv w
  /\ (App.no_api_key E = true -> run = (Ret (None, Some no_key_error), w))
  /\ (App.no_api_key E = false -> stdout_open E ->
      posts (snd run) = S (posts w)).
Proof.
  intros run. subst run.
  destruct (App.no_api_key E) eqn:Hkey.
  - unfold App.analyze_with_groq. rewrite Hkey. cbn [ret snd].
    split; [lia|]. split; [reflexivity|].
    split; [intros _; reflexivity|discriminate].
  - destruct (app_analyze_world E t w Hkey) as (o & w2 & -> & Hc & Hp & Hs).
    cbn [snd]. split; [exact Hp|]. split; [exact Hc|].
    split; [discriminate|intros _; exact Hs].
Qed.

(** X4: with an API key and a standard output that takes what is printed,
    when the one post of [analyze_with_groq] of [app.py] is answered with
    an error status, the status and the body are returned in the error
    and the body is not parsed; when the post raises, its exception is
    returned as an unexpected error.  In both cases nothing is tried
    again. *)
Theorem app_post_failure_reported (E : env) (t : str) (w : world)
  (Hout : stdout_open E) (Hkey : App.no_api_key E = false) :
  (forall r, requests_post E (posts w) = PostReturns r ->
             response_ok r = false ->
     App.analyze_with_groq E t w
     = (Ret (None, Some [Lit "Groq API error ("; Fmt (JInt (status_code r));
                         Lit "): "; Lit (text r)]),
        say (posted t w) [Print [Lit "API Error Response: "; Lit (text r)]]))
  /\ (forall e, requests_post E (posts w) = PostRaises e ->
        App.analyze_with_groq E t w
        = (Ret (None, Some (Lit "Unexpected error: " :: str_exn e)),
           posted t w)).
Proof.
  split.
  - intros r Hpost Hbad. unfold App.analyze_with_groq. rewrite Hkey.
    apply try_ret.
    rewrite (bind_run _ (print_run Hout _ _)).
    unfold bind at 1. unfold post. cbn [say posts csv out]. rewrite Hpost.
    rewrite Hbad. cbn [negb].
    rewrite (bind_run _ (print_run Hout _ _)).
    unfold posted, say, ret. cbn [posts csv out].
    rewrite <- !app_assoc. reflexivity.
  - intros e Hpost. unfold App.analyze_with_groq. rewrite Hkey.
    assert (Hrun :
      (print E [Lit "Making Groq API request..."] ;;
       response <- post E App.GROQ_API_URL (App.build_payload t) (Some 30%Z) ;;
       if negb (response_ok response) then
         print E [Lit "API Error Response: "; Lit (text response)] ;;
         ret (None, Some [Lit "Groq API error (";
                          Fmt (JInt (status_code response));
                          Lit "): "; Lit (text response)])
       else
         response_data <- response_json E response ;;
         content <- App.reply_content response_data ;;
         App.rescue E content) w
      = (Raise e, posted t w)).
    { rewrite (bind_run _ (print_run Hout _ _)).
      unfold bind at 1. unfold post. cbn [say posts csv out]. rewrite Hpost.
      unfold posted. rewrite <- app_assoc. reflexivity. }
    rewrite (try_caught _ Hrun eq_refl). reflexivity.
Qed.

Lemma app_post_failure_reported_witness :
  fst (App.analyze_with_groq
         (env_posting (PostReturns (mkResponse 429 "slow down"))) "hi" w0)
  = Ret (None, Some [Lit "Groq API error ("; Fmt (JInt 429); Lit "): ";
                     Lit "slow down"])
  /\ fst (App.analyze_with_groq (env_posting (PostRaises Timeout_)) "hi" w0)
     = Ret (None, Some [Lit "Unexpected error: "; FmtExn Timeout_]).
Proof.
  split.
  - destruct (app_post_failure_reported
                (env_posting (PostReturns (mkResponse 429 "slow down")))
                "hi" w0 (stdout_open_posting _) eq_refl) as [H _].
    rewrite (H (mkResponse 429 "slow down") eq_refl eq_refl). reflexivity.
  - destruct (app_post_failure_reported
                (env_posting (PostRaises Timeout_))
                "hi" w0 (stdout_open_posting _) eq_refl) as [_ H].
    rewrite (H Timeout_ eq_refl). reflexivity.
Defined.

(* ================================================================== *)
(** * A response without the reply text *)

Ltac run_lookup :=
  intros ?w;
  unfold App.reply_content, Utils._parse_response, bind, getitem, getitem0,
    method_strip, raise, ret;
  repeat match goal with
         | H : dict_get _ _ = _ |- _ => rewrite H; cbv beta iota
         end;
  reflexivity.

Ltac lookup_fails e :=
  exists e; split; [cbv [lookup_errors In]; tauto|split; run_lookup].

(** When [data["choices"][0]["message"]["content"]] is no string, reading
    the stripped reply text raises, in both files alike. *)
Lemma reply_lookup_fault (data : json)
  (Hnone : forall s, content_of data <> Some (JStr s)) :
  exists e,
    In e lookup_errors
    /\ (forall w, App.reply_content data w = (Raise e, w))
    /\ (forall E w, Utils._parse_response E data w = (Raise e, w)).
Proof.
  unfold content_of in Hnone.
  destruct data as [| | | | | | | |d]; try (lookup_fails TypeError).
  destruct (dict_get d "choices") as [a|] eqn:Ha; [|lookup_fails KeyError].
  destruct a as [| | | | | |s|l|d']; try (lookup_fails TypeError).
  - destruct s as [|c s]; [lookup_fails IndexError|lookup_fails TypeError].
  - destruct l as [|b l]; [lookup_fails IndexError|].
    destruct b as [| | | | | | | |c]; try (lookup_fails TypeError).
    destruct (dict_get c "message") as [m|] eqn:Hm; [|lookup_fails KeyError].
    destruct m as [| | | | | | | |m]; try (lookup_fails TypeError).
    destruct (dict_get m "content") as [v|] eqn:Hc; [|lookup_fails KeyError].
    destruct v as [| | | | | |s| |]; try (lookup_fails AttributeError).
    exfalso. apply (Hnone s). reflexivity.
  - lookup_fails KeyError.
Qed.

(** X5: when the body of the response is decoded to a value in which
    [choices[0].message.content] is missing or is no string, no rescuer
    returns a result: [analyze_with_groq] of [app.py] returns the lookup
    error ([KeyError], [IndexError], [TypeError] or [AttributeError]) as
    an unexpected error after its one post, and [_parse_response] raises
    it with nothing logged. *)
Theorem reply_text_missing (data : json)
  (Hnone : forall s, content_of data <> Some (JStr s)) :
  exists e,
    In e lookup_errors
    /\ (forall E t w r,
          stdout_open E -> App.no_api_key E = false ->
          requests_post E (posts w) = PostReturns r ->
          response_ok r = true -> loads (body_limits E) (text r) = Value data ->
          App.analyze_with_groq E t w
          = (Ret (None, Some (Lit "Unexpected error: " :: str_exn e)),
             posted t w))
    /\ (forall E w, Utils._parse_response E data w = (Raise e, w)).
Proof.
  destruct (reply_lookup_fault data Hnone) as (e & Hin & Happ & Hutils).
  exists e. split; [exact Hin|]. split; [|exact Hutils].
  intros E t w r Hout Hkey Hpost Hok Hload.
  unfold App.analyze_with_groq. rewrite Hkey.
  assert (Hrun :
    (print E [Lit "Making Groq API request..."] ;;
     response <- post E App.GROQ_API_URL (App.build_payload t) (Some 30%Z) ;;
     if negb (response_ok response) then
       print E [Lit "API Error Response: "; Lit (text response)] ;;
       ret (None, Some [Lit "Groq API error (";
                        Fmt (JInt (status_code response));
                        Lit "): "; Lit (text response)])
     else
       response_data <- response_json E response ;;
       content <- App.reply_content response_data ;;
       App.rescue E content) w
    = (Raise e, posted t w)).
  { rewrite (bind_run _ (print_run Hout _ _)).
    unfold bind at 1. unfold post. cbn [say posts csv out]. rewrite Hpost.
    rewrite Hok. cbn [negb].
    unfold bind at 1. unfold response_json. rewrite Hload. cbn [ret].
    rewrite (bind_raise _ (Happ _)).
    unfold posted. rewrite <- app_assoc. reflexivity. }
  rewrite (try_caught _ Hrun eq_refl). reflexivity.
Qed.

Lemma reply_text_missing_witness :
  exists e,
    In e lookup_errors
    /\ (forall E t w r,
          stdout_open E -> App.no_api_key E = false ->
          requests_post E (posts w) = PostReturns r ->
          response_ok r = true ->
          loads (body_limits E) (text r) = Value (JObj [("choices", JArr [])]) ->
          App.analyze_with_groq E t w
          = (Ret (None, Some (Lit "Unexpected error: " :: str_exn e)),
             posted t w))
    /\ (forall E w, Utils._parse_response E (JObj [("choices", JArr [])]) w
                    = (Raise e, w)).
Proof.
  apply (reply_text_missing (JObj [("choices", JArr [])])).
  intros s. vm_compute. discriminate.
Defined.

(* ================================================================== *)
(** * Stripping and slicing *)

Lemma lstrip_app_blank (pre s : str) (H : blank pre) :
  PyStr.lstrip (pre ++ s) = PyStr.lstrip s.
Proof.
  induction H as [|c pre Hc _ IH]; [reflexivity|].
  cbn [app PyStr.lstrip]. rewrite Hc. exact IH.
Qed.

Lemma lstrip_app_rest (s post : str) (H : PyStr.lstrip s <> []) :
  PyStr.lstrip (s ++ post) = PyStr.lstrip s ++ post.
Proof.
  induction s as [|c s IH]; [contradiction H; reflexivity|].
  cbn [app PyStr.lstrip] in *. destruct (PyStr.isspace c).
  - apply IH. exact H.
  - reflexivity.
Qed.

Lemma lstrip_nil_blank (s : str) (H : PyStr.lstrip s = []) : blank s.
Proof.
  induction s as [|c s IH]; [constructor|].
  cbn [PyStr.lstrip] in H. destruct (PyStr.isspace c) eqn:Hc;
    [|discriminate].
  constructor; [exact Hc|apply IH; exact H].
Qed.

Lemma rstrip_app_blank (s post : str) (H : blank post) :
  PyStr.rstrip (s ++ post) = PyStr.rstrip s.
Proof.
  unfold PyStr.rstrip. rewrite rev_app_distr.
  rewrite lstrip_app_blank; [reflexivity|].
  apply Forall_rev. exact H.
Qed.

(** White space around a text does not change what [strip] leaves. *)
Lemma strip_embedded (pre s post : str) (Hpre : blank pre) (Hpost : blank post) :
  PyStr.strip (pre ++ s ++ post) = PyStr.strip s.
Proof.
  unfold PyStr.strip. rewrite (lstrip_app_blank pre _ Hpre).
  destruct (PyStr.lstrip s) as [|c r] eqn:Hs.
  - rewrite lstrip_spaces; [reflexivity|].
    apply Forall_app. split; [apply lstrip_nil_blank; exact Hs|exact Hpost].
  - rewrite lstrip_app_rest; [|rewrite Hs; discriminate].
    rewrite Hs. apply rstrip_app_blank. exact Hpost.
Qed.

(** A text that neither begins nor ends with white space is its own
    [strip]. *)
Lemma strip_tight (a b : char) (m : str)
  (Ha : PyStr.isspace a = false) (Hb : PyStr.isspace b = false) :
  PyStr.strip (a :: m ++ [b]) = a :: m ++ [b].
Proof.
  unfold PyStr.strip. cbn [PyStr.lstrip]. rewrite Ha.
  unfold PyStr.rstrip.
  change (a :: m ++ [b]) with ((a :: m) ++ [b]).
  rewrite rev_app_distr. cbn [rev app PyStr.lstrip]. rewrite Hb.
  change (b :: rev m ++ [a]) with ([b] ++ rev (a :: m)).
  rewrite rev_app_distr, rev_involutive. reflexivity.
Qed.

Lemma startswith_app (p s : str) : PyStr.startswith (p ++ s) p = true.
Proof.
  induction p as [|c p IH]; [destruct s; reflexivity|].
  cbn [app PyStr.startswith]. rewrite chr_eqb_refl. exact IH.
Qed.

(** [s[7:-3]] cuts seven characters in front and three at the end. *)
Lemma slice_7_3 (p mid q : str)
  (Hp : length p = 7%nat) (Hq : length q = 3%nat) :
  PyStr.slice (p ++ mid ++ q) 7 (-3) = mid.
Proof.
  unfold PyStr.slice, PyStr.len.
  rewrite !length_app, Hp, Hq.
  replace (7 <? 0)%Z with false by reflexivity.
  replace (-3 <? 0)%Z with true by reflexivity.
  rewrite Z.min_l by lia. rewrite Z.max_r by lia.
  replace (Z.to_nat (-3 + Z.of_nat (7 + (length mid + 3)) - 7))
    with (length mid) by lia.
  replace (Z.to_nat 7) with (length p) by (rewrite Hp; reflexivity).
  rewrite skipn_app, skipn_all, Nat.sub_diag. cbn [skipn app].
  rewrite firstn_app, firstn_all, Nat.sub_diag. cbn [firstn].
  apply app_nil_r.
Qed.

Lemma fenced_strip (tag pre s post : str) :
  PyStr.strip (fenced tag pre s post) = fenced tag pre s post.
Proof.
  unfold fenced.
  replace ("```" ++ tag ++ pre ++ s ++ post ++ "```")
    with ("`"%cp :: ("``" ++ tag ++ pre ++ s ++ post ++ "``") ++ ["`"%cp]).
  - apply strip_tight; reflexivity.
  - cbn [app]. rewrite <- !app_assoc. reflexivity.
Qed.

Lemma fenced_startswith (tag pre s post : str) :
  PyStr.startswith (fenced tag pre s post) "```" = true.
Proof. unfold fenced. apply startswith_app. Qed.

(** What both rescuers parse in the place of a fenced reply. *)
Lemma fenced_cut (tag pre s post : str)
  (Htag : length tag = 4%nat) (Hpre : blank pre) (Hpost : blank post) :
  PyStr.strip (PyStr.slice (fenced tag pre s post) 7 (-3)) = PyStr.strip s.
Proof.
  unfold fenced.
  replace ("```" ++ tag ++ pre ++ s ++ post ++ "```")
    with (("```" ++ tag) ++ (pre ++ s ++ post) ++ "```")
    by (rewrite <- !app_assoc; reflexivity).
  rewrite slice_7_3.
  - apply strip_embedded; assumption.
  - cbn [length app]. do 3 f_equal. exact Htag.
  - reflexivity.
Qed.

(* ================================================================== *)
(** * Computations whose outcome does not depend on the world *)

Lemma steady_ret {A} (a : A) : steady (ret a).
Proof. intros w w'. reflexivity. Qed.

Lemma steady_raise {A} (e : exn) : steady (@raise A e).
Proof. intros w w'. reflexivity. Qed.

Lemma steady_bind {A B} (m : M A) (k : A -> M B)
  (Hm : steady m) (Hk : forall a, steady (k a)) : steady (bind m k).
Proof.
  intros w w'. unfold bind. specialize (Hm w w').
  destruct (m w) as [[a|e] w1], (m w') as [[a'|e'] w1']; simpl in Hm;
    try discriminate.
  - inversion Hm; subst a'. apply Hk.
  - inversion Hm. reflexivity.
Qed.

Lemma steady_try {A} (m : M A) (c : exn -> bool) (h : exn -> M A)
  (Hm : steady m) (Hh : forall e, steady (h e)) : steady (try_except m c h).
Proof.
  intros w w'. unfold try_except. specialize (Hm w w').
  destruct (m w) as [[a|e] w1], (m w') as [[a'|e'] w1']; simpl in Hm;
    try discriminate.
  - simpl. exact Hm.
  - inversion Hm; subst e'. destruct (c e); [apply Hh|reflexivity].
Qed.

Lemma steady_print {E : env} (Hout : stdout_open E) (m : message) :
  steady (print E m).
Proof. intros w w'. rewrite !(print_run Hout). reflexivity. Qed.

Lemma steady_log (l : level) (m : message) : steady (log l m).
Proof. intros w w'. reflexivity. Qed.

Lemma steady_json_loads (E : env) (s : str) : steady (json_loads E s).
Proof.
  unfold json_loads. destruct (loads (text_limits E) s);
    [apply steady_ret|apply steady_raise|apply steady_raise].
Qed.

Lemma steady_getitem (v : json) (k : str) : steady (getitem v k).
Proof.
  destruct v; try apply steady_raise. unfold getitem.
  destruct (dict_get d k); [apply steady_ret|apply steady_raise].
Qed.

Lemma steady_setitem (v : json) (k : str) (x : json) : steady (setitem v k x).
Proof. destruct v; try apply steady_raise. apply steady_ret. Qed.

Lemma steady_method_lower (v : json) : steady (method_lower v).
Proof. destruct v; try apply steady_raise. apply steady_ret. Qed.

Lemma steady_method_get (v : json) (k : str) (d : json) :
  steady (method_get v k d).
Proof. destruct v; try apply steady_raise. apply steady_ret. Qed.

Lemma steady_contains (v : json) (k : str) : steady (contains v k).
Proof. destruct v; try apply steady_raise; apply steady_ret. Qed.

Ltac steady_step Hout :=
  first
    [ apply steady_ret | apply steady_raise | apply (steady_print Hout)
    | apply steady_log | apply steady_json_loads
    | apply steady_getitem | apply steady_setitem
    | apply steady_method_lower | apply steady_method_get
    | apply steady_contains
    | apply steady_bind; [|intros ?]
    | apply steady_try; [|intros ?]
    | match goal with
      | |- steady (if ?b then _ else _) => destruct b
      | |- steady (match ?x with _ => _ end) => destruct x
      end ].

(** For a truthy value, what [validate] of [app.py] returns depends on the
    value alone. *)
Lemma validate_steady {E : env} (Hout : stdout_open E) (res : json)
  (Ht : truthy res = true) (c c' : str) (w w' : world) :
  fst (App.validate E c res w) = fst (App.validate E c' res w').
Proof.
  unfold App.validate. rewrite Ht. cbn [negb].
  match goal with
  | |- fst (?m w) = fst (?m w') => assert (H : steady m); [|apply H]
  end.
  repeat steady_step Hout.
Qed.

Lemma guarded_fst (m m' : M (option json * option message)) (w w' : world)
  (H : fst (m w) = fst (m' w')) : fst (guarded m w) = fst (guarded m' w').
Proof.
  unfold guarded, try_except.
  destruct (m w) as [[a|e] w1], (m' w') as [[a'|e'] w1']; simpl in *;
    try discriminate.
  - exact H.
  - inversion H. reflexivity.
Qed.

(* ================================================================== *)
(** * A fence with a language tag *)

Lemma parse_no_fence (s : str) (v : json) (H : parse s = Some v) :
  PyStr.startswith (PyStr.strip s) "```" = false.
Proof.
  apply parse_strip in H.
  destruct (PyStr.startswith (PyStr.strip s) "```") eqn:Hf; [|reflexivity].
  pose proof (loads_backquote sample_limits _ Hf) as Hb.
  destruct (parse_loads sample_limits _ _ H) as [Hv|(x & Hx)]; congruence.
Qed.

Lemma method1_refused {E : env} {c : str} (r : json) {x : refusal} (w : world)
  (H : loads (text_limits E) c = Refused x) :
  App.method1 E c r w = (Raise (refusal_exn x), w).
Proof.
  unfold App.method1. apply try_passed; [|destruct x; reflexivity].
  apply bind_raise. apply json_loads_refused. exact H.
Qed.

Lemma method2_refused {E : env} (c : str) {r : json} {x : refusal} (w : world)
  (Hr : truthy r = false)
  (H : loads (text_limits E) (App.clean_content c) = Refused x) :
  App.method2 E c r w = (Raise (refusal_exn x), w).
Proof.
  unfold App.method2. rewrite Hr.
  apply try_passed; [|destruct x; reflexivity].
  apply bind_raise. apply json_loads_refused. exact H.
Qed.

Lemma rescue_fenced {E : env} (Hout : stdout_open E)
  (tag pre s post : str) (v : json) (w w' : world)
  (Hdoc : parse s = Some v) (Ht : truthy v = true)
  (Htag : length tag = 4%nat) (Hpre : blank pre) (Hpost : blank post) :
  fst (App.rescue E (fenced tag pre s post) w)
  = fst (App.rescue E (PyStr.strip s) w').
Proof.
  assert (Hclean : App.clean_content (fenced tag pre s post) = PyStr.strip s).
  { unfold App.clean_content. rewrite fenced_startswith.
    apply (fenced_cut tag pre s post Htag Hpre Hpost). }
  pose proof (loads_backquote (text_limits E) _
                (fenced_startswith tag pre s post)) as Hfence.
  unfold App.rescue.
  rewrite !(bind_run _ (print_run Hout _ _)).
  destruct (parse_loads (text_limits E) _ _ (parse_strip _ _ Hdoc))
    as [Hs|(x & Hx)].
  - rewrite (bind_run _ (cascade_direct Hout _ Hs Ht)).
    assert (Hc : exists w1,
               App.cascade E (fenced tag pre s post)
                 (say w [Print [Lit "Raw Groq response: ";
                                Lit (fenced tag pre s post)]])
               = (Ret v, w1)).
    { unfold App.cascade.
      rewrite (bind_run _ (method1_none _ _ Hfence)).
      rewrite <- Hclean in Hs.
      rewrite (bind_run _ (method2_some Hout _ _
                             (eq_refl : truthy JNull = false) Hs)).
      eexists. apply method3_truthy. exact Ht. }
    destruct Hc as (w1 & Hc). rewrite (bind_run _ Hc).
    apply (validate_steady Hout v Ht).
  - assert (Hbare : forall w1,
               App.cascade E (PyStr.strip s) w1 = (Raise (refusal_exn x), w1)).
    { intros w1. unfold App.cascade.
      apply bind_raise. apply (method1_refused JNull _ Hx). }
    assert (Hfenced : forall w1,
               App.cascade E (fenced tag pre s post) w1
               = (Raise (refusal_exn x), w1)).
    { intros w1. unfold App.cascade.
      rewrite (bind_run _ (method1_none _ _ Hfence)).
      rewrite <- Hclean in Hx.
      apply bind_raise.
      apply (method2_refused _ _ (eq_refl : truthy JNull = false) Hx). }
    rewrite (bind_raise _ (Hbare _)), (bind_raise _ (Hfenced _)).
    reflexivity.
Qed.

Lemma parse_content_fenced (E : env) (tag pre s post : str) (v : json)
  (w : world)
  (Hdoc : parse s = Some v)
  (Htag : length tag = 4%nat) (Hpre : blank pre) (Hpost : blank post) :
  Utils.parse_content E (fenced tag pre s post) w
  = Utils.parse_content E (PyStr.strip s) w.
Proof.
  unfold Utils.parse_content.
  assert (H0 : Utils.strip_code_block (PyStr.strip s) = PyStr.strip s).
  { unfold Utils.strip_code_block.
    rewrite (parse_no_fence s v Hdoc). reflexivity. }
  assert (H : Utils.strip_code_block (fenced tag pre s post) = PyStr.strip s).
  { unfold Utils.strip_code_block. rewrite fenced_startswith.
    apply fenced_cut; assumption. }
  rewrite H, H0. reflexivity.
Qed.

(** X6: a valid JSON document [s] put in a code fence with a language tag
    of four characters ([```json]), with any white space around it inside
    the fence, is rescued as [s] itself is: [_parse_response] does the
    same on both replies, and [analyze_with_groq] of [app.py] returns the
    same pair for both when the document is truthy and standard output
    takes what is printed.  This also holds for a document that the
    decoder refuses for its digits or its nesting: both replies then fail
    alike. *)
Theorem tagged_fence_rescued (tag pre s post : str) (v : json)
  (Hdoc : parse s = Some v)
  (Htag : length tag = 4%nat) (Hpre : blank pre) (Hpost : blank post) :
  (forall E t w1 w2,
     truthy v = true -> stdout_open E -> App.no_api_key E = false ->
     answers E w1 (fenced tag pre s post) -> answers E w2 s ->
     fst (App.analyze_with_groq E t w1) = fst (App.analyze_with_groq E t w2))
  /\ (forall E d1 d2 w,
        content_of d1 = Some (JStr (fenced tag pre s post)) ->
        content_of d2 = Some (JStr s) ->
        Utils._parse_response E d1 w = Utils._parse_response E d2 w).
Proof.
  split.
  - intros E t w1 w2 Ht Hout Hkey H1 H2.
    rewrite (app_analyze_answered E Hout t w1 _ Hkey H1).
    rewrite (app_analyze_answered E Hout t w2 _ Hkey H2).
    apply guarded_fst. rewrite fenced_strip.
    apply (rescue_fenced Hout tag pre s post v _ _ Hdoc Ht Htag Hpre Hpost).
  - intros E d1 d2 w H1 H2.
    rewrite (parse_response_content w H1), (parse_response_content w H2).
    rewrite fenced_strip.
    apply (parse_content_fenced E tag pre s post v w Hdoc Htag Hpre Hpost).
Qed.

Lemma tagged_fence_rescued_witness :
  let s := PyStr.q "{'summary':'ok','sentiment':'Positive'}" in
  let reply := fenced "json" nl s nl in
  Utils._parse_response env0 (chat_response reply) w0
  = Utils._parse_response env0 (chat_response s) w0.
Proof.
  cbv zeta.
  destruct (tagged_fence_rescued "json" nl
              (PyStr.q "{'summary':'ok','sentiment':'Positive'}") nl
              (JObj [("summary", JStr "ok"); ("sentiment", JStr "Positive")]))
    as [_ H].
  - vm_compute. reflexivity.
  - reflexivity.
  - repeat constructor.
  - repeat constructor.
  - apply H; reflexivity.
Defined.

(* ================================================================== *)
(** * The [/analyze] handler *)

(** The handler once it has a transcript of an accepted length, on a
    standard output that takes what is printed. *)
Lemma handler_run {E : env} (Hout : stdout_open E) (req : App.request)
  (t : str) (w : world)
  (Hreq : carries req t)
  (Hne : PyStr.strip t <> [])
  (Hlen : (PyStr.len (PyStr.strip t) <= 10000)%Z) :
  exists p w2,
    App.analyze_with_groq E (PyStr.strip t)
      (say w [analyzing_line (PyStr.strip t)]) = (Ret p, w2)
    /\ App.analyze E req w = handler_answer E (PyStr.strip t) p w2.
Proof.
  destruct (handler_reads_transcript req t Hreq) as (data & Hd & Hg).
  destruct (app_analyze_returns E (PyStr.strip t)
              (say w [analyzing_line (PyStr.strip t)])) as (p & w2 & Ha).
  exists p, w2. split; [exact Ha|].
  unfold App.analyze. rewrite Hd.
  remember (PyStr.strip t) as tr eqn:Htr.
  destruct tr as [|c tr]; [congruence|].
  assert (Hgt : (PyStr.len (c :: tr) >? 10000)%Z = false).
  { destruct (PyStr.len (c :: tr) >? 10000)%Z eqn:Hgt; [|reflexivity].
    apply Z.gtb_lt in Hgt. lia. }
  unfold analyzing_line in Ha.
  unfold handler_answer.
  destruct p as [res [err|]].
  - apply try_ret.
    unfold bind at 1. cbn [ret]. unfold bind at 1. rewrite Hg. cbn [ret].
    unfold bind at 1. cbn [method_strip ret]. rewrite <- Htr. rewrite Hgt.
    rewrite (bind_run _ (print_run Hout _ _)).
    rewrite (bind_run _ Ha).
    rewrite (bind_run _ (print_run Hout _ _)). reflexivity.
  - cbv zeta.
    destruct (App.append_to_csv E (c :: tr)
                match res with Some v => v | None => JNull end
                (say w2 [Print [Lit "Analysis successful: ";
                                fmt match res with Some v => v | None => JNull end]]))
      as [[u|e] w4] eqn:Hcsv.
    + apply try_ret.
      unfold bind at 1. cbn [ret]. unfold bind at 1. rewrite Hg. cbn [ret].
      unfold bind at 1. cbn [method_strip ret]. rewrite <- Htr. rewrite Hgt.
      rewrite (bind_run _ (print_run Hout _ _)).
      rewrite (bind_run _ Ha).
      rewrite (bind_run _ (print_run Hout _ _)).
      rewrite (bind_run _ (try_ret _ _ Hcsv)). reflexivity.
    + apply try_ret.
      unfold bind at 1. cbn [ret]. unfold bind at 1. rewrite Hg. cbn [ret].
      unfold bind at 1. cbn [method_strip ret]. rewrite <- Htr. rewrite Hgt.
      rewrite (bind_run _ (print_run Hout _ _)).
      rewrite (bind_run _ Ha).
      rewrite (bind_run _ (print_run Hout _ _)).
      rewrite (bind_run _ (eq_trans (try_caught _ Hcsv eq_refl)
                                    (print_run Hout _ _))).
      reflexivity.
Qed.

(* ================================================================== *)
(** * The CSV file *)

Lemma still_of_quiet {A} (m : M A) (H : quiet m) : still m.
Proof. intros w. apply H. Qed.

Lemma csv_extends_refl (c : option (list (list json))) : csv_extends c c.
Proof.
  destruct c as [rows|]; cbn.
  - exists []. rewrite app_nil_r. split; [reflexivity|cbn [length]; lia].
  - left. reflexivity.
Qed.

Lemma appending_of_still {A} (m : M A) (H : still m) : appending m.
Proof. intros w. rewrite (H w). apply csv_extends_refl. Qed.

Lemma still_bind {A B} (m : M A) (k : A -> M B)
  (Hm : still m) (Hk : forall a, still (k a)) : still (bind m k).
Proof.
  intros w. unfold bind. specialize (Hm w).
  destruct (m w) as [[a|e] w1]; simpl in Hm; [|exact Hm].
  rewrite (Hk a w1). exact Hm.
Qed.

Lemma still_try {A} (m : M A) (c : exn -> bool) (h : exn -> M A)
  (Hm : still m) (Hh : forall e, still (h e)) : still (try_except m c h).
Proof.
  intros w. unfold try_except. specialize (Hm w).
  destruct (m w) as [[a|e] w1]; simpl in Hm; [exact Hm|].
  destruct (c e); [|exact Hm]. rewrite (Hh e w1). exact Hm.
Qed.

Lemma appending_bind_l {A B} (m : M A) (k : A -> M B)
  (Hm : still m) (Hk : forall a, appending (k a)) : appending (bind m k).
Proof.
  intros w. unfold bind. specialize (Hm w).
  destruct (m w) as [[a|e] w1]; simpl in Hm.
  - rewrite <- Hm. apply Hk.
  - cbn [snd]. rewrite Hm. apply csv_extends_refl.
Qed.

Lemma appending_bind_r {A B} (m : M A) (k : A -> M B)
  (Hm : appending m) (Hk : forall a, still (k a)) : appending (bind m k).
Proof.
  intros w. unfold bind. specialize (Hm w).
  destruct (m w) as [[a|e] w1]; simpl in Hm.
  - rewrite (Hk a w1). exact Hm.
  - exact Hm.
Qed.

Lemma appending_try {A} (m : M A) (c : exn -> bool) (h : exn -> M A)
  (Hm : appending m) (Hh : forall e, still (h e)) :
  appending (try_except m c h).
Proof.
  intros w. unfold try_except. specialize (Hm w).
  destruct (m w) as [[a|e] w1]; simpl in Hm; [exact Hm|].
  destruct (c e); [|exact Hm]. rewrite (Hh e w1). exact Hm.
Qed.

(** The row that [append_to_csv] writes is read off the result without
    any effect. *)
Lemma quiet_row (E : env) (t : str) (r : json) :
  quiet (summary <- getitem r "summary" ;;
         sentiment <- getitem r "sentiment" ;;
         ret [JStr (now_isoformat E); JStr t; summary; sentiment]).
Proof. quiet_all. Qed.

(** Appending to a file that is there adds one row or none. *)
Lemma append_row_there (E : env) (row : M (list json)) (Hrow : quiet row)
  (w : world) (rows : list (list json)) (Hw : csv w = Some rows) :
  posts (snd (App.append_row E row w)) = posts w
  /\ exists more,
       csv (snd (App.append_row E row w)) = Some (rows ++ more)
       /\ (length more <= 1)%nat.
Proof.
  unfold App.append_row. rewrite Hw.
  destruct (open_a_raises E) as [e|].
  { cbn [snd]. split; [reflexivity|]. exists []. rewrite app_nil_r.
    split; [exact Hw|cbn [length]; lia]. }
  destruct (Hrow (mkWorld (posts w) (Some rows) (out w))) as [Hp Hc].
  destruct (row (mkWorld (posts w) (Some rows) (out w))) as [[r|e] w'];
    cbn [snd posts csv] in *.
  - destruct (App.row_encodable r); cbn [snd posts csv].
    + split; [exact Hp|]. exists [r]. split; [reflexivity|cbn [length]; lia].
    + split; [exact Hp|]. exists []. rewrite app_nil_r.
      split; [exact Hc|cbn [length]; lia].
  - split; [exact Hp|]. exists []. rewrite app_nil_r.
    split; [exact Hc|cbn [length]; lia].
Qed.

(** [append_to_csv] makes no post and adds at most one row, after the
    header when it creates the file; whatever the environment. *)
Lemma append_to_csv_world (E : env) (t : str) (r : json) (w : world) :
  exists o w',
    App.append_to_csv E t r w = (o, w')
    /\ posts w' = posts w /\ csv_extends (csv w) (csv w').
Proof.
  unfold App.append_to_csv.
  assert (Hh : forall e w2,
             posts w2 = posts w -> csv_extends (csv w) (csv w2) ->
             exists o w',
               (print E (Lit "Error writing to CSV: " :: str_exn e) ;;
                @raise unit e) w2 = (o, w')
               /\ posts w' = posts w /\ csv_extends (csv w) (csv w')).
  { intros e w2 Hp Hc.
    assert (Hq : quiet (print E (Lit "Error writing to CSV: " :: str_exn e) ;;
                        @raise unit e)) by quiet_all.
    destruct (Hq w2) as [Qp Qc].
    destruct ((print E (Lit "Error writing to CSV: " :: str_exn e) ;;
               @raise unit e) w2) as [o w']; cbn [snd] in Qp, Qc.
    exists o, w'. split; [reflexivity|]. rewrite Qp, Qc.
    split; assumption. }
  assert (Hrest :
    forall w1 rows,
      posts w1 = posts w -> csv w1 = Some rows ->
      forall w2 (o : outcome unit),
        (bind (App.append_row E
                 (summary <- getitem r "summary" ;;
                  sentiment <- getitem r "sentiment" ;;
                  ret [JStr (now_isoformat E); JStr t; summary; sentiment]))
              (fun _ => print E [Lit "Successfully saved to ";
                                 Lit "call_analysis.csv"]) w1) = (o, w2) ->
        posts w2 = posts w
        /\ exists more, csv w2 = Some (rows ++ more) /\ (length more <= 1)%nat).
  { intros w1 rows Hp Hc w2 o Hrun. unfold bind in Hrun.
    destruct (append_row_there E _ (quiet_row E t r) w1 rows Hc)
      as (Ap & more & Ac & Al).
    destruct (App.append_row E _ w1) as [[u|e] w3]; cbn [snd] in Ap, Ac.
    - destruct (quiet_print E [Lit "Successfully saved to ";
                               Lit "call_analysis.csv"] w3) as [Pp Pc].
      rewrite Hrun in Pp, Pc. cbn [snd] in Pp, Pc.
      split; [congruence|]. exists more. split; [congruence|exact Al].
    - inversion Hrun; subst. split; [congruence|].
      exists more. split; [exact Ac|exact Al]. }
  unfold try_except. unfold bind at 1. unfold App.csv_exists at 1. cbv beta iota.
  destruct (csv w) as [rows|] eqn:Hw; cbn [negb].
  - (* the file is there *)
    unfold bind at 1. cbn [ret]. cbv beta iota.
    match goal with
    | |- context [let (_, _) := ?x in _] => destruct x as [o w2] eqn:Hrun
    end.
    destruct (Hrest w rows eq_refl Hw w2 o Hrun) as (Hp & more & Hc & Hl).
    assert (Hext : csv_extends (Some rows) (csv w2))
      by (exists more; split; assumption).
    destruct o as [u|e].
    + exists (Ret u), w2. split; [reflexivity|]. split; assumption.
    + unfold is_exception. apply (Hh e w2 Hp Hext).
  - (* the file is created first *)
    unfold bind at 1. unfold bind at 1. unfold App.create_csv at 1.
    destruct (open_w_raises E) as [e|]; cbv beta iota.
    + unfold is_exception. apply (Hh e w); [reflexivity|].
      rewrite Hw. left. reflexivity.
    + pose proof (quiet_print E [Lit "Created new CSV file: ";
                                Lit "call_analysis.csv"]
                    (mkWorld (posts w) (Some [App.csv_header]) (out w)))
        as [Pp Pc].
      destruct (print E [Lit "Created new CSV file: "; Lit "call_analysis.csv"]
                  (mkWorld (posts w) (Some [App.csv_header]) (out w)))
        as [[u|e] w1]; cbn [snd posts csv] in Pp, Pc; cbv beta iota.
      * match goal with
        | |- context [let (_, _) := ?x in _] => destruct x as [o w2] eqn:Hrun
        end.
        destruct (Hrest w1 [App.csv_header] Pp Pc w2 o Hrun)
          as (Hp & more & Hc & Hl).
        assert (Hext : csv_extends None (csv w2))
          by (right; exists more; split; assumption).
        destruct o as [u'|e].
        -- exists (Ret u'), w2. split; [reflexivity|]. split; assumption.
        -- unfold is_exception. apply (Hh e w2); assumption.
      * unfold is_exception. apply (Hh e w1); [exact Pp|].
        right. exists []. split; [exact Pc|cbn [length]; lia].
Qed.

Lemma appending_append_to_csv (E : env) (t : str) (r : json) :
  appending (App.append_to_csv E t r).
Proof.
  intros w. destruct (append_to_csv_world E t r w) as (o & w' & -> & _ & H).
  exact H.
Qed.

(* ================================================================== *)
(** * Posts and rows of a whole request *)

Lemma offline_of_quiet {A} (m : M A) (H : quiet m) : offline m.
Proof. intros w. apply H. Qed.

Lemma posting_of_offline {A} (n : nat) (m : M A) (H : offline m) :
  posting n m.
Proof. intros w. rewrite (H w). lia. Qed.

Lemma posting_bind_l {A B} (n : nat) (m : M A) (k : A -> M B)
  (Hm : offline m) (Hk : forall a, posting n (k a)) : posting n (bind m k).
Proof.
  intros w. unfold bind. specialize (Hm w).
  destruct (m w) as [[a|e] w1]; cbn [snd] in *.
  - rewrite <- Hm. apply Hk.
  - lia.
Qed.

Lemma posting_bind_r {A B} (n : nat) (m : M A) (k : A -> M B)
  (Hm : posting n m) (Hk : forall a, offline (k a)) : posting n (bind m k).
Proof.
  intros w. unfold bind. specialize (Hm w).
  destruct (m w) as [[a|e] w1]; cbn [snd] in *.
  - rewrite (Hk a w1). exact Hm.
  - exact Hm.
Qed.

Lemma posting_try {A} (n : nat) (m : M A) (c : exn -> bool) (h : exn -> M A)
  (Hm : posting n m) (Hh : forall e, offline (h e)) :
  posting n (try_except m c h).
Proof.
  intros w. unfold try_except. specialize (Hm w).
  destruct (m w) as [[a|e] w1]; cbn [snd] in *; [exact Hm|].
  destruct (c e); [|exact Hm]. rewrite (Hh e w1). exact Hm.
Qed.

Lemma offline_try {A} (m : M A) (c : exn -> bool) (h : exn -> M A)
  (Hm : offline m) (Hh : forall e, offline (h e)) :
  offline (try_except m c h).
Proof.
  intros w. unfold try_except. specialize (Hm w).
  destruct (m w) as [[a|e] w1]; cbn [snd] in *; [exact Hm|].
  destruct (c e); [|exact Hm]. rewrite (Hh e w1). exact Hm.
Qed.

Lemma offline_bind {A B} (m : M A) (k : A -> M B)
  (Hm : offline m) (Hk : forall a, offline (k a)) : offline (bind m k).
Proof.
  intros w. unfold bind. specialize (Hm w).
  destruct (m w) as [[a|e] w1]; cbn [snd] in *; [|exact Hm].
  rewrite (Hk a w1). exact Hm.
Qed.

Lemma offline_append_to_csv (E : env) (t : str) (r : json) :
  offline (App.append_to_csv E t r).
Proof.
  intros w. destruct (append_to_csv_world E t r w) as (o & w' & -> & H & _).
  exact H.
Qed.

Lemma still_app_analyze (E : env) (t : str) :
  still (App.analyze_with_groq E t).
Proof.
  intros w. destruct (App.no_api_key E) eqn:Hkey.
  - unfold App.analyze_with_groq. rewrite Hkey. reflexivity.
  - destruct (app_analyze_world E t w Hkey) as (o & w2 & -> & Hc & _).
    exact Hc.
Qed.

Lemma posting_app_analyze (E : env) (t : str) :
  posting 1 (App.analyze_with_groq E t).
Proof.
  intros w. destruct (App.no_api_key E) eqn:Hkey.
  - unfold App.analyze_with_groq. rewrite Hkey. cbn [ret snd]. lia.
  - destruct (app_analyze_world E t w Hkey) as (o & w2 & -> & _ & Hp & _).
    exact Hp.
Qed.

(** Reading the transcript off the request has no effect. *)
Lemma quiet_read_request (req : App.request) :
  quiet (if App.is_json req then
           match App.json_body req with
           | Some v => ret v
           | None => raise BadRequest
           end
         else ret (JObj [("transcript",
                          JStr (App.form_get (App.form req) "transcript" ""))])).
Proof. quiet_all. Qed.

Lemma appending_handler (E : env) (req : App.request) :
  appending (App.analyze E req).
Proof.
  unfold App.analyze.
  apply appending_try; [|intros e; apply still_of_quiet; quiet_all].
  apply appending_bind_l;
    [apply still_of_quiet, quiet_read_request|intros data].
  apply appending_bind_l;
    [apply still_of_quiet, quiet_method_get|intros t].
  apply appending_bind_l;
    [apply still_of_quiet, quiet_method_strip|intros tr].
  destruct tr as [|c tr];
    [apply appending_of_still, still_of_quiet, quiet_ret|].
  destruct (PyStr.len (c :: tr) >? 10000)%Z;
    [apply appending_of_still, still_of_quiet, quiet_ret|].
  apply appending_bind_l; [apply still_of_quiet, quiet_print|intros _].
  apply appending_bind_l; [apply still_app_analyze|intros [res [err|]]].
  - apply appending_of_still, still_of_quiet. quiet_all.
  - cbv zeta.
    apply appending_bind_l; [apply still_of_quiet, quiet_print|intros _].
    apply appending_bind_r; [|intros _; apply still_of_quiet, quiet_ret].
    apply appending_try; [apply appending_append_to_csv|].
    intros e. apply still_of_quiet, quiet_print.
Qed.

Lemma posting_handler (E : env) (req : App.request) :
  posting 1 (App.analyze E req).
Proof.
  unfold App.analyze.
  apply posting_try; [|intros e; apply offline_of_quiet; quiet_all].
  apply posting_bind_l;
    [apply offline_of_quiet, quiet_read_request|intros data].
  apply posting_bind_l;
    [apply offline_of_quiet, quiet_method_get|intros t].
  apply posting_bind_l;
    [apply offline_of_quiet, quiet_method_strip|intros tr].
  destruct tr as [|c tr];
    [apply posting_of_offline, offline_of_quiet, quiet_ret|].
  destruct (PyStr.len (c :: tr) >? 10000)%Z;
    [apply posting_of_offline, offline_of_quiet, quiet_ret|].
  apply posting_bind_l; [apply offline_of_quiet, quiet_print|intros _].
  apply posting_bind_r; [apply posting_app_analyze|intros [res [err|]]].
  - apply offline_of_quiet. quiet_all.
  - cbv zeta.
    apply offline_bind; [apply offline_of_quiet, quiet_print|intros _].
    apply offline_bind; [|intros _; apply offline_of_quiet, quiet_ret].
    apply offline_try; [apply offline_append_to_csv|].
    intros e. apply offline_of_quiet, quiet_print.
Qed.

(** X7: whatever the request and the environment, also when standard
    output or the file system fail, one call of the [/analyze] handler
    makes at most one post and treats the CSV file as a log: the rows that
    are there stay in place and at most one row is added, after the header
    when the file is created. *)
Theorem handler_appends_at_most_one_row (E : env) (req : App.request)
  (w : world) :
  csv_extends (csv w) (csv (snd (App.analyze E req w)))
  /\ (posts (snd (App.analyze E req w)) <= posts w + 1)%nat.
Proof.
  split; [apply appending_handler|apply posting_handler].
Qed.

Lemma handler_blank (E : env) (req : App.request) (t : str) (w : world)
  (Hreq : carries req t) (Hblank : PyStr.strip t = []) :
  App.analyze E req w
  = (Ret (App.JsonifyError [Lit "Transcript is required"], 400%Z), w).
Proof.
  destruct (handler_reads_transcript req t Hreq) as (data & Hd & Hg).
  unfold App.analyze. rewrite Hd. apply try_ret.
  unfold bind at 1. cbn [ret]. unfold bind at 1. rewrite Hg. cbn [ret].
  unfold bind at 1. cbn [method_strip ret]. rewrite Hblank. reflexivity.
Qed.

Lemma handler_too_long (E : env) (req : App.request) (t : str) (w : world)
  (Hreq : carries req t) (Hlong : (10000 < PyStr.len (PyStr.strip t))%Z) :
  App.analyze E req w
  = (Ret (App.JsonifyError
            [Lit "Transcript too long (max 10,000 characters)"], 400%Z), w).
Proof.
  destruct (handler_reads_transcript req t Hreq) as (data & Hd & Hg).
  unfold App.analyze. rewrite Hd. apply try_ret.
  unfold bind at 1. cbn [ret]. unfold bind at 1. rewrite Hg. cbn [ret].
  unfold bind at 1. cbn [method_strip ret].
  destruct (PyStr.strip t) as [|c tr] eqn:Htr.
  { cbn in Hlong. lia. }
  apply Z.gtb_lt in Hlong. rewrite Hlong. reflexivity.
Qed.

(** A request from which no transcript can be read is answered with a
    server error. *)
Lemma handler_unreadable (req : App.request) :
  (exists t, carries req t)
  \/ (exists e,
        forall E w, stdout_open E ->
          App.analyze E req w
          = (Ret (App.JsonifyError (Lit "Server error: " :: str_exn e), 500%Z),
             say w [Print (Lit "Server error: " :: str_exn e)])).
Proof.
  assert (Hfail : forall e E w (k : M (App.body * Z)),
            stdout_open E -> k w = (Raise e, w) ->
            try_except k is_exception
              (fun e =>
                 let error_msg := Lit "Server error: " :: str_exn e in
                 print E error_msg ;;
                 ret (App.JsonifyError error_msg, 500%Z)) w
            = (Ret (App.JsonifyError (Lit "Server error: " :: str_exn e), 500%Z),
               say w [Print (Lit "Server error: " :: str_exn e)])).
  { intros e E w k Hout Hk. rewrite (try_caught _ Hk eq_refl). cbv zeta.
    rewrite (bind_run _ (print_run Hout _ _)). reflexivity. }
  destruct req as [j b f]. unfold carries. cbn [App.is_json App.json_body App.form].
  destruct j.
  - destruct b as [v|].
    + destruct v as [| | | | | | | |d];
        try (right; exists AttributeError; intros E w Hout;
             unfold App.analyze; cbn [App.is_json App.json_body App.form];
             apply (Hfail _ _ _ _ Hout); reflexivity).
      destruct (dict_get d "transcript") as [x|] eqn:Hx.
      * destruct x as [| | | | | |t| |];
          try (right; exists AttributeError; intros E w Hout;
               unfold App.analyze; cbn [App.is_json App.json_body App.form];
               apply (Hfail _ _ _ _ Hout);
               unfold bind, ret, method_get, method_strip, raise;
               rewrite Hx; reflexivity).
        left. exists t, d. split; [reflexivity|]. rewrite Hx. reflexivity.
      * left. exists [], d. split; [reflexivity|]. rewrite Hx. reflexivity.
    + right. exists BadRequest. intros E w Hout.
      unfold App.analyze. cbn [App.is_json App.json_body App.form].
      apply (Hfail _ _ _ _ Hout). reflexivity.
  - left. eexists. reflexivity.
Qed.

Lemma handler_answer_world (E : env) (tr : str)
  (p : option json * option message) (w2 : world) :
  posts (snd (handler_answer E tr p w2)) = posts w2
  /\ (snd p <> None -> csv (snd (handler_answer E tr p w2)) = csv w2).
Proof.
  unfold handler_answer. destruct p as [res [err|]].
  - cbn [snd say posts csv]. split; [reflexivity|intros _; reflexivity].
  - cbv zeta. cbn [snd].
    match goal with
    | |- context [App.append_to_csv E tr ?r ?w] =>
        destruct (append_to_csv_world E tr r w) as (o & w' & -> & Hp & _)
    end.
    destruct o as [u|e]; cbn [snd say posts csv]; (split; [exact Hp|]);
      intros H; contradiction H; reflexivity.
Qed.

(** X8: on a standard output that takes what is printed, the [/analyze]
    handler answers every request and raises nothing: with status 200 and
    the result, or with status 400 or 500 and an error; and a request
    that is not answered with 200 leaves the CSV file as it was. *)
Theorem handler_always_answers (E : env) (req : App.request) (w : world)
  (Hout : stdout_open E) :
  exists b s w',
    App.analyze E req w = (Ret (b, s), w')
    /\ ((s = 200%Z /\ exists v, b = App.Jsonify v)
        \/ ((s = 400%Z \/ s = 500%Z)
            /\ (exists m, b = App.JsonifyError m)
            /\ csv w' = csv w)).
Proof.
  destruct (handler_unreadable req) as [(t & Hreq)|(e & He)].
  2:{ rewrite (He E w Hout). eexists; eexists; eexists.
      split; [reflexivity|]. right.
      split; [right; reflexivity|]. split; [eexists; reflexivity|reflexivity]. }
  destruct (PyStr.strip t) as [|c tr] eqn:Htr.
  { rewrite (handler_blank E req t w Hreq Htr). eexists; eexists; eexists.
    split; [reflexivity|]. right.
    split; [left; reflexivity|]. split; [eexists; reflexivity|reflexivity]. }
  destruct (Z_lt_le_dec 10000 (PyStr.len (PyStr.strip t))) as [Hlong|Hlen].
  { rewrite (handler_too_long E req t w Hreq Hlong). eexists; eexists; eexists.
    split; [reflexivity|]. right.
    split; [left; reflexivity|]. split; [eexists; reflexivity|reflexivity]. }
  assert (Hne : PyStr.strip t <> []) by (rewrite Htr; discriminate).
  destruct (handler_run Hout req t w Hreq Hne Hlen) as (p & w2 & Ha & ->).
  pose proof (still_app_analyze E (PyStr.strip t)
                (say w [analyzing_line (PyStr.strip t)])) as Hs.
  rewrite Ha in Hs. cbn [snd say csv] in Hs.
  destruct (handler_answer_world E (PyStr.strip t) p w2) as [_ Hc].
  revert Hc. unfold handler_answer. destruct p as [res [err|]]; intros Hc.
  - eexists; eexists; eexists. split; [reflexivity|]. right.
    split; [right; reflexivity|]. split; [eexists; reflexivity|].
    cbn [snd] in Hc. rewrite <- Hs. apply Hc. discriminate.
  - cbv zeta.
    match goal with
    | |- context [App.append_to_csv E ?t ?r ?w] =>
        destruct (App.append_to_csv E t r w) as [[u|e] w4]
    end; eexists; eexists; eexists; (split; [reflexivity|]); left;
      (split; [reflexivity|eexists; reflexivity]).
Qed.

Lemma handler_always_answers_witness :
  exists b s w',
    App.analyze (env_posting (PostRaises ConnectionError_))
      (App.mkRequest true (Some (JArr [])) []) w0
    = (Ret (b, s), w')
    /\ ((s = 200%Z /\ exists v, b = App.Jsonify v)
        \/ ((s = 400%Z \/ s = 500%Z)
            /\ (exists m, b = App.JsonifyError m)
            /\ csv w' = csv w0)).
Proof.
  apply (handler_always_answers
           (env_posting (PostRaises ConnectionError_))
           (App.mkRequest true (Some (JArr [])) []) w0).
  intros m. reflexivity.
Defined.

(** X9: the [/analyze] handler rejects a transcript of more than 10,000
    characters (counted after stripping) with status 400, before anything
    is printed, posted or written; a transcript of 1 to 10,000 characters
    is passed on: with an API key, and a standard output that takes what
    is printed, exactly one post is made. *)
Theorem handler_length_limit (req : App.request) (t : str)
  (Hreq : carries req t) :
  ((10000 < PyStr.len (PyStr.strip t))%Z ->
   forall E w,
     App.analyze E req w
     = (Ret (App.JsonifyError
               [Lit "Transcript too long (max 10,000 characters)"], 400%Z),
        w))
  /\ (PyStr.strip t <> [] -> (PyStr.len (PyStr.strip t) <= 10000)%Z ->
      forall E w, stdout_open E -> App.no_api_key E = false ->
        posts (snd (App.analyze E req w)) = S (posts w)).
Proof.
  split.
  - intros Hlong E w. exact (handler_too_long E req t w Hreq Hlong).
  - intros Hne Hlen E w Hout Hkey.
    destruct (handler_run Hout req t w Hreq Hne Hlen) as (p & w2 & Ha & ->).
    destruct (handler_answer_world E (PyStr.strip t) p w2) as [Hp _].
    rewrite Hp.
    destruct (app_analyze_world E (PyStr.strip t)
                (say w [analyzing_line (PyStr.strip t)]) Hkey)
      as (o & w2' & Heq & _ & _ & Hs).
    rewrite Ha in Heq. inversion Heq; subst. apply (Hs Hout).
Qed.

Lemma lstrip_tight (s : str)
  (H : Forall (fun c => PyStr.isspace c = false) s) : PyStr.lstrip s = s.
Proof.
  destruct H as [|c s Hc _]; [reflexivity|].
  cbn [PyStr.lstrip]. rewrite Hc. reflexivity.
Qed.

(** A text without white space is its own [strip]. *)
Lemma strip_no_space (s : str)
  (H : Forall (fun c => PyStr.isspace c = false) s) : PyStr.strip s = s.
Proof.
  unfold PyStr.strip, PyStr.rstrip. rewrite (lstrip_tight s H).
  rewrite lstrip_tight; [apply rev_involutive|apply Forall_rev; exact H].
Qed.

Lemma strip_repeat_a (n : nat) :
  PyStr.strip (repeat "a"%cp n) = repeat "a"%cp n.
Proof.
  apply strip_no_space. apply Forall_forall. intros x Hx.
  apply repeat_spec in Hx. subst x. reflexivity.
Qed.

Lemma len_repeat_a (z : Z) (Hz : (0 <= z)%Z) :
  PyStr.len (PyStr.strip (repeat "a"%cp (Z.to_nat z))) = z.
Proof.
  rewrite strip_repeat_a. unfold PyStr.len. rewrite repeat_length. lia.
Qed.

Lemma handler_length_limit_witness :
  App.analyze env0
    (App.mkRequest false None [("transcript", repeat "a"%cp (Z.to_nat 10001))]) w0
  = (Ret (App.JsonifyError
            [Lit "Transcript too long (max 10,000 characters)"], 400%Z), w0)
  /\ posts (snd (App.analyze env0
                   (App.mkRequest false None
                      [("transcript", repeat "a"%cp (Z.to_nat 10000))]) w0))
     = 1%nat.
Proof.
  split.
  - destruct (handler_length_limit
                (App.mkRequest false None
                   [("transcript", repeat "a"%cp (Z.to_nat 10001))])
                (repeat "a"%cp (Z.to_nat 10001))) as [H _].
    + reflexivity.
    + apply H. rewrite len_repeat_a; lia.
  - destruct (handler_length_limit
                (App.mkRequest false None
                   [("transcript", repeat "a"%cp (Z.to_nat 10000))])
                (repeat "a"%cp (Z.to_nat 10000))) as [_ H].
    + reflexivity.
    + apply H.
      * intros Hn. apply (f_equal PyStr.len) in Hn.
        rewrite len_repeat_a in Hn by lia. discriminate.
      * rewrite len_repeat_a; lia.
      * intros m. reflexivity.
      * reflexivity.
Defined.

(* ================================================================== *)
(** * A request that succeeds *)





(* ================================================================== *)
(** * The retry loop at its edges *)

Lemma offline_backoff (self : Utils.GroqTranscriptAnalyzer) (i : Z) :
  quiet (Utils.backoff self i).
Proof. unfold Utils.backoff. quiet_all. Qed.

(** When the loop returns a value, it is the answer to the last post made,
    and every post before that one failed at the network level. *)
Lemma retry_loop_returns (self : Utils.GroqTranscriptAnalyzer) (E : env)
  (t : str) (v : json) (w' : world) (k : nat) :
  forall (i0 : nat) (w : world),
    Utils.retry_loop self E t (map Z.of_nat (seq i0 k)) w = (Ret v, w') ->
    (posts w < posts w')%nat
    /\ attempt_outcome E (posts w' - 1) = Ret v
    /\ forall n, (posts w <= n < posts w' - 1)%nat -> exists e, fails E n e.
Proof.
  induction k as [|k IH]; intros i0 w H.
  - cbn in H. discriminate.
  - cbn [seq map Utils.retry_loop] in H. unfold try_except in H.
    rewrite (attempt_request_run self E t i0 w) in H.
    destruct (attempt_outcome E (posts w)) as [v0|e] eqn:Ho.
    + inversion H; subst v0 w'. cbn [posts].
      replace (S (posts w) - 1)%nat with (posts w) by lia.
      split; [lia|]. split; [exact Ho|]. intros n Hn. lia.
    + destruct (is_request_exception e) eqn:He; [|discriminate].
      apply bind_ret_inv in H. destruct H as (u & w1 & Hlog & H).
      rewrite log_run in Hlog. inversion Hlog; subst u w1. clear Hlog.
      destruct (Z.of_nat i0 <? Utils.max_retries (Utils.config self) - 1)%Z;
        [|discriminate].
      apply bind_ret_inv in H. destruct H as (d & w2 & Hb & H).
      apply bind_ret_inv in H. destruct H as (u & w3 & Hs & H).
      pose proof (offline_backoff self (Z.of_nat i0) (say (mkWorld (S (posts w)) (csv w) (out w ++ attempt_events self t i0)) [Log WARNING (Lit "API request failed (attempt " :: Fmt (JInt (Z.of_nat i0 + 1)) :: Lit "): " :: str_exn e)])) as [Bp _].
      rewrite Hb in Bp. cbn [snd say posts] in Bp.
      pose proof (quiet_sleep E d w2) as [Sp _].
      rewrite Hs in Sp. cbn [snd] in Sp.
      destruct (IH (S i0) w3 H) as (Hlt & Hlast & Hbefore).
      assert (Hw3 : posts w3 = S (posts w)) by congruence.
      split; [lia|]. split; [exact Hlast|].
      intros n Hn.
      destruct (Nat.eq_dec n (posts w)) as [->|Hne].
      * exists e. split; assumption.
      * apply Hbefore. lia.
Qed.

(** X11: with a retry count of zero or less, [_make_api_request] raises
    [Exception("Max retries exceeded")] at once, with nothing posted or
    logged; [analyze] then reports it for every transcript that is not
    blank, having made no post. *)
Theorem no_attempt_without_retries (self : Utils.GroqTranscriptAnalyzer)
  (E : env) (t : str) (w : world)
  (Hcount : (Utils.max_retries (Utils.config self) <= 0)%Z) :
  Utils._make_api_request self E t w
  = (Raise (Exception_ "Max retries exceeded"), w)
  /\ (PyStr.strip t <> [] ->
      fst (Utils.analyze self E t w)
      = Ret (None, Some [Lit "Analysis failed: "; Lit "Max retries exceeded"])
      /\ posts (snd (Utils.analyze self E t w)) = posts w).
Proof.
  assert (Hreq : forall w1, Utils._make_api_request self E t w1
                            = (Raise (Exception_ "Max retries exceeded"), w1)).
  { intros w1. unfold Utils._make_api_request, range.
    replace (Z.to_nat (Utils.max_retries (Utils.config self))) with 0%nat by lia.
    reflexivity. }
  split; [apply Hreq|].
  intros Hne. unfold Utils.analyze.
  assert (Hv : exists w1, Utils._validate_transcript t w = (Ret tt, w1)
                          /\ posts w1 = posts w).
  { unfold Utils._validate_transcript.
    destruct t as [|c t]; [contradiction Hne; reflexivity|].
    destruct (PyStr.strip (c :: t)) as [|c' r] eqn:Hs; [contradiction Hne; reflexivity|].
    cbn [Utils.is_empty orb]. unfold bind at 1. cbn [ret].
    destruct (PyStr.len (c :: t) >? 50000)%Z.
    - eexists. split; [apply log_run|reflexivity].
    - eexists. split; [reflexivity|reflexivity]. }
  destruct Hv as (w1 & Hv & Hp).
  match goal with
  | |- context [try_except ?m _ _ w] =>
      assert (Hrun : m w = (Raise (Exception_ "Max retries exceeded"), w1))
  end.
  { rewrite (bind_run _ Hv). rewrite (bind_raise _ (Hreq w1)). reflexivity. }
  rewrite (try_caught _ Hrun eq_refl). cbv zeta. cbn [str_exn].
  rewrite (bind_run _ (log_run _ _ _)). cbn [ret fst snd say posts].
  split; [reflexivity|exact Hp].
Qed.

Lemma no_attempt_without_retries_witness :
  let self := Utils.mkAnalyzer "gsk"
                (Utils.mkGroqConfig "llama-3.1-8b-instant" (1 # 10) 1024 0 1 30)
                "https://api.groq.com/openai/v1/chat/completions" in
  Utils._make_api_request self env0 "hello" w0
  = (Raise (Exception_ "Max retries exceeded"), w0)
  /\ fst (Utils.analyze self env0 "hello" w0)
     = Ret (None, Some [Lit "Analysis failed: "; Lit "Max retries exceeded"]).
Proof.
  cbv zeta.
  destruct (no_attempt_without_retries
              (Utils.mkAnalyzer "gsk"
                 (Utils.mkGroqConfig "llama-3.1-8b-instant" (1 # 10) 1024 0 1 30)
                 "https://api.groq.com/openai/v1/chat/completions")
              env0 "hello" w0) as [H1 H2].
  - cbn. lia.
  - split; [exact H1|]. apply H2. vm_compute. discriminate.
Defined.

(** X12: whatever the environment, when [_make_api_request] returns a
    value it has made at least one post, the value is the JSON body of the
    answer to the last post it made, and every post before that one failed
    at the network level. *)
Theorem make_api_request_returns_last_answer
  (self : Utils.GroqTranscriptAnalyzer) (E : env) (t : str) (v : json)
  (w w' : world)
  (H : Utils._make_api_request self E t w = (Ret v, w')) :
  (posts w < posts w')%nat
  /\ attempt_outcome E (posts w' - 1) = Ret v
  /\ forall n, (posts w <= n < posts w' - 1)%nat -> exists e, fails E n e.
Proof.
  unfold Utils._make_api_request, range in H.
  exact (retry_loop_returns self E t v w' _ 0%nat w H).
Qed.

Lemma make_api_request_returns_last_answer_witness :
  let body := PyStr.q "{'choices':[]}" in
  let w' := snd (Utils._make_api_request analyzer0 (env_failing_twice body)
                   "hi" w0) in
  (posts w0 < posts w')%nat
  /\ attempt_outcome (env_failing_twice body) (posts w' - 1)
     = Ret (JObj [("choices", JArr [])])
  /\ forall n, (posts w0 <= n < posts w' - 1)%nat ->
               exists e, fails (env_failing_twice body) n e.
Proof.
  cbv zeta.
  apply (make_api_request_returns_last_answer analyzer0
           (env_failing_twice (PyStr.q "{'choices':[]}")) "hi").
  vm_compute. reflexivity.
Defined.

(* ================================================================== *)
(** * [GroqTranscriptAnalyzer.analyze] and [analyze_batch] *)

Lemma quiet_parse_content (E : env) (c : str) :
  quiet (Utils.parse_content E c).
Proof.
  unfold Utils.parse_content, Utils.extract, Utils.validate.
  cbn [Utils.require_fields]. quiet_all.
Qed.

Lemma quiet_parse_response (E : env) (data : json) :
  quiet (Utils._parse_response E data).
Proof.
  unfold Utils._parse_response.
  apply quiet_bind; [apply quiet_getitem|intros a].
  apply quiet_bind; [apply quiet_getitem0|intros b].
  apply quiet_bind; [apply quiet_getitem|intros c].
  apply quiet_bind; [apply quiet_getitem|intros d].
  apply quiet_bind; [apply quiet_method_strip|intros s].
  apply quiet_parse_content.
Qed.

Lemma quiet_validate_transcript (t : str) : quiet (Utils._validate_transcript t).
Proof. unfold Utils._validate_transcript. quiet_all. Qed.

Lemma quiet_sentiment_of (v : json) : quiet (Utils.SentimentType_of v).
Proof. unfold Utils.SentimentType_of. quiet_all. Qed.

Lemma posting_make_api_request (self : Utils.GroqTranscriptAnalyzer)
  (E : env) (t : str) :
  posting (Z.to_nat (Utils.max_retries (Utils.config self)))
    (Utils._make_api_request self E t).
Proof.
  intros w. unfold Utils._make_api_request, range.
  pose proof (retry_posts_bounded self E t
                (seq 0 (Z.to_nat (Utils.max_retries (Utils.config self)))) w)
    as H.
  rewrite length_seq in H. exact H.
Qed.

Lemma posting_utils_analyze (self : Utils.GroqTranscriptAnalyzer)
  (E : env) (t : str) :
  posting (Z.to_nat (Utils.max_retries (Utils.config self)))
    (Utils.analyze self E t).
Proof.
  unfold Utils.analyze.
  apply posting_try; [|intros e; apply offline_of_quiet; quiet_all].
  apply posting_bind_l;
    [apply offline_of_quiet, quiet_validate_transcript|intros _].
  apply posting_bind_r; [apply posting_make_api_request|intros data].
  apply offline_of_quiet.
  apply quiet_bind; [apply quiet_parse_response|intros r].
  apply quiet_bind; [apply quiet_getitem|intros su].
  apply quiet_bind; [apply quiet_getitem|intros s].
  apply quiet_bind; [apply quiet_sentiment_of|intros se].
  quiet_all.
Qed.

(** [analyze] raises nothing and returns one of the two. *)
Lemma utils_analyze_returns (self : Utils.GroqTranscriptAnalyzer) (E : env)
  (t : str) (w : world) :
  exists p w', Utils.analyze self E t w = (Ret p, w') /\ one_of_two p.
Proof.
  unfold Utils.analyze, try_except.
  match goal with
  | |- context [match ?m w with _ => _ end] =>
      destruct (m w) as [[p|e] w1] eqn:Hrun
  end.
  - exists p, w1. split; [reflexivity|]. left.
    do 10 (apply bind_ret_inv in Hrun; destruct Hrun as (? & ? & _ & Hrun)).
    unfold ret in Hrun. inversion Hrun; subst. cbn [fst snd].
    split; [discriminate|reflexivity].
  - cbn [is_exception].
    rewrite (bind_run _ (log_run _ _ _)).
    eexists; eexists. split; [reflexivity|].
    right. split; [reflexivity|discriminate].
Qed.

Lemma validate_transcript_accepts (t : str) (w : world)
  (Hne : PyStr.strip t <> []) :
  exists w1, Utils._validate_transcript t w = (Ret tt, w1)
             /\ posts w1 = posts w.
Proof.
  unfold Utils._validate_transcript.
  destruct t as [|c t]; [contradiction Hne; reflexivity|].
  destruct (PyStr.strip (c :: t)) as [|c' r] eqn:Hs;
    [contradiction Hne; reflexivity|].
  cbn [Utils.is_empty orb]. unfold bind at 1. cbn [ret].
  destruct (PyStr.len (c :: t) >? 50000)%Z.
  - eexists. split; [apply log_run|reflexivity].
  - eexists. split; [reflexivity|reflexivity].
Qed.

Lemma sentiment_of_member (v : str) (w : world)
  (H : existsb (PyStr.eqb v) Utils.sentiment_values = true) :
  Utils.SentimentType_of (JStr v) w = (Ret (sentiment_of v), w).
Proof.
  unfold Utils.SentimentType_of, sentiment_of.
  cbn [Utils.sentiment_values map Utils.value existsb] in H.
  destruct (PyStr.eqb v "positive"); [reflexivity|].
  destruct (PyStr.eqb v "negative"); [reflexivity|].
  destruct (PyStr.eqb v "neutral"); [reflexivity|discriminate].
Qed.

Lemma sentiment_of_other (v : str)
  (H : existsb (PyStr.eqb v) Utils.sentiment_values = false) :
  sentiment_of v = Utils.NEUTRAL.
Proof.
  unfold sentiment_of.
  cbn [Utils.sentiment_values map Utils.value existsb] in H.
  destruct (PyStr.eqb v "positive"); [discriminate|].
  destruct (PyStr.eqb v "negative"); [discriminate|reflexivity].
Qed.

(** X13: [analyze], end to end.  For a transcript that is not blank,
    whatever its length, a retry count of at least 1 and a first post
    answered by a reply that [json.loads] decodes (valid JSON, within the
    limits of the interpreter on digits and nesting) to an object with a
    [summary] and a string [sentiment]: [analyze] returns a result and no error after that one
    post; the summary is the reply's, the sentiment is the member of the
    enumeration that the string names ([NEUTRAL] when it names none), and
    [confidence_score], [key_topics] and [word_count] are the reply's
    values as they are, or [None] where the reply has none. *)
Theorem analyze_success (self : Utils.GroqTranscriptAnalyzer) (E : env)
  (t reply : str) (w : world) (o : dict) (su : json) (v : str)
  (Hne : PyStr.strip t <> [])
  (Hcount : (1 <= Utils.max_retries (Utils.config self))%Z)
  (Hans : answers E w reply)
  (Hvalid : loads (text_limits E) reply = Value (JObj o))
  (Hsu : dict_get o "summary" = Some su)
  (Hse : dict_get o "sentiment" = Some (JStr v)) :
  fst (Utils.analyze self E t w)
  = Ret (Some (Utils.mkAnalysisResult su (sentiment_of v)
                 (optional o "confidence_score")
                 (optional o "key_topics")
                 (optional o "word_count")), None)
  /\ posts (snd (Utils.analyze self E t w)) = S (posts w).
Proof.
  destruct (validate_transcript_accepts t w Hne) as (w1 & Hv & Hp1).
  destruct Hans as (r & data & Hpost & Hok & Hload & Hcontent).
  assert (Ho : attempt_outcome E (posts w1) = Ret data).
  { unfold attempt_outcome. rewrite Hp1, Hpost, Hok, Hload. reflexivity. }
  assert (Hreq : Utils._make_api_request self E t w1
                 = (Ret data,
                    mkWorld (S (posts w1)) (csv w1)
                      (out w1 ++ attempt_events self t 0))).
  { unfold Utils._make_api_request, range.
    replace (Z.to_nat (Utils.max_retries (Utils.config self)))
      with (S (Z.to_nat (Utils.max_retries (Utils.config self)) - 1)) by lia.
    cbn [seq map].
    apply (retry_stops self E t 0 _ w1 (Ret data) Ho). discriminate. }
  pose proof (loads_strip _ _ _ Hvalid) as Hstripped.
  set (w2 := mkWorld (S (posts w1)) (csv w1)
               (out w1 ++ attempt_events self t 0)) in *.
  set (res := JObj (if existsb (PyStr.eqb v) Utils.sentiment_values then o
                    else dict_set o "sentiment" (JStr "neutral"))).
  assert (Hparse : exists w3, Utils._parse_response E data w2 = (Ret res, w3)
                              /\ posts w3 = S (posts w)).
  { pose proof (quiet_parse_response E data w2) as [Qp _].
    rewrite (parse_response_content w2 Hcontent) in *.
    pose proof (parse_content_object w2 Hstripped (dict_get_has _ _ _ Hsu) Hse)
      as Hf.
    destruct (Utils.parse_content E (PyStr.strip reply) w2) as [o' w3].
    cbn [fst snd] in *. subst o'. exists w3. split; [reflexivity|].
    rewrite Qp. unfold w2. cbn [posts]. rewrite Hp1. reflexivity. }
  destruct Hparse as (w3 & Hparse & Hp3).
  assert (Hrest :
    exists w4,
      (su0 <- getitem res "summary" ;;
       s <- getitem res "sentiment" ;;
       se <- Utils.SentimentType_of s ;;
       cs <- method_get res "confidence_score" JNull ;;
       kt <- method_get res "key_topics" JNull ;;
       wc <- method_get res "word_count" JNull ;;
       log INFO [Lit "Analysis completed successfully"] ;;
       ret (Some (Utils.mkAnalysisResult su0 se cs kt wc),
            @None message)) w3
      = (Ret (Some (Utils.mkAnalysisResult su (sentiment_of v)
                      (optional o "confidence_score")
                      (optional o "key_topics")
                      (optional o "word_count")), None), w4)
      /\ posts w4 = posts w3).
  { unfold res, optional.
    destruct (existsb (PyStr.eqb v) Utils.sentiment_values) eqn:Hin.
    - eexists. split; [|shelve].
      unfold bind at 1. cbn [getitem]. rewrite Hsu. cbn [ret].
      unfold bind at 1. cbn [getitem]. rewrite Hse. cbn [ret].
      rewrite (bind_run _ (sentiment_of_member v _ Hin)).
      unfold bind, method_get, ret, log, emit. reflexivity.
      Unshelve. reflexivity.
    - eexists. split; [|shelve].
      unfold bind at 1. cbn [getitem].
      rewrite dict_has_set_other by reflexivity. rewrite Hsu.
      cbn [ret].
      unfold bind at 1. cbn [getitem]. rewrite dict_get_set_same. cbn [ret].
      unfold bind at 1. cbn [Utils.SentimentType_of ret].
      rewrite (sentiment_of_other v Hin).
      unfold bind, method_get, ret, log, emit.
      rewrite !dict_has_set_other by reflexivity.
      reflexivity.
      Unshelve. reflexivity. }
  destruct Hrest as (w4 & Hrest & Hp4).
  unfold Utils.analyze.
  match goal with
  | |- context [try_except ?m _ _ w] =>
      assert (Hrun : m w = (Ret (Some (Utils.mkAnalysisResult su (sentiment_of v)
                                         (optional o "confidence_score")
                                         (optional o "key_topics")
                                         (optional o "word_count")), None), w4))
  end.
  { rewrite (bind_run _ Hv). rewrite (bind_run _ Hreq).
    rewrite (bind_run _ Hparse). exact Hrest. }
  rewrite (try_ret _ _ Hrun). cbn [fst snd].
  split; [reflexivity|congruence].
Qed.

Lemma analyze_success_witness :
  let body :=
    PyStr.q "{'choices':[{'message':{'content':'{\'summary\':\'ok\',\'sentiment\':\'negative\',\'word_count\':7}'}}]}" in
  fst (Utils.analyze analyzer0 (env_answering body None) "hello" w0)
  = Ret (Some (Utils.mkAnalysisResult (JStr "ok") Utils.NEGATIVE
                 JNull JNull (JInt 7)), None)
  /\ posts (snd (Utils.analyze analyzer0 (env_answering body None) "hello" w0))
     = 1%nat.
Proof.
  cbv zeta.
  apply (analyze_success analyzer0
           (env_answering
              (PyStr.q "{'choices':[{'message':{'content':'{\'summary\':\'ok\',\'sentiment\':\'negative\',\'word_count\':7}'}}]}")
              None)
           "hello"
           (PyStr.q "{'summary':'ok','sentiment':'negative','word_count':7}")
           w0
           [("summary", JStr "ok"); ("sentiment", JStr "negative");
            ("word_count", JInt 7)]
           (JStr "ok") "negative").
  - vm_compute. discriminate.
  - vm_compute. discriminate.
  - eexists; eexists. repeat split; vm_compute; reflexivity.
  - vm_compute. reflexivity.
  - reflexivity.
  - reflexivity.
Defined.

Lemma batch_sleep_run {E : env} (Hsleep : time_sleep_raises E (1 # 2) = None)
  (w : world) :
  sleep E (1 # 2) w = (Ret tt, say w [Sleep (1 # 2)]).
Proof. unfold sleep. rewrite Hsleep. reflexivity. Qed.

Lemma analyze_batch_from_run (self : Utils.GroqTranscriptAnalyzer) (E : env)
  (Hsleep : time_sleep_raises E (1 # 2) = None) (ts : list str) :
  forall (i n : Z) (w : world),
    exists results w',
      Utils.analyze_batch_from self E i n ts w = (Ret results, w')
      /\ Forall2 (fun t p => exists w1, fst (Utils.analyze self E t w1) = Ret p)
                 ts results
      /\ Forall one_of_two results
      /\ (posts w'
          <= posts w
             + length ts * Z.to_nat (Utils.max_retries (Utils.config self)))%nat.
Proof.
  induction ts as [|t ts IH]; intros i n w.
  - exists [], w. split; [reflexivity|]. split; [constructor|].
    split; [constructor|]. cbn [length]. lia.
  - cbn [Utils.analyze_batch_from].
    rewrite (bind_run _ (log_run _ _ _)).
    destruct (utils_analyze_returns self E t
                (say w [Log INFO [Lit "Processing transcript ";
                                  Fmt (JInt (i + 1)); Lit "/"; Fmt (JInt n)]]))
      as (p & w1 & Ha & Hone).
    pose proof (posting_utils_analyze self E t
                  (say w [Log INFO [Lit "Processing transcript ";
                                    Fmt (JInt (i + 1)); Lit "/"; Fmt (JInt n)]]))
      as Hp.
    rewrite Ha in Hp. cbn [snd say posts] in Hp.
    rewrite (bind_run _ Ha).
    assert (Hs : exists w2,
               (if (i <? n - 1)%Z then sleep E (1 # 2) else ret tt) w1
               = (Ret tt, w2) /\ posts w2 = posts w1).
    { destruct (i <? n - 1)%Z.
      - eexists. split; [apply (batch_sleep_run Hsleep)|reflexivity].
      - eexists. split; reflexivity. }
    destruct Hs as (w2 & Hs & Hp2).
    rewrite (bind_run _ Hs).
    destruct (IH (i + 1)%Z n w2) as (results & w' & Hr & Hall & Hones & Hposts).
    rewrite (bind_run _ Hr).
    exists (p :: results), w'. split; [reflexivity|].
    split.
    { constructor; [|exact Hall]. eexists. rewrite Ha. reflexivity. }
    split; [constructor; assumption|].
    cbn [length]. lia.
Qed.

(** X14: when [time.sleep(0.5)] goes through, [analyze_batch] raises
    nothing and returns one pair for each transcript, in their order: each
    is what [analyze] returned for that transcript, so a result with no
    error or no result with an error; a failure on one transcript does
    not stop the others.  The batch makes at most as many posts as the
    retry count for each transcript. *)
Theorem analyze_batch_one_pair_each (self : Utils.GroqTranscriptAnalyzer)
  (E : env) (ts : list str) (w : world)
  (Hsleep : time_sleep_raises E (1 # 2) = None) :
  exists results w',
    Utils.analyze_batch self E ts w = (Ret results, w')
    /\ Forall2 (fun t p => exists w1, fst (Utils.analyze self E t w1) = Ret p)
               ts results
    /\ Forall one_of_two results
    /\ (posts w'
        <= posts w
           + length ts * Z.to_nat (Utils.max_retries (Utils.config self)))%nat.
Proof.
  unfold Utils.analyze_batch. apply analyze_batch_from_run. exact Hsleep.
Qed.

Lemma analyze_batch_one_pair_each_witness :
  exists results w',
    Utils.analyze_batch analyzer0 (env_posting (PostRaises Timeout_))
      ["hello"; "  "] w0 = (Ret results, w')
    /\ Forall2 (fun t p =>
                  exists w1,
                    fst (Utils.analyze analyzer0
                           (env_posting (PostRaises Timeout_)) t w1) = Ret p)
               ["hello"; "  "] results
    /\ Forall one_of_two results
    /\ (posts w'
        <= posts w0
           + length ["hello"; "  "]
             * Z.to_nat (Utils.max_retries (Utils.config analyzer0)))%nat.
Proof.
  apply (analyze_batch_one_pair_each analyzer0
           (env_posting (PostRaises Timeout_)) ["hello"; "  "] w0).
  reflexivity.
Defined.

(* ================================================================== *)
(** * The constructor *)

(** X15: [GroqTranscriptAnalyzer(api_key, config)] raises [ValueError]
    exactly when neither the argument nor the environment gives a key that
    is not empty.  Otherwise the analyzer it builds has a key that is not
    empty: the argument when that is given, the key of the environment
    otherwise (also for the empty string as argument); and its
    configuration is the argument, or the default one. *)
Theorem init_needs_a_key (E : env) (key : option str)
  (cfg : option Utils.GroqConfig) (w : world) :
  (given key || given (GROQ_API_KEY E) = false ->
   Utils.__init__ E key cfg w
   = (Raise (ValueError "GROQ_API_KEY must be provided or set in environment variables. Please check your .env file."), w))
  /\ (given key || given (GROQ_API_KEY E) = true ->
      exists a,
        Utils.__init__ E key cfg w = (Ret a, w)
        /\ Utils.api_key a <> []
        /\ Some (Utils.api_key a) = (if given key then key else GROQ_API_KEY E)
        /\ Utils.config a = match cfg with
                            | Some c => c
                            | None => Utils.default_config
                            end
        /\ Utils.api_url a = "https://api.groq.com/openai/v1/chat/completions").
Proof.
  unfold Utils.__init__, given.
  destruct key as [[|c k]|]; destruct (GROQ_API_KEY E) as [[|c' k']|];
    cbn [orb]; split; intros H; try discriminate; try reflexivity;
    eexists; (split; [reflexivity|]); cbn [Utils.api_key Utils.config Utils.api_url];
    (split; [discriminate|]); (split; [reflexivity|]); split; reflexivity.
Qed.

(* ================================================================== *)
(** * The module-level [analyze_with_groq] of [groq_utils.py] *)

Lemma quiet_legacy_rescue (E : env) (content : json) :
  quiet (Utils.legacy_rescue E content).
Proof.
  unfold Utils.legacy_rescue, Utils.json_loads_value. quiet_all.
Qed.

Lemma contains_holds (r : json) (k : str) (b : bool) (w w' : world)
  (H : contains r k w = (Ret b, w')) : b = holds r k /\ w' = w.
Proof.
  destruct r; cbn [contains holds] in *;
    try (unfold raise in H; discriminate);
    inversion H; split; reflexivity.
Qed.

Lemma legacy_rescue_returns (E : env) (content : json) (w w' : world)
  (p : option json * option message)
  (H : Utils.legacy_rescue E content w = (Ret p, w')) :
  (exists m, p = (None, Some m))
  \/ (exists r, p = (Some r, None)
                /\ holds r "summary" = true /\ holds r "sentiment" = true).
Proof.
  unfold Utils.legacy_rescue in H.
  apply bind_ret_inv in H. destruct H as (x & w1 & Hx & H).
  destruct x as [early|result].
  - left. inversion H; subst p w'. clear H.
    unfold try_except, bind in Hx.
    destruct (Utils.json_loads_value E content w) as [[v|e] w0];
      [inversion Hx|].
    destruct (is_json_decode_error e); [|discriminate].
    destruct content; try (unfold raise in Hx; discriminate).
    destruct (Re.search Re.braces_greedy s) as [m|].
    + destruct (json_loads E m w0) as [[v|e'] w5]; [inversion Hx|discriminate].
    + inversion Hx. eexists. reflexivity.
  - apply bind_ret_inv in H. destruct H as (hs & w2 & Hs & H).
    apply bind_ret_inv in H. destruct H as (missing & w3 & Hm & H).
    destruct missing.
    { inversion H. left. eexists. reflexivity. }
    inversion H; subst. right. exists result. split; [reflexivity|].
    destruct (contains_holds _ _ _ _ _ Hs) as [-> ->].
    destruct (holds result "summary"); cbn [negb] in Hm; [|inversion Hm].
    split; [reflexivity|].
    apply bind_ret_inv in Hm. destruct Hm as (h2 & w4 & Hs2 & Hm).
    destruct (contains_holds _ _ _ _ _ Hs2) as [-> ->].
    inversion Hm.
    destruct (holds result "sentiment"); [reflexivity|discriminate].
Qed.

Lemma holds_contains (r : json) (k : str) (w : world)
  (H : holds r k = true) : contains r k w = (Ret true, w).
Proof.
  destruct r; cbn [contains holds] in *; try discriminate;
    rewrite H; reflexivity.
Qed.

Lemma posting_post (E : env) (url : str) (body : payload) (timeout : option Z) :
  posting 1 (post E url body timeout).
Proof.
  intros w. unfold post. destruct (requests_post E (posts w));
    cbn [snd posts]; lia.
Qed.

Lemma posting_legacy (E : env) (t : str) :
  posting 1 (Utils.analyze_with_groq E t).
Proof.
  unfold Utils.analyze_with_groq.
  destruct (GROQ_API_KEY E) as [[|c k]|];
    try (apply posting_of_offline, offline_of_quiet, quiet_ret).
  apply posting_try; [|intros e; apply offline_of_quiet, quiet_ret].
  apply posting_bind_r; [apply posting_post|intros r].
  apply offline_of_quiet.
  apply quiet_bind; [apply quiet_raise_for_status|intros _].
  apply quiet_bind; [apply quiet_response_json|intros d].
  apply quiet_bind; [apply quiet_getitem|intros a].
  apply quiet_bind; [apply quiet_getitem0|intros b].
  apply quiet_bind; [apply quiet_getitem|intros c'].
  apply quiet_bind; [apply quiet_getitem|intros content].
  apply quiet_legacy_rescue.
Qed.

(** X16: whatever the transcript and the environment, the module-level
    [analyze_with_groq] of [groq_utils.py] raises nothing, makes at most
    one post and returns a result with no error or no result with an
    error.  A result is a value in which [in] finds both [summary] and
    [sentiment]; nothing more is asked of it. *)
Theorem legacy_analyze_one_of_two (E : env) (t : str) (w : world) :
  exists p w',
    Utils.analyze_with_groq E t w = (Ret p, w')
    /\ one_of_two p
    /\ (posts w' <= posts w + 1)%nat
    /\ (forall r, fst p = Some r ->
                  holds r "summary" = true /\ holds r "sentiment" = true).
Proof.
  pose proof (posting_legacy E t w) as Hposts.
  unfold Utils.analyze_with_groq in *.
  destruct (GROQ_API_KEY E) as [[|c k]|].
  1,3: eexists; eexists; (split; [reflexivity|]);
       (split; [right; split; [reflexivity|discriminate]|]);
       (split; [exact Hposts|]); intros r Hr; discriminate.
  unfold try_except in *.
  match goal with
  | |- context [match ?m w with _ => _ end] =>
      destruct (m w) as [[p|e] w1] eqn:Hrun
  end.
  - exists p, w1. split; [reflexivity|].
    do 7 (apply bind_ret_inv in Hrun; destruct Hrun as (? & ? & _ & Hrun)).
    destruct (legacy_rescue_returns _ _ _ _ _ Hrun)
      as [(m & ->)|(r & -> & Hs1 & Hs2)].
    + split; [right; split; [reflexivity|discriminate]|].
      split; [exact Hposts|]. intros r Hr. discriminate.
    + split; [left; split; [discriminate|reflexivity]|].
      split; [exact Hposts|]. intros r' Hr. inversion Hr; subst r'.
      split; assumption.
  - cbn [is_exception ret] in *. eexists; eexists. split; [reflexivity|].
    split; [right; split; [reflexivity|discriminate]|].
    split; [exact Hposts|]. intros r Hr. discriminate.
Qed.

(** X17: the module-level [analyze_with_groq] of [groq_utils.py] returns
    what the reply is decoded to as it is: when [json.loads] decodes the
    reply (valid JSON, within the limits of the interpreter on digits and
    nesting) to a value in which [in] finds [summary] and [sentiment],
    that value is the result, with its sentiment neither checked nor
    normalised; and the value can be an object with the two keys, but
    also a list that holds the two words or a string that contains
    them. *)
Theorem legacy_returns_reply_value (reply : str) (r : json)
  (Hsu : holds r "summary" = true) (Hse : holds r "sentiment" = true) :
  forall E t w,
    App.no_api_key E = false -> answers E w reply ->
    loads (text_limits E) reply = Value r ->
    fst (Utils.analyze_with_groq E t w) = Ret (Some r, None).
Proof.
  intros E t w Hkey Hans Hvalid.
  destruct (legacy_analyze_answered E t w reply Hkey Hans) as (w' & ->).
  assert (Hr : Utils.legacy_rescue E (JStr reply) w' = (Ret (Some r, None), w')).
  { unfold Utils.legacy_rescue.
    assert (Hl : try_except (v <- Utils.json_loads_value E (JStr reply) ;;
                             ret (@inr (option json * option message) json v))
                   is_json_decode_error
                   (fun _ =>
                      match JStr reply with
                      | JStr s =>
                          match Re.search Re.braces_greedy s with
                          | Some m => v <- json_loads E m ;; ret (inr v)
                          | None =>
                              ret (inl (None,
                                        Some [Lit "Failed to parse JSON response"]))
                          end
                      | _ => raise TypeError
                      end) w'
                 = (Ret (inr r), w')).
    { apply try_ret. cbn [Utils.json_loads_value].
      rewrite (bind_run _ (json_loads_some _ Hvalid)). reflexivity. }
    rewrite (bind_run _ Hl).
    rewrite (bind_run _ (holds_contains _ _ _ Hsu)). cbn [negb].
    unfold bind at 1.
    rewrite (bind_run _ (holds_contains _ _ _ Hse)). reflexivity. }
  rewrite (try_ret _ _ Hr). reflexivity.
Qed.

Lemma legacy_returns_reply_value_witness :
  let body :=
    PyStr.q "{'choices':[{'message':{'content':'[\'summary\',\'sentiment\']'}}]}" in
  fst (Utils.analyze_with_groq (env_answering body None) "hello" w0)
  = Ret (Some (JArr [JStr "summary"; JStr "sentiment"]), None).
Proof.
  cbv zeta.
  apply (legacy_returns_reply_value
           (PyStr.q "['summary','sentiment']")
           (JArr [JStr "summary"; JStr "sentiment"])).
  - reflexivity.
  - reflexivity.
  - reflexivity.
  - eexists; eexists. repeat split; vm_compute; reflexivity.
  - vm_compute. reflexivity.
Defined.

(* ================================================================== *)
(** * What a rescuer returns, read again *)

(** What [validate] of [groq_utils.py] returns is an object with the
    [summary] key whose sentiment is one of the three words. *)
Lemma utils_validate_inv (res r : json) (w w1 : world)
  (H : Utils.validate res w = (Ret r, w1)) :
  exists o s,
    r = JObj o /\ dict_has o "summary" = true
    /\ dict_get o "sentiment" = Some (JStr s)
    /\ existsb (PyStr.eqb s) Utils.sentiment_values = true.
Proof.
  unfold Utils.validate in H. cbn [Utils.require_fields] in H.
  apply bind_ret_inv in H. destruct H as (u & w2 & Hreq & H).
  apply bind_ret_inv in H. destruct H as (s & w3 & Hget & H).
  destruct res as [| | | | | | | |d];
    try (cbn [getitem] in Hget; unfold raise in Hget; discriminate).
  apply bind_ret_inv in Hreq. destruct Hreq as (b & w4 & Hc & Hreq).
  destruct (contains_holds _ _ _ _ _ Hc) as [-> ->]. cbn [holds] in Hreq.
  destruct (dict_has d "summary") eqn:Hs; cbn [negb] in Hreq;
    [|unfold raise in Hreq; discriminate].
  clear Hreq Hc.
  unfold getitem in Hget.
  destruct (dict_get d "sentiment") as [x|] eqn:Hx;
    [|unfold raise in Hget; discriminate].
  inversion Hget; subst x w3. clear Hget.
  destruct (in_strs s Utils.sentiment_values) eqn:Hin; cbn [negb] in H.
  - inversion H; subst r w1.
    destruct s as [| | | | | |v| |]; try discriminate.
    exists d, v. repeat split; assumption.
  - rewrite (bind_run _ (log_run _ _ _)) in H. inversion H; subst r w1.
    exists (dict_set d "sentiment" (JStr "neutral")), "neutral".
    split; [reflexivity|]. split; [|split].
    + unfold dict_has in *. rewrite dict_has_set_other by reflexivity.
      exact Hs.
    + apply dict_get_set_same.
    + reflexivity.
Qed.

Lemma utils_validate_fixed (o : dict) (s : str) (w : world)
  (Hs : dict_has o "summary" = true)
  (Hv : dict_get o "sentiment" = Some (JStr s))
  (Hin : existsb (PyStr.eqb s) Utils.sentiment_values = true) :
  Utils.validate (JObj o) w = (Ret (JObj o), w).
Proof.
  unfold Utils.validate. cbn [Utils.require_fields].
  unfold bind at 1. unfold bind at 1. cbn [contains ret]. rewrite Hs.
  cbn [negb].
  unfold bind at 1. cbn [contains ret]. rewrite (dict_get_has _ _ _ Hv).
  cbn [negb ret].
  unfold bind at 1. cbn [getitem]. rewrite Hv. cbn [ret in_strs].
  rewrite Hin. reflexivity.
Qed.

Lemma final_sentiment_fixed (v : str) :
  final_sentiment (final_sentiment v) = final_sentiment v.
Proof.
  destruct (final_sentiment_valid v) as [<-|[<-|[<-|[]]]]; reflexivity.
Qed.

(** X18: normalising twice changes nothing more.  A result that
    [validate] of [groq_utils.py] returns is returned by it again as it
    is, with no warning; the result of the validation in [app.py] is
    returned again as it is when it is validated again, on a standard
    output that takes what is printed. *)
Theorem validation_idempotent (res r : json) :
  (forall w w1 w',
     Utils.validate res w = (Ret r, w1) ->
     Utils.validate r w' = (Ret r, w'))
  /\ (forall E c c' w w1 w',
        stdout_open E ->
        App.validate E c res w = (Ret (Some r, None), w1) ->
        fst (App.validate E c' r w') = Ret (Some r, None)).
Proof.
  split.
  - intros w w1 w' H.
    destruct (utils_validate_inv _ _ _ _ H) as (o & s & -> & Hs & Hv & Hin).
    apply (utils_validate_fixed o s w' Hs Hv Hin).
  - intros E c c' w w1 w' Hout H.
    destruct (validate_returns _ _ _ _ _ _ H) as [(m & Hm)|(r' & o & Hr & -> & Hs)];
      [discriminate|].
    destruct (validate_result_inv _ _ _ _ _ H) as (o' & v & Ho & Hv & ->).
    inversion Ho; subst o'.
    assert (Hs' : dict_has (dict_set o "sentiment" (JStr (final_sentiment v)))
                    "summary" = true).
    { unfold dict_has in *. rewrite dict_has_set_other by reflexivity.
      exact Hs. }
    rewrite (validate_object Hout c' w' Hs' (dict_get_set_same _ _ _)).
    cbn [fst]. rewrite dict_set_set, final_sentiment_fixed. reflexivity.
Qed.

(** X19: whatever the response, a value that [_parse_response] returns is
    an object that has the [summary] key and whose [sentiment] is one of
    the three words, so that the conversion to [SentimentType] in
    [analyze] cannot fail on it. *)
Theorem parse_response_result_well_formed (E : env) (data r : json)
  (w w' : world)
  (H : Utils._parse_response E data w = (Ret r, w')) :
  exists o s,
    r = JObj o /\ dict_has o "summary" = true
    /\ dict_get o "sentiment" = Some (JStr s)
    /\ In s Utils.sentiment_values
    /\ forall w1, Utils.SentimentType_of (JStr s) w1 = (Ret (sentiment_of s), w1).
Proof.
  unfold Utils._parse_response in H.
  do 5 (apply bind_ret_inv in H; destruct H as (? & ? & _ & H)).
  unfold Utils.parse_content, try_except in H.
  match type of H with
  | context [match ?m ?w0 with _ => _ end] =>
      destruct (m w0) as [[a|e] w1] eqn:Hrun
  end.
  - inversion H; subst a w1. clear H.
    apply bind_ret_inv in Hrun. destruct Hrun as (res & w2 & _ & Hrun).
    destruct (utils_validate_inv _ _ _ _ Hrun) as (o & s & -> & Hs & Hv & Hin).
    exists o, s. split; [reflexivity|]. split; [exact Hs|].
    split; [exact Hv|]. split; [apply existsb_eqb_In; exact Hin|].
    intros w1. apply sentiment_of_member. exact Hin.
  - destruct (is_json_decode_error e); [|discriminate].
    rewrite (bind_run _ (log_run _ _ _)) in H.
    rewrite (bind_run _ (log_run _ _ _)) in H. discriminate.
Qed.

Lemma parse_response_result_well_formed_witness :
  exists o s,
    JObj [("summary", JStr "ok"); ("sentiment", JStr "neutral")] = JObj o
    /\ dict_has o "summary" = true
    /\ dict_get o "sentiment" = Some (JStr s)
    /\ In s Utils.sentiment_values
    /\ forall w1, Utils.SentimentType_of (JStr s) w1 = (Ret (sentiment_of s), w1).
Proof.
  apply (parse_response_result_well_formed env0
           (chat_response (PyStr.q "{'summary':'ok','sentiment':null}"))
           _ w0
           (snd (Utils._parse_response env0
                   (chat_response (PyStr.q "{'summary':'ok','sentiment':null}"))
                   w0))).
  vm_compute. reflexivity.
Defined.

(* ================================================================== *)
(** * [analyze] when the network keeps failing *)

(** X20: when every attempt of a transcript that is not blank fails at the
    network level (and the sleeps between them go through), [analyze]
    raises nothing: it returns no result and the error
    [Analysis failed: ] followed by the text of the failure of the LAST
    attempt, after as many posts as the retry count allows, with the CSV
    file untouched. *)
Theorem analyze_reports_last_failure (self : Utils.GroqTranscriptAnalyzer)
  (E : env) (t : str) (w : world) (e : nat -> exn) (n : nat)
  (Hne : PyStr.strip t <> [])
  (Hcount : (Z.of_nat n = Utils.max_retries (Utils.config self) - 1)%Z)
  (Hsleeps : forall j, (j < n)%nat -> sleep_accepted E self j)
  (Hfail : forall j, (j <= n)%nat -> fails E (posts w + j) (e j)) :
  fst (Utils.analyze self E t w)
  = Ret (None, Some (Lit "Analysis failed: " :: str_exn (e n)))
  /\ posts (snd (Utils.analyze self E t w)) = (posts w + n + 1)%nat
  /\ Z.of_nat (n + 1) = Utils.max_retries (Utils.config self)
  /\ csv (snd (Utils.analyze self E t w)) = csv w.
Proof.
  destruct (validate_transcript_accepts t w Hne) as (w1 & Hv & Hp1).
  assert (Hc1 : csv w1 = csv w).
  { pose proof (quiet_validate_transcript t w) as [_ Hc].
    rewrite Hv in Hc. exact Hc. }
  assert (Hreq : Utils._make_api_request self E t w1
                 = (Raise (e n),
                    mkWorld (posts w1 + n + 1) (csv w1)
                      (out w1 ++ backoff_rounds self t
                                   (Utils.retry_delay (Utils.config self)) e 0 n
                              ++ failure_events self t n (e n)))).
  { unfold Utils._make_api_request, range.
    replace (Z.to_nat (Utils.max_retries (Utils.config self)))
      with (S n) by lia.
    apply (retry_exhausted self E t e n 0 w1).
    - cbn [Nat.add]. exact Hcount.
    - intros j Hj. apply Hsleeps. exact Hj.
    - intros j Hj. rewrite Hp1. apply Hfail. exact Hj. }
  unfold Utils.analyze, try_except.
  rewrite (bind_run _ Hv).
  rewrite (bind_raise _ Hreq).
  cbn [is_exception].
  rewrite (bind_run _ (log_run _ _ _)).
  cbn [fst snd ret say posts csv].
  split; [reflexivity|]. split; [rewrite Hp1; reflexivity|].
  split; [lia|exact Hc1].
Qed.

Lemma analyze_reports_last_failure_witness :
  let E := env_posting (PostRaises Timeout_) in
  fst (Utils.analyze analyzer0 E "hi" w0)
  = Ret (None, Some (Lit "Analysis failed: " :: str_exn Timeout_))
  /\ posts (snd (Utils.analyze analyzer0 E "hi" w0)) = (posts w0 + 2 + 1)%nat
  /\ Z.of_nat (2 + 1) = Utils.max_retries (Utils.config analyzer0)
  /\ csv (snd (Utils.analyze analyzer0 E "hi" w0)) = csv w0.
Proof.
  cbv zeta.
  apply (analyze_reports_last_failure analyzer0
           (env_posting (PostRaises Timeout_)) "hi" w0 (fun _ => Timeout_) 2).
  - vm_compute. discriminate.
  - reflexivity.
  - intros [|[|j]] Hj; [split; reflexivity|split; reflexivity|lia].
  - intros j Hj. split; reflexivity.
Defined.

(* ================================================================== *)
(** * A text that the decoder refuses *)

Lemma refusal_not_decode_error (x : refusal) :
  is_json_decode_error (refusal_exn x) = false.
Proof. destruct x; reflexivity. Qed.

Lemma refusal_not_request_exception (x : refusal) :
  is_request_exception (refusal_exn x) = false.
Proof. destruct x; reflexivity. Qed.

Lemma extract_refused {E : env} {c : str} {x : refusal} (w : world)
  (H : loads (text_limits E) c = Refused x) :
  Utils.extract E c w = (Raise (refusal_exn x), w).
Proof.
  unfold Utils.extract.
  apply try_passed; [|apply refusal_not_decode_error].
  apply json_loads_refused. exact H.
Qed.

(** X21: a text with an integer of more digits than [int()] converts, or
    nested deeper than the recursion depth allows, is not taken for a
    text that is no JSON: what [json.loads] raises on it ([ValueError],
    [RecursionError]) passes every [except json.JSONDecodeError], so that
    no fallback is tried.  [analyze_with_groq] of [app.py] returns it as
    an unexpected error, [_parse_response] raises it with nothing logged,
    the module-level [analyze_with_groq] returns its text as the error;
    and when it is the body of the response that the decoder refuses,
    [_make_api_request] does not try again: [analyze] reports it after
    the one post. *)
Theorem decoder_refusal_reported (reply : str) (x : refusal) :
  (forall E t w,
     stdout_open E -> App.no_api_key E = false -> answers E w reply ->
     loads (text_limits E) (PyStr.strip reply) = Refused x ->
     fst (App.analyze_with_groq E t w)
     = Ret (None, Some (Lit "Unexpected error: " :: str_exn (refusal_exn x))))
  /\ (forall E data w,
        content_of data = Some (JStr reply) ->
        loads (text_limits E) (Utils.strip_code_block (PyStr.strip reply))
        = Refused x ->
        Utils._parse_response E data w = (Raise (refusal_exn x), w))
  /\ (forall E t w,
        App.no_api_key E = false -> answers E w reply ->
        loads (text_limits E) reply = Refused x ->
        fst (Utils.analyze_with_groq E t w)
        = Ret (None, Some (str_exn (refusal_exn x))))
  /\ (forall self E t w r,
        PyStr.strip t <> [] ->
        (1 <= Utils.max_retries (Utils.config self))%Z ->
        requests_post E (posts w) = PostReturns r ->
        response_ok r = true ->
        loads (body_limits E) (text r) = Refused x ->
        fst (Utils.analyze self E t w)
        = Ret (None, Some (Lit "Analysis failed: " :: str_exn (refusal_exn x)))
        /\ posts (snd (Utils.analyze self E t w)) = S (posts w)).
Proof.
  split; [|split; [|split]].
  - intros E t w Hout Hkey Hans Hx.
    rewrite (app_analyze_answered E Hout t w reply Hkey Hans).
    apply guarded_raise. unfold App.rescue.
    rewrite (bind_run _ (print_run Hout _ _)).
    unfold App.cascade.
    rewrite (bind_raise _ (bind_raise _ (method1_refused JNull _ Hx))).
    reflexivity.
  - intros E data w Hdata Hx.
    rewrite (parse_response_content w Hdata).
    unfold Utils.parse_content.
    apply try_passed; [|apply refusal_not_decode_error].
    apply bind_raise. apply extract_refused. exact Hx.
  - intros E t w Hkey Hans Hx.
    destruct (legacy_analyze_answered E t w reply Hkey Hans) as (w' & ->).
    assert (Hr : Utils.legacy_rescue E (JStr reply) w'
                 = (Raise (refusal_exn x), w')).
    { unfold Utils.legacy_rescue. apply bind_raise.
      apply try_passed; [|apply refusal_not_decode_error].
      apply bind_raise. cbn [Utils.json_loads_value].
      apply json_loads_refused. exact Hx. }
    rewrite (try_caught _ Hr eq_refl). reflexivity.
  - intros self E t w r Hne Hcount Hpost Hok Hx.
    destruct (validate_transcript_accepts t w Hne) as (w1 & Hv & Hp1).
    assert (Ho : attempt_outcome E (posts w1) = Raise (refusal_exn x)).
    { unfold attempt_outcome. rewrite Hp1, Hpost, Hok, Hx. reflexivity. }
    assert (Hreq : Utils._make_api_request self E t w1
                   = (Raise (refusal_exn x),
                      mkWorld (S (posts w1)) (csv w1)
                        (out w1 ++ attempt_events self t 0))).
    { unfold Utils._make_api_request, range.
      replace (Z.to_nat (Utils.max_retries (Utils.config self)))
        with (S (Z.to_nat (Utils.max_retries (Utils.config self)) - 1)) by lia.
      cbn [seq map].
      apply (retry_stops self E t 0 _ w1 _ Ho).
      intros e He. inversion He. apply refusal_not_request_exception. }
    unfold Utils.analyze, try_except.
    rewrite (bind_run _ Hv).
    rewrite (bind_raise _ Hreq).
    cbn [is_exception].
    rewrite (bind_run _ (log_run _ _ _)).
    cbn [fst snd ret say posts].
    split; [reflexivity|rewrite Hp1; reflexivity].
Qed.

Lemma decoder_refusal_reported_witness :
  let reply := repeat "["%cp 2000 in
  let body :=
    PyStr.q "{'choices':[{'message':{'content':'" ++ reply ++ PyStr.q "'}}]}" in
  fst (App.analyze_with_groq (env_answering body None) "hello" w0)
  = Ret (None, Some [Lit "Unexpected error: "; FmtExn (RecursionError false)])
  /\ Utils._parse_response env0 (chat_response reply) w0
     = (Raise (RecursionError false), w0).
Proof.
  cbv zeta.
  destruct (decoder_refusal_reported (repeat "["%cp 2000) (TooDeep false))
    as (Happ & Hutils & _).
  split.
  - apply Happ.
    + intros m. reflexivity.
    + reflexivity.
    + eexists; eexists. repeat split; vm_compute; reflexivity.
    + vm_compute. reflexivity.
  - apply Hutils; [reflexivity|vm_compute; reflexivity].
Defined.
